(** * ROBOSTAAN blog/course web application: model and verified properties

    The development follows the repository layout:
    - [Js]: the JavaScript string and array built-ins the pages rely on,
      with the text whose letter case the blogs page looks at;
    - [Blog], [Course]: the record types of [src/lib/supabase.ts];
    - [Sql], [Enrollment], [Comment] and the statements on [Db]: the
      relational schema of [supabase/migrations] (defaults, CHECK / UNIQUE /
      foreign-key constraints, row-level-security policies) and the
      PostgREST calls the client issues against it;
    - [Ctx]: the data-access context of [src/context/AppContext.tsx];
    - [BlogsPage], [CourseCard], [UserProfile], [Signup]: the page handlers
      and the parts of the element tree guarded by the admin flag.
    Definitions come first, the properties and their proofs after them. *)

From Stdlib Require Import ZArith Ascii.
From stdpp Require Import base decidable option list strings sorting gmap.

Local Open Scope nat_scope.

(* ===================================================================== *)
(** * JavaScript built-ins *)
(* ===================================================================== *)

Module Js.

(** Strings are sequences of UTF-16 code units.  A string the code stores,
    compares, joins, trims or cuts at a comma is kept as a [string], one
    [ascii] for each code unit: this covers the code units below 256 (Basic
    Latin and Latin-1).  The titles, snippets and search terms, whose
    letter case the blogs page looks at, are kept as [text], below. *)

(** On the code units below 256, [String.prototype.toLowerCase] maps A..Z
    and the accented capitals U+00C0..U+00DE (except the multiplication
    sign U+00D7) to the code unit 32 above and leaves every other code
    unit alone. *)
Definition lower_char (c : ascii) : ascii :=
  let n := nat_of_ascii c in
  if ((65 <=? n) && (n <=? 90)) ||
     ((192 <=? n) && (n <=? 222) && negb (n =? 215))
  then ascii_of_nat (n + 32) else c.

(** A code unit of a text.  The repertoire is Basic Latin, Latin-1 and the
    Greek letter sigma in its three forms; sigma is the one letter whose
    lower-case form depends on its neighbours. *)
Inductive code_unit :=
| Latin1 (c : ascii)                 (* U+0000 .. U+00FF *)
| CapitalSigma                       (* U+03A3 *)
| FinalSigma                         (* U+03C2 *)
| SmallSigma.                        (* U+03C3 *)

#[global] Instance code_unit_eq_dec : EqDecision code_unit.
Proof. solve_decision. Defined.

Definition text := list code_unit.

(** The value of a code unit. *)
Definition code (u : code_unit) : N :=
  match u with
  | Latin1 c => N_of_ascii c
  | CapitalSigma => 931
  | FinalSigma => 962
  | SmallSigma => 963
  end.

(** A [string] as a text. *)
Definition units (s : string) : text := Latin1 <$> String.list_ascii_of_string s.

(** The Unicode property Cased on the repertoire: the letters A..Z and
    a..z, the ordinal indicators U+00AA and U+00BA, the micro sign
    U+00B5, the letters U+00C0..U+00FF without the multiplication and
    division signs, and sigma. *)
Definition cased (u : code_unit) : bool :=
  match u with
  | Latin1 c =>
      let n := nat_of_ascii c in
      ((65 <=? n) && (n <=? 90)) || ((97 <=? n) && (n <=? 122)) ||
      (n =? 170) || (n =? 181) || (n =? 186) ||
      ((192 <=? n) && (n <=? 214)) || ((216 <=? n) && (n <=? 246)) ||
      ((248 <=? n) && (n <=? 255))
  | CapitalSigma | FinalSigma | SmallSigma => true
  end.

(** The Unicode property Case_Ignorable on the repertoire: apostrophe,
    full stop, colon, circumflex, grave, diaeresis, soft hyphen, macron,
    acute, middle dot and cedilla. *)
Definition case_ignorable (u : code_unit) : bool :=
  match u with
  | Latin1 c =>
      let n := nat_of_ascii c in
      (n =? 39) || (n =? 46) || (n =? 58) || (n =? 94) || (n =? 96) ||
      (n =? 168) || (n =? 173) || (n =? 175) || (n =? 180) || (n =? 183) ||
      (n =? 184)
  | CapitalSigma | FinalSigma | SmallSigma => false
  end.

(** After the characters that are Case_Ignorable comes one that is
    Cased. *)
Fixpoint reaches_cased (s : text) : bool :=
  match s with
  | [] => false
  | u :: rest => if case_ignorable u then reaches_cased rest else cased u
  end.

(** The condition Final_Sigma of the Unicode case mappings, for a capital
    sigma with [before] in front of it, nearest code unit first, and
    [after] behind it: a cased letter comes before it and none after it,
    case-ignorable characters in between not counting. *)
Definition final_sigma (before after : text) : bool :=
  reaches_cased before && negb (reaches_cased after).

(** The lower-case form of a code unit that stands alone. *)
Definition lower_unit (u : code_unit) : code_unit :=
  match u with
  | Latin1 c => Latin1 (lower_char c)
  | CapitalSigma => SmallSigma
  | FinalSigma => FinalSigma
  | SmallSigma => SmallSigma
  end.

(** The lower-case form of [s] when [before] stands in front of it,
    nearest code unit first. *)
Fixpoint lower_from (before s : text) : text :=
  match s with
  | [] => []
  | u :: rest =>
      (if bool_decide (u = CapitalSigma) && final_sigma before rest
       then FinalSigma else lower_unit u)
      :: lower_from (u :: before) rest
  end.

(** [s.toLowerCase()] *)
Definition toLowerCase (s : text) : text := lower_from [] s.

(** [needle] stands at the start of [s]. *)
Fixpoint starts_with (s needle : text) : bool :=
  match needle with
  | [] => true
  | n :: needle' =>
      match s with
      | [] => false
      | c :: s' => bool_decide (c = n) && starts_with s' needle'
      end
  end.

(** [s.includes(needle)]: [needle] occurs in [s] at some offset. *)
Fixpoint includes (s needle : text) : bool :=
  starts_with s needle ||
  match s with
  | [] => false
  | _ :: s' => includes s' needle
  end.

(** [!s] for a string: only the empty string is falsy. *)
Definition not_string (s : string) : bool := bool_decide (s = "").

(** [arr.includes(x)] on an array of strings (strict equality). *)
Definition array_includes (arr : list string) (x : string) : bool :=
  bool_decide (x ∈ arr).

(** White space removed by [String.prototype.trim], on the modelled
    range: TAB, LF, VT, FF, CR, SPACE and NO-BREAK SPACE. *)
Definition is_space (c : ascii) : bool :=
  let n := nat_of_ascii c in
  ((9 <=? n) && (n <=? 13)) || (n =? 32) || (n =? 160).

Fixpoint trimStart (s : string) : string :=
  match s with
  | EmptyString => EmptyString
  | String c s' => if is_space c then trimStart s' else s
  end.

(** Drops trailing white space: a character is kept when it is not white
    space or when something is kept after it. *)
Fixpoint trimEnd (s : string) : string :=
  match s with
  | EmptyString => EmptyString
  | String c s' =>
      match trimEnd s' with
      | EmptyString => if is_space c then EmptyString else String c EmptyString
      | rest => String c rest
      end
  end.

Definition trim (s : string) : string := trimEnd (trimStart s).

(** [s.split(sep)] for a one-character separator; the result is never
    empty ([''.split(',')] is [['']]). *)
Fixpoint split (sep : ascii) (s : string) : list string :=
  match s with
  | EmptyString => [EmptyString]
  | String c s' =>
      if decide (c = sep) then EmptyString :: split sep s'
      else match split sep s' with
           | [] => [String c EmptyString]
           | w :: ws => String c w :: ws
           end
  end.

End Js.

(* ===================================================================== *)
(** * Records of [src/lib/supabase.ts] *)
(* ===================================================================== *)

(** Row identifiers are uuids in their text form. *)
Definition uuid := string.

(** A [timestamptz] instant, in microseconds since the epoch.  The ISO
    strings the client exchanges denote such instants. *)
Definition timestamp := Z.

Module Blog.
Record t := mk {
  id : uuid;
  title : Js.text;
  content : string;
  snippet : Js.text;
  image : string;
  tags : list string;
  author : string;
  featured : bool;
  created_at : timestamp;
  updated_at : timestamp
}.

(** [Omit<Blog, 'id' | 'created_at' | 'updated_at'>] *)
Record input := mk_input {
  i_title : Js.text;
  i_content : string;
  i_snippet : Js.text;
  i_image : string;
  i_tags : list string;
  i_author : string;
  i_featured : bool
}.

(** [Partial<Blog>]: every key may be absent. *)
Record partial := mk_partial {
  p_id : option uuid;
  p_title : option Js.text;
  p_content : option string;
  p_snippet : option Js.text;
  p_image : option string;
  p_tags : option (list string);
  p_author : option string;
  p_featured : option bool;
  p_created_at : option timestamp;
  p_updated_at : option timestamp
}.

(** An [input] seen as a [partial] (object subtyping). *)
Definition partial_of_input (b : input) : partial :=
  {| p_id := None;
     p_title := Some (i_title b);
     p_content := Some (i_content b);
     p_snippet := Some (i_snippet b);
     p_image := Some (i_image b);
     p_tags := Some (i_tags b);
     p_author := Some (i_author b);
     p_featured := Some (i_featured b);
     p_created_at := None;
     p_updated_at := None |}.

(** [{ ...p, updated_at: ts }] *)
Definition with_updated_at (p : partial) (ts : timestamp) : partial :=
  {| p_id := p_id p;
     p_title := p_title p;
     p_content := p_content p;
     p_snippet := p_snippet p;
     p_image := p_image p;
     p_tags := p_tags p;
     p_author := p_author p;
     p_featured := p_featured p;
     p_created_at := p_created_at p;
     p_updated_at := Some ts |}.

#[global] Instance eq_dec : EqDecision t.
Proof. solve_decision. Defined.
End Blog.

Inductive Category := Beginner | Intermediate | Advanced.

#[global] Instance Category_eq_dec : EqDecision Category.
Proof. solve_decision. Defined.

Module Course.
Record t := mk {
  id : uuid;
  title : string;
  description : string;
  content : string;
  image : string;
  duration : string;
  category : Category;
  video_url : option string;
  materials : option (list string);
  featured : bool;
  created_at : timestamp;
  updated_at : timestamp
}.

(** [Omit<Course, 'id' | 'created_at' | 'updated_at'>] *)
Record input := mk_input {
  i_title : string;
  i_description : string;
  i_content : string;
  i_image : string;
  i_duration : string;
  i_category : Category;
  i_video_url : option string;
  i_materials : option (list string);
  i_featured : bool
}.

(** [Partial<Course>] *)
Record partial := mk_partial {
  p_id : option uuid;
  p_title : option string;
  p_description : option string;
  p_content : option string;
  p_image : option string;
  p_duration : option string;
  p_category : option Category;
  p_video_url : option string;
  p_materials : option (list string);
  p_featured : option bool;
  p_created_at : option timestamp;
  p_updated_at : option timestamp
}.

(** [{ ...p, updated_at: ts }] *)
Definition with_updated_at (p : partial) (ts : timestamp) : partial :=
  {| p_id := p_id p;
     p_title := p_title p;
     p_description := p_description p;
     p_content := p_content p;
     p_image := p_image p;
     p_duration := p_duration p;
     p_category := p_category p;
     p_video_url := p_video_url p;
     p_materials := p_materials p;
     p_featured := p_featured p;
     p_created_at := p_created_at p;
     p_updated_at := Some ts |}.

#[global] Instance eq_dec : EqDecision t.
Proof. solve_decision. Defined.
End Course.


(* ===================================================================== *)
(** * SQL expressions and errors *)
(* ===================================================================== *)

Module Sql.

(** Truth values of SQL's three-valued logic. *)
Inductive tri := TTrue | TFalse | TUnknown.

Definition of_bool (b : bool) : tri := if b then TTrue else TFalse.

Definition and (a b : tri) : tri :=
  match a, b with
  | TFalse, _ | _, TFalse => TFalse
  | TTrue, TTrue => TTrue
  | _, _ => TUnknown
  end.

Definition or (a b : tri) : tri :=
  match a, b with
  | TTrue, _ | _, TTrue => TTrue
  | TFalse, TFalse => TFalse
  | _, _ => TUnknown
  end.

(** Comparisons with NULL are unknown. *)
Definition ge (a b : option Z) : tri :=
  match a, b with
  | Some x, Some y => of_bool (bool_decide (y ≤ x)%Z)
  | _, _ => TUnknown
  end.

Definition le (a b : option Z) : tri := ge b a.

Definition eq `{EqDecision A} (a b : option A) : tri :=
  match a, b with
  | Some x, Some y => of_bool (bool_decide (x = y))
  | _, _ => TUnknown
  end.

(** [IS NULL] and [IS NOT NULL] are never unknown. *)
Definition is_null {A} (a : option A) : tri :=
  match a with None => TTrue | Some _ => TFalse end.

Definition is_not_null {A} (a : option A) : tri :=
  match a with None => TFalse | Some _ => TTrue end.

(** A CHECK constraint rejects a row only when its expression is FALSE. *)
Definition check_passes (t : tri) : bool :=
  match t with TFalse => false | _ => true end.

(** A WHERE, USING or WITH CHECK expression selects a row only when TRUE. *)
Definition holds (t : tri) : bool :=
  match t with TTrue => true | _ => false end.

(** Range of the [integer] type. *)
Definition int4_ok (z : Z) : bool :=
  bool_decide (-2147483648 ≤ z)%Z && bool_decide (z ≤ 2147483647)%Z.

(** A column in the column list of INSERT or in the SET list of UPDATE:
    [None] when the column is not mentioned, [Some v] when it is given the
    value [v], where [v = None] is an explicit NULL. *)
Definition col (A : Type) := option (option A).

(** Value stored for a column: the given one, else [fallback] (the column
    DEFAULT on INSERT, the previous value on UPDATE). *)
Definition assign {A} (c : col A) (fallback : option A) : option A :=
  match c with Some v => v | None => fallback end.

End Sql.

(** What a request can fail with.  The codes are those of PostgreSQL and
    PostgREST; [Failure] stands for everything that happens outside the
    modelled tables (transport, session expiry, a constraint of a table
    that is not modelled). *)
Inductive Error :=
| NumericOutOfRange      (* 22003 *)
| NotNullViolation       (* 23502 *)
| ForeignKeyViolation    (* 23503 *)
| UniqueViolation        (* 23505 *)
| CheckViolation         (* 23514 *)
| RlsViolation           (* 42501 *)
| NoRows                 (* PGRST116: [.single()] did not get exactly one row *)
| Failure (message : string).

#[global] Instance Error_eq_dec : EqDecision Error.
Proof. solve_decision. Defined.

(** The [{ data, error }] pair of the client library: exactly one of the two
    is set. *)
Inductive result (A : Type) :=
| Ok (data : A)
| Err (error : Error).
Arguments Ok {A} data.
Arguments Err {A} error.

Definition is_err {A} (r : result A) : bool :=
  match r with Ok _ => false | Err _ => true end.

(** [require b e]: the error [e] unless [b] holds. *)
Definition require (b : bool) (e : Error) : option Error :=
  if b then None else Some e.

(** The first failed requirement, in the order the checks are made. *)
Fixpoint first_error (checks : list (option Error)) : option Error :=
  match checks with
  | [] => None
  | Some e :: _ => Some e
  | None :: rest => first_error rest
  end.

(** The database role a request runs as.  [ServiceRole] bypasses row-level
    security (migrations, the dashboard, the table owner). *)
Inductive Role :=
| Anon
| Authenticated (uid : uuid)
| ServiceRole.

(** [auth.uid()] *)
Definition auth_uid (r : Role) : option uuid :=
  match r with Authenticated uid => Some uid | _ => None end.

(** Everything one request reads from outside the modelled state. *)
Record Env := mkEnv {
  fault : option Error;       (* the request fails outside the modelled tables *)
  role : Role;                (* role of the session *)
  gen_random_uuid : uuid;     (* outcome of [gen_random_uuid()] *)
  now : timestamp;            (* outcome of [now()] on the server *)
  date_now : timestamp        (* instant of [new Date()] in the browser *)
}.

(* ===================================================================== *)
(** * Tables of [supabase/migrations] *)
(* ===================================================================== *)

Module Enrollment.
(** A row of [course_enrollments]. *)
Record t := mk {
  id : uuid;                         (* PRIMARY KEY DEFAULT gen_random_uuid() *)
  user_id : option uuid;             (* REFERENCES auth.users(id) ON DELETE CASCADE *)
  course_id : option uuid;           (* REFERENCES courses(id) ON DELETE CASCADE *)
  enrolled_at : option timestamp;    (* DEFAULT now() *)
  progress : option Z;               (* integer DEFAULT 0 CHECK (...) *)
  completed_at : option timestamp
}.

(** Column list of an INSERT or SET list of an UPDATE. *)
Record cols := mk_cols {
  c_id : Sql.col uuid;
  c_user_id : Sql.col uuid;
  c_course_id : Sql.col uuid;
  c_enrolled_at : Sql.col timestamp;
  c_progress : Sql.col Z;
  c_completed_at : Sql.col timestamp
}.

(** [CHECK (progress >= 0 AND progress <= 100)] *)
Definition check_progress (p : option Z) : Sql.tri :=
  Sql.and (Sql.ge p (Some 0%Z)) (Sql.le p (Some 100%Z)).

#[global] Instance eq_dec : EqDecision t.
Proof. solve_decision. Defined.
End Enrollment.

Module Comment.
(** A row of [comments]. *)
Record t := mk {
  id : uuid;                         (* PRIMARY KEY DEFAULT gen_random_uuid() *)
  user_id : option uuid;             (* REFERENCES auth.users(id) ON DELETE CASCADE *)
  blog_id : option uuid;             (* REFERENCES blogs(id) ON DELETE CASCADE *)
  course_id : option uuid;           (* REFERENCES courses(id) ON DELETE CASCADE *)
  content : string;                  (* NOT NULL *)
  parent_id : option uuid;           (* REFERENCES comments(id) ON DELETE CASCADE *)
  created_at : option timestamp;     (* DEFAULT now() *)
  updated_at : option timestamp      (* DEFAULT now() *)
}.

Record cols := mk_cols {
  c_id : Sql.col uuid;
  c_user_id : Sql.col uuid;
  c_blog_id : Sql.col uuid;
  c_course_id : Sql.col uuid;
  c_content : Sql.col string;
  c_parent_id : Sql.col uuid;
  c_created_at : Sql.col timestamp;
  c_updated_at : Sql.col timestamp
}.

(** [CHECK ((blog_id IS NOT NULL AND course_id IS NULL) OR
            (blog_id IS NULL AND course_id IS NOT NULL))] *)
Definition check_target (blog_id course_id : option uuid) : Sql.tri :=
  Sql.or (Sql.and (Sql.is_not_null blog_id) (Sql.is_null course_id))
         (Sql.and (Sql.is_null blog_id) (Sql.is_not_null course_id)).

#[global] Instance eq_dec : EqDecision t.
Proof. solve_decision. Defined.
End Comment.

(** The modelled part of the database.  [blogs] and [courses] rows are
    written only through the typed client, which never sends NULL, so they
    are kept in the client's record types. *)
Record Db := mkDb {
  users : list uuid;                          (* ids of auth.users *)
  blogs : list Blog.t;
  courses : list Course.t;
  course_enrollments : list Enrollment.t;
  comments : list Comment.t
}.

(** ** Keys and policies *)

(** A foreign key is satisfied by NULL or by a key that is present. *)
Definition references (key : option uuid) (ids : list uuid) : bool :=
  match key with
  | None => true
  | Some k => bool_decide (k ∈ ids)
  end.

(** The row points to one of the rows in [gone]. *)
Definition refers_to (key : option uuid) (gone : list uuid) : bool :=
  match key with
  | None => false
  | Some k => bool_decide (k ∈ gone)
  end.

(** PRIMARY KEY: no two rows share an id. *)
Definition unique_ids (ids : list uuid) : bool := bool_decide (NoDup ids).

(** [UNIQUE(user_id, course_id)]: rows with a NULL in either column never
    conflict. *)
Definition enrollment_key (e : Enrollment.t) : option (uuid * uuid) :=
  match Enrollment.user_id e, Enrollment.course_id e with
  | Some u, Some c => Some (u, c)
  | _, _ => None
  end.

Definition unique_enrollment_keys (tbl : list Enrollment.t) : bool :=
  bool_decide (NoDup (omap enrollment_key tbl)).

(** [auth.uid() = user_id] *)
Definition own (r : Role) (user_id : option uuid) : bool :=
  Sql.holds (Sql.eq (auth_uid r) user_id).

(** Policies of [blogs] and [courses] for INSERT, UPDATE and DELETE:
    [TO authenticated], expression [true]. *)
Definition content_writer (r : Role) : bool :=
  match r with Anon => false | _ => true end.

(** Policies of [course_enrollments]: INSERT and UPDATE on one's own rows;
    there is no DELETE policy. *)
Definition enrollment_writable (r : Role) (e : Enrollment.t) : bool :=
  match r with
  | ServiceRole => true
  | Authenticated _ => own r (Enrollment.user_id e)
  | Anon => false
  end.

Definition enrollment_deletable (r : Role) (e : Enrollment.t) : bool :=
  match r with ServiceRole => true | _ => false end.

(** Policies of [comments]: INSERT, UPDATE and DELETE on one's own rows. *)
Definition comment_writable (r : Role) (c : Comment.t) : bool :=
  match r with
  | ServiceRole => true
  | Authenticated _ => own r (Comment.user_id c)
  | Anon => false
  end.

Definition is_nil {A} (l : list A) : bool :=
  match l with [] => true | _ => false end.

(** An explicit NULL for a NOT NULL column. *)
Definition sets_null {A} (c : Sql.col A) : bool :=
  match c with Some None => true | _ => false end.

Definition int4_col (c : Sql.col Z) : bool :=
  match c with Some (Some z) => Sql.int4_ok z | _ => true end.

(** ** Statements on [course_enrollments] *)

Definition set_enrollments (tbl : list Enrollment.t) (db : Db) : Db :=
  {| users := users db; blogs := blogs db; courses := courses db;
     course_enrollments := tbl; comments := comments db |}.

(** The row an INSERT builds: omitted columns take their DEFAULT. *)
Definition new_enrollment (env : Env) (c : Enrollment.cols) : Enrollment.t :=
  {| Enrollment.id :=
       default EmptyString
         (Sql.assign (Enrollment.c_id c) (Some (gen_random_uuid env)));
     Enrollment.user_id := Sql.assign (Enrollment.c_user_id c) None;
     Enrollment.course_id := Sql.assign (Enrollment.c_course_id c) None;
     Enrollment.enrolled_at :=
       Sql.assign (Enrollment.c_enrolled_at c) (Some (now env));
     Enrollment.progress := Sql.assign (Enrollment.c_progress c) (Some 0%Z);
     Enrollment.completed_at := Sql.assign (Enrollment.c_completed_at c) None |}.

(** The row an UPDATE leaves: columns not in the SET list keep their value. *)
Definition set_enrollment (c : Enrollment.cols) (e : Enrollment.t) : Enrollment.t :=
  {| Enrollment.id :=
       default (Enrollment.id e)
         (Sql.assign (Enrollment.c_id c) (Some (Enrollment.id e)));
     Enrollment.user_id :=
       Sql.assign (Enrollment.c_user_id c) (Enrollment.user_id e);
     Enrollment.course_id :=
       Sql.assign (Enrollment.c_course_id c) (Enrollment.course_id e);
     Enrollment.enrolled_at :=
       Sql.assign (Enrollment.c_enrolled_at c) (Enrollment.enrolled_at e);
     Enrollment.progress :=
       Sql.assign (Enrollment.c_progress c) (Enrollment.progress e);
     Enrollment.completed_at :=
       Sql.assign (Enrollment.c_completed_at c) (Enrollment.completed_at e) |}.

(** Constraints a written row must meet, in the order they are enforced:
    the policy, then NOT NULL, then CHECK. *)
Definition enrollment_row_checks (r : Role) (c : Enrollment.cols)
    (row : Enrollment.t) : list (option Error) :=
  [ require (enrollment_writable r row) RlsViolation;
    require (negb (sets_null (Enrollment.c_id c))) NotNullViolation;
    require (Sql.check_passes (Enrollment.check_progress (Enrollment.progress row)))
            CheckViolation ].

Definition enrollment_fk_checks (db : Db) (row : Enrollment.t) : list (option Error) :=
  [ require (references (Enrollment.user_id row) (users db)) ForeignKeyViolation;
    require (references (Enrollment.course_id row) (Course.id <$> courses db))
            ForeignKeyViolation ].

(** [INSERT INTO course_enrollments (...) VALUES (...) RETURNING *] *)
Definition insert_enrollment (env : Env) (c : Enrollment.cols) (db : Db)
    : result Enrollment.t * Db :=
  let row := new_enrollment env c in
  let tbl := course_enrollments db ++ [row] in
  match first_error
          ([ fault env;
             require (int4_col (Enrollment.c_progress c)) NumericOutOfRange ]
           ++ enrollment_row_checks (role env) c row
           ++ [ require (unique_ids (Enrollment.id <$> tbl)) UniqueViolation;
                require (unique_enrollment_keys tbl) UniqueViolation ]
           ++ enrollment_fk_checks db row) with
  | Some e => (Err e, db)
  | None => (Ok row, set_enrollments tbl db)
  end.

(** [UPDATE course_enrollments SET ... WHERE ... RETURNING *]; the
    statement is atomic: one rejected row rejects it all. *)
Definition update_enrollments (env : Env) (where_ : Enrollment.t → bool)
    (c : Enrollment.cols) (db : Db) : result (list Enrollment.t) * Db :=
  let hit e := enrollment_writable (role env) e && where_ e in
  let tbl := (λ e, if hit e then set_enrollment c e else e) <$> course_enrollments db in
  let written := set_enrollment c <$> filter (λ e, hit e) (course_enrollments db) in
  match first_error
          ([ fault env;
             require (int4_col (Enrollment.c_progress c)) NumericOutOfRange ]
           ++ mjoin (enrollment_row_checks (role env) c <$> written)
           ++ [ require (unique_ids (Enrollment.id <$> tbl)) UniqueViolation;
                require (unique_enrollment_keys tbl) UniqueViolation ]
           ++ mjoin (enrollment_fk_checks db <$> written)) with
  | Some e => (Err e, db)
  | None => (Ok written, set_enrollments tbl db)
  end.

(** [DELETE FROM course_enrollments WHERE ... RETURNING *] *)
Definition delete_enrollments (env : Env) (where_ : Enrollment.t → bool) (db : Db)
    : result (list Enrollment.t) * Db :=
  let hit e := enrollment_deletable (role env) e && where_ e in
  match fault env with
  | Some e => (Err e, db)
  | None =>
      (Ok (filter (λ e, hit e) (course_enrollments db)),
       set_enrollments (filter (λ e, negb (hit e)) (course_enrollments db)) db)
  end.

(** ** Statements on [comments] *)

Definition set_comments (tbl : list Comment.t) (db : Db) : Db :=
  {| users := users db; blogs := blogs db; courses := courses db;
     course_enrollments := course_enrollments db; comments := tbl |}.

Definition new_comment (env : Env) (c : Comment.cols) : Comment.t :=
  {| Comment.id :=
       default EmptyString
         (Sql.assign (Comment.c_id c) (Some (gen_random_uuid env)));
     Comment.user_id := Sql.assign (Comment.c_user_id c) None;
     Comment.blog_id := Sql.assign (Comment.c_blog_id c) None;
     Comment.course_id := Sql.assign (Comment.c_course_id c) None;
     Comment.content := default EmptyString (Sql.assign (Comment.c_content c) None);
     Comment.parent_id := Sql.assign (Comment.c_parent_id c) None;
     Comment.created_at := Sql.assign (Comment.c_created_at c) (Some (now env));
     Comment.updated_at := Sql.assign (Comment.c_updated_at c) (Some (now env)) |}.

Definition set_comment (c : Comment.cols) (r : Comment.t) : Comment.t :=
  {| Comment.id :=
       default (Comment.id r) (Sql.assign (Comment.c_id c) (Some (Comment.id r)));
     Comment.user_id := Sql.assign (Comment.c_user_id c) (Comment.user_id r);
     Comment.blog_id := Sql.assign (Comment.c_blog_id c) (Comment.blog_id r);
     Comment.course_id := Sql.assign (Comment.c_course_id c) (Comment.course_id r);
     Comment.content :=
       default (Comment.content r)
         (Sql.assign (Comment.c_content c) (Some (Comment.content r)));
     Comment.parent_id := Sql.assign (Comment.c_parent_id c) (Comment.parent_id r);
     Comment.created_at := Sql.assign (Comment.c_created_at c) (Comment.created_at r);
     Comment.updated_at := Sql.assign (Comment.c_updated_at c) (Comment.updated_at r) |}.

(** [not_null] tells whether the NOT NULL columns ([id], [content]) end up
    with a value. *)
Definition comment_row_checks (r : Role) (not_null : bool) (row : Comment.t)
    : list (option Error) :=
  [ require (comment_writable r row) RlsViolation;
    require not_null NotNullViolation;
    require (Sql.check_passes
               (Comment.check_target (Comment.blog_id row) (Comment.course_id row)))
            CheckViolation ].

(** Foreign keys of a written row; the self-reference [parent_id] is looked
    up in [tbl], the table the statement leaves. *)
Definition comment_fk_checks (db : Db) (tbl : list Comment.t) (row : Comment.t)
    : list (option Error) :=
  [ require (references (Comment.user_id row) (users db)) ForeignKeyViolation;
    require (references (Comment.blog_id row) (Blog.id <$> blogs db))
            ForeignKeyViolation;
    require (references (Comment.course_id row) (Course.id <$> courses db))
            ForeignKeyViolation;
    require (references (Comment.parent_id row) (Comment.id <$> tbl))
            ForeignKeyViolation ].

(** Keys of [old] that an UPDATE of the key column made disappear.  The
    foreign keys are ON UPDATE NO ACTION: a row still pointing to one of
    them rejects the statement. *)
Definition vanished (old new : list uuid) : list uuid :=
  filter (λ i, i ∉ new) old.

(** [INSERT INTO comments (...) VALUES (...) RETURNING *] *)
Definition insert_comment (env : Env) (c : Comment.cols) (db : Db)
    : result Comment.t * Db :=
  let row := new_comment env c in
  let tbl := comments db ++ [row] in
  let not_null :=
    negb (sets_null (Comment.c_id c)) &&
    bool_decide (is_Some (Sql.assign (Comment.c_content c) None)) in
  match first_error
          ([ fault env ]
           ++ comment_row_checks (role env) not_null row
           ++ [ require (unique_ids (Comment.id <$> tbl)) UniqueViolation ]
           ++ comment_fk_checks db tbl row) with
  | Some e => (Err e, db)
  | None => (Ok row, set_comments tbl db)
  end.

(** [UPDATE comments SET ... WHERE ... RETURNING *] *)
Definition update_comments (env : Env) (where_ : Comment.t → bool)
    (c : Comment.cols) (db : Db) : result (list Comment.t) * Db :=
  let hit r := comment_writable (role env) r && where_ r in
  let tbl := (λ r, if hit r then set_comment c r else r) <$> comments db in
  let written := set_comment c <$> filter (λ r, hit r) (comments db) in
  let not_null :=
    negb (sets_null (Comment.c_id c)) && negb (sets_null (Comment.c_content c)) in
  let gone := vanished (Comment.id <$> comments db) (Comment.id <$> tbl) in
  match first_error
          ([ fault env ]
           ++ mjoin (comment_row_checks (role env) not_null <$> written)
           ++ [ require (unique_ids (Comment.id <$> tbl)) UniqueViolation ]
           ++ mjoin (comment_fk_checks db tbl <$> written)
           ++ [ require (forallb (λ r, negb (refers_to (Comment.parent_id r) gone)) tbl)
                        ForeignKeyViolation ]) with
  | Some e => (Err e, db)
  | None => (Ok written, set_comments tbl db)
  end.

(** [ON DELETE CASCADE] along [parent_id]: the replies to the rows in
    [gone] go, then the replies to those, and so on.  Every round that
    removes nothing ends the cascade, so [length tbl] rounds are enough. *)
Fixpoint cascade_replies (rounds : nat) (gone : list uuid) (tbl : list Comment.t)
    : list Comment.t :=
  match rounds with
  | 0 => tbl
  | S n =>
      let dead := filter (λ c, refers_to (Comment.parent_id c) gone) tbl in
      cascade_replies n (Comment.id <$> dead)
        (filter (λ c, negb (refers_to (Comment.parent_id c) gone)) tbl)
  end.

(** Removes the rows [hit] selects together with all their replies. *)
Definition remove_comments (hit : Comment.t → bool) (tbl : list Comment.t)
    : list Comment.t :=
  let rest := filter (λ c, negb (hit c)) tbl in
  cascade_replies (length rest) (Comment.id <$> filter (λ c, hit c) tbl) rest.

(** [DELETE FROM comments WHERE ... RETURNING *] *)
Definition delete_comments (env : Env) (where_ : Comment.t → bool) (db : Db)
    : result (list Comment.t) * Db :=
  let hit r := comment_writable (role env) r && where_ r in
  match fault env with
  | Some e => (Err e, db)
  | None =>
      (Ok (filter (λ r, hit r) (comments db)),
       set_comments (remove_comments hit (comments db)) db)
  end.

(** ** PostgREST calls on [blogs] and [courses] *)

Definition new_blog (env : Env) (b : Blog.input) : Blog.t :=
  {| Blog.id := gen_random_uuid env;
     Blog.title := Blog.i_title b;
     Blog.content := Blog.i_content b;
     Blog.snippet := Blog.i_snippet b;
     Blog.image := Blog.i_image b;
     Blog.tags := Blog.i_tags b;
     Blog.author := Blog.i_author b;
     Blog.featured := Blog.i_featured b;
     Blog.created_at := now env;
     Blog.updated_at := now env |}.

(** The row after [UPDATE blogs SET <keys of p>]. *)
Definition set_blog (p : Blog.partial) (b : Blog.t) : Blog.t :=
  {| Blog.id := default (Blog.id b) (Blog.p_id p);
     Blog.title := default (Blog.title b) (Blog.p_title p);
     Blog.content := default (Blog.content b) (Blog.p_content p);
     Blog.snippet := default (Blog.snippet b) (Blog.p_snippet p);
     Blog.image := default (Blog.image b) (Blog.p_image p);
     Blog.tags := default (Blog.tags b) (Blog.p_tags p);
     Blog.author := default (Blog.author b) (Blog.p_author p);
     Blog.featured := default (Blog.featured b) (Blog.p_featured p);
     Blog.created_at := default (Blog.created_at b) (Blog.p_created_at p);
     Blog.updated_at := default (Blog.updated_at b) (Blog.p_updated_at p) |}.

(** The row of an insert into [courses].  A key the payload leaves out
    takes the default of its column: [materials text[] DEFAULT '{}'] gives
    the empty array, [video_url text] has no default and stays NULL. *)
Definition new_course (env : Env) (c : Course.input) : Course.t :=
  {| Course.id := gen_random_uuid env;
     Course.title := Course.i_title c;
     Course.description := Course.i_description c;
     Course.content := Course.i_content c;
     Course.image := Course.i_image c;
     Course.duration := Course.i_duration c;
     Course.category := Course.i_category c;
     Course.video_url := Course.i_video_url c;
     Course.materials := Some (default [] (Course.i_materials c));
     Course.featured := Course.i_featured c;
     Course.created_at := now env;
     Course.updated_at := now env |}.

Definition set_course (p : Course.partial) (c : Course.t) : Course.t :=
  {| Course.id := default (Course.id c) (Course.p_id p);
     Course.title := default (Course.title c) (Course.p_title p);
     Course.description := default (Course.description c) (Course.p_description p);
     Course.content := default (Course.content c) (Course.p_content p);
     Course.image := default (Course.image c) (Course.p_image p);
     Course.duration := default (Course.duration c) (Course.p_duration p);
     Course.category := default (Course.category c) (Course.p_category p);
     Course.video_url :=
       match Course.p_video_url p with Some v => Some v | None => Course.video_url c end;
     Course.materials :=
       match Course.p_materials p with Some m => Some m | None => Course.materials c end;
     Course.featured := default (Course.featured c) (Course.p_featured p);
     Course.created_at := default (Course.created_at c) (Course.p_created_at p);
     Course.updated_at := default (Course.updated_at c) (Course.p_updated_at p) |}.

Definition set_blogs (tbl : list Blog.t) (cs : list Comment.t) (db : Db) : Db :=
  {| users := users db; blogs := tbl; courses := courses db;
     course_enrollments := course_enrollments db; comments := cs |}.

Definition set_courses (tbl : list Course.t) (es : list Enrollment.t)
    (cs : list Comment.t) (db : Db) : Db :=
  {| users := users db; blogs := blogs db; courses := tbl;
     course_enrollments := es; comments := cs |}.

(** [supabase.from('blogs').insert([blog]).select().single()]: the columns
    [id], [created_at] and [updated_at] are not in the payload and take
    their DEFAULT. *)
Definition blogs_insert (env : Env) (b : Blog.input) (db : Db) : result Blog.t * Db :=
  let row := new_blog env b in
  let tbl := blogs db ++ [row] in
  match first_error
          [ fault env;
            require (content_writer (role env)) RlsViolation;
            require (unique_ids (Blog.id <$> tbl)) UniqueViolation ] with
  | Some e => (Err e, db)
  | None => (Ok row, set_blogs tbl (comments db) db)
  end.

(** [supabase.from('blogs').update(p).eq('id', id).select().single()];
    [.single()] fails, and the change is rolled back, unless exactly one
    row comes back. *)
Definition blogs_update (env : Env) (id : uuid) (p : Blog.partial) (db : Db)
    : result Blog.t * Db :=
  let hit b := content_writer (role env) && bool_decide (Blog.id b = id) in
  let tbl := (λ b, if hit b then set_blog p b else b) <$> blogs db in
  let written := set_blog p <$> filter (λ b, hit b) (blogs db) in
  let gone := vanished (Blog.id <$> blogs db) (Blog.id <$> tbl) in
  match first_error
          [ fault env;
            require (unique_ids (Blog.id <$> tbl)) UniqueViolation;
            require (forallb (λ c, negb (refers_to (Comment.blog_id c) gone))
                             (comments db))
                    ForeignKeyViolation ] with
  | Some e => (Err e, db)
  | None =>
      match written with
      | [row] => (Ok row, set_blogs tbl (comments db) db)
      | _ => (Err NoRows, db)
      end
  end.

(** [supabase.from('blogs').delete().eq('id', id)]; the comments on a
    deleted blog go with it. *)
Definition blogs_delete (env : Env) (id : uuid) (db : Db) : result unit * Db :=
  let hit b := content_writer (role env) && bool_decide (Blog.id b = id) in
  match fault env with
  | Some e => (Err e, db)
  | None =>
      let gone := Blog.id <$> filter (λ b, hit b) (blogs db) in
      (Ok (),
       set_blogs (filter (λ b, negb (hit b)) (blogs db))
         (remove_comments (λ c, refers_to (Comment.blog_id c) gone) (comments db))
         db)
  end.

(** [supabase.from('courses').insert([course]).select().single()] *)
Definition courses_insert (env : Env) (c : Course.input) (db : Db)
    : result Course.t * Db :=
  let row := new_course env c in
  let tbl := courses db ++ [row] in
  match first_error
          [ fault env;
            require (content_writer (role env)) RlsViolation;
            require (unique_ids (Course.id <$> tbl)) UniqueViolation ] with
  | Some e => (Err e, db)
  | None => (Ok row, set_courses tbl (course_enrollments db) (comments db) db)
  end.

(** [supabase.from('courses').update(p).eq('id', id).select().single()] *)
Definition courses_update (env : Env) (id : uuid) (p : Course.partial) (db : Db)
    : result Course.t * Db :=
  let hit c := content_writer (role env) && bool_decide (Course.id c = id) in
  let tbl := (λ c, if hit c then set_course p c else c) <$> courses db in
  let written := set_course p <$> filter (λ c, hit c) (courses db) in
  let gone := vanished (Course.id <$> courses db) (Course.id <$> tbl) in
  match first_error
          [ fault env;
            require (unique_ids (Course.id <$> tbl)) UniqueViolation;
            require (forallb (λ e, negb (refers_to (Enrollment.course_id e) gone))
                             (course_enrollments db))
                    ForeignKeyViolation;
            require (forallb (λ c, negb (refers_to (Comment.course_id c) gone))
                             (comments db))
                    ForeignKeyViolation ] with
  | Some e => (Err e, db)
  | None =>
      match written with
      | [row] => (Ok row, set_courses tbl (course_enrollments db) (comments db) db)
      | _ => (Err NoRows, db)
      end
  end.

(** [supabase.from('courses').delete().eq('id', id)]; enrollments in and
    comments on a deleted course go with it. *)
Definition courses_delete (env : Env) (id : uuid) (db : Db) : result unit * Db :=
  let hit c := content_writer (role env) && bool_decide (Course.id c = id) in
  match fault env with
  | Some e => (Err e, db)
  | None =>
      let gone := Course.id <$> filter (λ c, hit c) (courses db) in
      (Ok (),
       set_courses (filter (λ c, negb (hit c)) (courses db))
         (filter (λ e, negb (refers_to (Enrollment.course_id e) gone))
                 (course_enrollments db))
         (remove_comments (λ c, refers_to (Comment.course_id c) gone) (comments db))
         db)
  end.

(** ** Accounts

    [auth.users] belongs to the authentication service; what matters here
    is that its ids are the targets of the [user_id] foreign keys and that
    deleting an account cascades. *)

Definition create_user (env : Env) (uid : uuid) (db : Db) : result unit * Db :=
  match first_error
          [ fault env;
            require (bool_decide (uid ∉ users db)) UniqueViolation ] with
  | Some e => (Err e, db)
  | None =>
      (Ok (),
       {| users := users db ++ [uid]; blogs := blogs db; courses := courses db;
          course_enrollments := course_enrollments db; comments := comments db |})
  end.

Definition delete_user (env : Env) (uid : uuid) (db : Db) : result unit * Db :=
  match fault env with
  | Some e => (Err e, db)
  | None =>
      (Ok (),
       {| users := filter (λ u, u ≠ uid) (users db);
          blogs := blogs db; courses := courses db;
          course_enrollments :=
            filter (λ e, negb (refers_to (Enrollment.user_id e) [uid]))
                   (course_enrollments db);
          comments :=
            remove_comments (λ c, refers_to (Comment.user_id c) [uid]) (comments db) |})
  end.

(** ** The database as a transition system *)

Inductive stmt :=
| InsertBlog (b : Blog.input)
| UpdateBlogById (id : uuid) (p : Blog.partial)
| DeleteBlogById (id : uuid)
| InsertCourse (c : Course.input)
| UpdateCourseById (id : uuid) (p : Course.partial)
| DeleteCourseById (id : uuid)
| InsertEnrollment (c : Enrollment.cols)
| UpdateEnrollments (where_ : Enrollment.t → bool) (c : Enrollment.cols)
| DeleteEnrollments (where_ : Enrollment.t → bool)
| InsertComment (c : Comment.cols)
| UpdateComments (where_ : Comment.t → bool) (c : Comment.cols)
| DeleteComments (where_ : Comment.t → bool)
| CreateUser (uid : uuid)
| DeleteUser (uid : uuid).

Definition status {A} (r : result A * Db) : option Error * Db :=
  (match r.1 with Ok _ => None | Err e => Some e end, r.2).

(** Outcome of one statement: the error, if any, and the database it leaves. *)
Definition exec (env : Env) (s : stmt) (db : Db) : option Error * Db :=
  match s with
  | InsertBlog b => status (blogs_insert env b db)
  | UpdateBlogById id p => status (blogs_update env id p db)
  | DeleteBlogById id => status (blogs_delete env id db)
  | InsertCourse c => status (courses_insert env c db)
  | UpdateCourseById id p => status (courses_update env id p db)
  | DeleteCourseById id => status (courses_delete env id db)
  | InsertEnrollment c => status (insert_enrollment env c db)
  | UpdateEnrollments w c => status (update_enrollments env w c db)
  | DeleteEnrollments w => status (delete_enrollments env w db)
  | InsertComment c => status (insert_comment env c db)
  | UpdateComments w c => status (update_comments env w c db)
  | DeleteComments w => status (delete_comments env w db)
  | CreateUser uid => status (create_user env uid db)
  | DeleteUser uid => status (delete_user env uid db)
  end.

(** The databases the application can be in: the migration creates
    [course_enrollments] and [comments] empty, and every later change is a
    statement. *)
Inductive reachable : Db → Prop :=
| reachable_migrated db :
    course_enrollments db = [] → comments db = [] → reachable db
| reachable_exec env s db :
    reachable db → reachable (exec env s db).2.

(* ===================================================================== *)
(** * The browser: state, effects and the context of [AppContext.tsx] *)
(* ===================================================================== *)

Module BlogForm.
(** [formData] of the blogs page: the tags are one comma-separated string. *)
Record t := mk {
  title : Js.text;
  content : string;
  snippet : Js.text;
  image : string;
  tags : string;
  author : string;
  featured : bool
}.

Definition empty : t := mk [] "" [] "" "" "" false.
End BlogForm.

(** Everything the handlers read and write: the state of [AppProvider], the
    state of the blogs page, what reached the console and the user, the
    requests that were sent, and the database behind them. *)
Record World := mkWorld {
  w_blogs : list Blog.t;                 (* useState<Blog[]> *)
  w_courses : list Course.t;             (* useState<Course[]> *)
  w_loading : bool;
  w_searchTerm : Js.text;
  w_selectedTag : string;
  w_showModal : bool;
  w_editingBlog : option Blog.t;
  w_formData : BlogForm.t;
  w_console : list (string * Error);     (* console.error(label, error) *)
  w_alerts : list string;                (* window.alert(message) *)
  w_requests : list stmt;                (* requests sent, oldest first *)
  w_db : Db
}.

(** How an [async] function ends: it returns or it throws. *)
Inductive outcome (A : Type) :=
| Return (a : A)
| Throw (e : Error).
Arguments Return {A} a.
Arguments Throw {A} e.

Definition M (A : Type) : Type := World → outcome A * World.

Definition ret {A} (a : A) : M A := λ w, (Return a, w).

Definition bind {A B} (m : M A) (k : A → M B) : M B :=
  λ w, match m w with
       | (Return a, w') => k a w'
       | (Throw e, w') => (Throw e, w')
       end.

Definition throw {A} (e : Error) : M A := λ w, (Throw e, w).

(** [try { body } catch (error) { handler }] *)
Definition try_catch {A} (body : M A) (handler : Error → M A) : M A :=
  λ w, match body w with
       | (Return a, w') => (Return a, w')
       | (Throw e, w') => handler e w'
       end.

#[global] Instance M_ret : MRet M := @ret.
#[global] Instance M_bind : MBind M := λ A B k m, bind m k.

Definition modify (f : World → World) : M unit := λ w, (Return (), f w).

Definition setBlogs (f : list Blog.t → list Blog.t) : M unit :=
  modify (λ w, mkWorld (f (w_blogs w)) (w_courses w) (w_loading w) (w_searchTerm w)
                 (w_selectedTag w) (w_showModal w) (w_editingBlog w) (w_formData w)
                 (w_console w) (w_alerts w) (w_requests w) (w_db w)).

Definition setCourses (f : list Course.t → list Course.t) : M unit :=
  modify (λ w, mkWorld (w_blogs w) (f (w_courses w)) (w_loading w) (w_searchTerm w)
                 (w_selectedTag w) (w_showModal w) (w_editingBlog w) (w_formData w)
                 (w_console w) (w_alerts w) (w_requests w) (w_db w)).

Definition setShowModal (b : bool) : M unit :=
  modify (λ w, mkWorld (w_blogs w) (w_courses w) (w_loading w) (w_searchTerm w)
                 (w_selectedTag w) b (w_editingBlog w) (w_formData w)
                 (w_console w) (w_alerts w) (w_requests w) (w_db w)).

Definition setEditingBlog (b : option Blog.t) : M unit :=
  modify (λ w, mkWorld (w_blogs w) (w_courses w) (w_loading w) (w_searchTerm w)
                 (w_selectedTag w) (w_showModal w) b (w_formData w)
                 (w_console w) (w_alerts w) (w_requests w) (w_db w)).

Definition setFormData (f : BlogForm.t) : M unit :=
  modify (λ w, mkWorld (w_blogs w) (w_courses w) (w_loading w) (w_searchTerm w)
                 (w_selectedTag w) (w_showModal w) (w_editingBlog w) f
                 (w_console w) (w_alerts w) (w_requests w) (w_db w)).

Definition console_error (label : string) (e : Error) : M unit :=
  modify (λ w, mkWorld (w_blogs w) (w_courses w) (w_loading w) (w_searchTerm w)
                 (w_selectedTag w) (w_showModal w) (w_editingBlog w) (w_formData w)
                 (w_console w ++ [(label, e)]) (w_alerts w) (w_requests w) (w_db w)).

Definition alert (message : string) : M unit :=
  modify (λ w, mkWorld (w_blogs w) (w_courses w) (w_loading w) (w_searchTerm w)
                 (w_selectedTag w) (w_showModal w) (w_editingBlog w) (w_formData w)
                 (w_console w) (w_alerts w ++ [message]) (w_requests w) (w_db w)).

(** [await supabase.from(...)...]: the request [s] is recorded as sent and
    [call] is run on the database; the promise resolves to its result. *)
Definition await {A} (s : stmt) (call : Db → result A * Db) : M (result A) :=
  λ w, let r := call (w_db w) in
       (Return r.1,
        mkWorld (w_blogs w) (w_courses w) (w_loading w) (w_searchTerm w)
          (w_selectedTag w) (w_showModal w) (w_editingBlog w) (w_formData w)
          (w_console w) (w_alerts w) (w_requests w ++ [s]) r.2).

Module Ctx.

Definition addBlog (env : Env) (blog : Blog.input) : M unit :=
  try_catch
    (r ← await (InsertBlog blog) (blogs_insert env blog);
     match r with
     | Err error => throw error
     | Ok data => setBlogs (λ prev, data :: prev)
     end)
    (λ error, console_error "Error adding blog:" error;; throw error).

Definition updateBlog (env : Env) (id : uuid) (updatedBlog : Blog.partial) : M unit :=
  try_catch
    (let payload := Blog.with_updated_at updatedBlog (date_now env) in
     r ← await (UpdateBlogById id payload) (blogs_update env id payload);
     match r with
     | Err error => throw error
     | Ok data =>
         setBlogs (λ prev, (λ blog, if decide (Blog.id blog = id) then data else blog) <$> prev)
     end)
    (λ error, console_error "Error updating blog:" error;; throw error).

Definition deleteBlog (env : Env) (id : uuid) : M unit :=
  try_catch
    (r ← await (DeleteBlogById id) (blogs_delete env id);
     match r with
     | Err error => throw error
     | Ok _ => setBlogs (λ prev, filter (λ blog, Blog.id blog ≠ id) prev)
     end)
    (λ error, console_error "Error deleting blog:" error;; throw error).

Definition addCourse (env : Env) (course : Course.input) : M unit :=
  try_catch
    (r ← await (InsertCourse course) (courses_insert env course);
     match r with
     | Err error => throw error
     | Ok data => setCourses (λ prev, data :: prev)
     end)
    (λ error, console_error "Error adding course:" error;; throw error).

Definition updateCourse (env : Env) (id : uuid) (updatedCourse : Course.partial)
    : M unit :=
  try_catch
    (let payload := Course.with_updated_at updatedCourse (date_now env) in
     r ← await (UpdateCourseById id payload) (courses_update env id payload);
     match r with
     | Err error => throw error
     | Ok data =>
         setCourses
           (λ prev, (λ course, if decide (Course.id course = id) then data else course) <$> prev)
     end)
    (λ error, console_error "Error updating course:" error;; throw error).

Definition deleteCourse (env : Env) (id : uuid) : M unit :=
  try_catch
    (r ← await (DeleteCourseById id) (courses_delete env id);
     match r with
     | Err error => throw error
     | Ok _ => setCourses (λ prev, filter (λ course, Course.id course ≠ id) prev)
     end)
    (λ error, console_error "Error deleting course:" error;; throw error).

(** The six data operations the context exports, as data. *)
Inductive op :=
| AddBlog (blog : Blog.input)
| UpdateBlog (id : uuid) (updatedBlog : Blog.partial)
| DeleteBlog (id : uuid)
| AddCourse (course : Course.input)
| UpdateCourse (id : uuid) (updatedCourse : Course.partial)
| DeleteCourse (id : uuid).

Definition run (env : Env) (o : op) : M unit :=
  match o with
  | AddBlog blog => addBlog env blog
  | UpdateBlog id updatedBlog => updateBlog env id updatedBlog
  | DeleteBlog id => deleteBlog env id
  | AddCourse course => addCourse env course
  | UpdateCourse id updatedCourse => updateCourse env id updatedCourse
  | DeleteCourse id => deleteCourse env id
  end.

(** The request an operation sends. *)
Definition request (env : Env) (o : op) : stmt :=
  match o with
  | AddBlog blog => InsertBlog blog
  | UpdateBlog id p => UpdateBlogById id (Blog.with_updated_at p (date_now env))
  | DeleteBlog id => DeleteBlogById id
  | AddCourse course => InsertCourse course
  | UpdateCourse id p => UpdateCourseById id (Course.with_updated_at p (date_now env))
  | DeleteCourse id => DeleteCourseById id
  end.

(** The [error] field of what the backend answers to an operation started
    in world [w]. *)
Definition backend_error (env : Env) (o : op) (w : World) : option Error :=
  (exec env (request env o) (w_db w)).1.

End Ctx.

(* ===================================================================== *)
(** * Element trees *)
(* ===================================================================== *)

Module Ui.

(** The event handlers that occur in the modelled components. *)
Inductive Action :=
| OpenAddBlog                  (* [() => setShowModal(true)] of the Add Blog button *)
| CloseModal
| CancelModal
| HandleSubmit
| HandleEdit
| HandleDelete
| SetSearchTerm
| SetSelectedTag
| SetField (name : string)
| CallOnEdit (course : Course.t)     (* [() => onEdit?.(course)] *)
| CallOnDelete (id : uuid)           (* [() => onDelete?.(course.id)] *)
| ToggleMenu
| CloseMenu
| HandleSignOut.

#[global] Instance Action_eq_dec : EqDecision Action.
Proof. solve_decision. Defined.

Inductive prop :=
| Str (s : string)
| Txt (t : Js.text)
| Flag (b : bool)
| Handler (a : Action)
| BlogProp (b : Blog.t).

(** What a component returns.  Class names and animation props are left
    out; tags, texts, the props that carry data or handlers, and the
    nesting are as in the JSX. *)
#[warnings="-register-all"]
Inductive vnode :=
| Nothing                                  (* [false] or [null] *)
| Text (s : string)
| Elem (tag : string) (props : list (string * prop)) (children : list vnode).

(** [cond && element] *)
Definition when (cond : bool) (element : vnode) : vnode :=
  if cond then element else Nothing.

(** Some node of the tree, the root included, satisfies [p]. *)
Fixpoint any (p : vnode → bool) (v : vnode) : bool :=
  p v ||
  match v with
  | Elem _ _ children => existsb (any p) children
  | _ => false
  end.

Definition has_text (s : string) (v : vnode) : bool :=
  any (λ n, match n with Text t => bool_decide (t = s) | _ => false end) v.

Definition has_tag (tag : string) (v : vnode) : bool :=
  any (λ n, match n with Elem t _ _ => bool_decide (t = tag) | _ => false end) v.

Definition is_handler (ok : Action → bool) (p : string * prop) : bool :=
  match p.2 with Handler a => ok a | _ => false end.

(** Some element of the tree carries a handler accepted by [ok]. *)
Definition has_handler (ok : Action → bool) (v : vnode) : bool :=
  any (λ n, match n with
            | Elem _ props _ => existsb (is_handler ok) props
            | _ => false
            end) v.

(** Some element of the tree with one of the [tags] has the text [label]
    inside it. *)
Definition has_labelled (tags : list string) (label : string) (v : vnode) : bool :=
  any (λ n, match n with
            | Elem tag _ children =>
                bool_decide (tag ∈ tags) && existsb (has_text label) children
            | _ => false
            end) v.

(** Some [Link] of the tree leads to [path]. *)
Definition has_link (path : string) (v : vnode) : bool :=
  any (λ n, match n with
            | Elem tag props _ =>
                bool_decide (tag = "Link") &&
                existsb (λ p, match p with
                              | (name, Str s) => bool_decide (name = "to") && bool_decide (s = path)
                              | _ => false
                              end) props
            | _ => false
            end) v.

End Ui.

(* ===================================================================== *)
(** * Authentication state *)
(* ===================================================================== *)

Module Auth.

(** A row of [user_profiles], as the components read it. *)
Record Profile := mkProfile {
  email : string;
  full_name : option string;
  avatar_url : option string;
  role : string
}.

(** What [useAuth()] holds: the signed-in user and the profile. *)
Record t := mk {
  user : option uuid;
  profile : option Profile
}.

(** Modelled from the spec: [components/Auth/AuthProvider.tsx], which
    computes the [isAdmin] flag handed out by [useAuth()], is not part of
    the sources at hand.  The spec describes it: the authorization check is
    a single role-string comparison, the role being the label
    (user/admin/instructor) of the profile.  Without a profile there is no
    role to compare. *)
Definition isAdmin (a : t) : bool :=
  match profile a with
  | Some p => bool_decide (role p = "admin")
  | None => false
  end.

End Auth.

(* ===================================================================== *)
(** * [components/CourseCard/CourseCard.tsx] *)
(* ===================================================================== *)

Module CourseCard.
Import Ui.

Definition category_name (c : Category) : string :=
  match c with
  | Beginner => "Beginner"
  | Intermediate => "Intermediate"
  | Advanced => "Advanced"
  end.

Definition render (auth : Auth.t) (course : Course.t) : vnode :=
  let isAdmin := Auth.isAdmin auth in
  Elem "motion.div" []
    [ Elem "div" []
        [ Elem "img" [("src", Str (Course.image course)); ("alt", Str (Course.title course))] [];
          when (Course.featured course) (Elem "div" [] [Text "Featured"]);
          Elem "div" [] [Text (category_name (Course.category course))];
          when isAdmin
            (Elem "div" []
               [ Elem "motion.button" [("onClick", Handler (CallOnEdit course))]
                   [Elem "Edit" [] []];
                 Elem "motion.button" [("onClick", Handler (CallOnDelete (Course.id course)))]
                   [Elem "Trash2" [] []] ]) ];
      Elem "div" []
        [ Elem "h3" [] [Text (Course.title course)];
          Elem "p" [] [Text (Course.description course)];
          Elem "div" []
            [ Elem "div" [] [Elem "Clock" [] []; Elem "span" [] [Text (Course.duration course)]];
              Elem "div" [] [Elem "Users" [] []; Elem "span" [] [Text "1,234 students"]];
              Elem "div" [] [Elem "Star" [] []; Elem "span" [] [Text "4.8"]] ];
          Elem "div" []
            [ Elem "Link" [("to", Str ("/course/" +:+ Course.id course))]
                [ Elem "motion.button" []
                    [Elem "Eye" [] []; Elem "span" [] [Text "View Course"]] ] ] ] ].

(** The edit and delete buttons: their handlers and their icons. *)
Definition is_admin_handler (a : Action) : bool :=
  match a with CallOnEdit _ | CallOnDelete _ => true | _ => false end.

Definition shows_admin_controls (v : vnode) : bool :=
  has_handler is_admin_handler v || has_tag "Edit" v || has_tag "Trash2" v.

End CourseCard.

(* ===================================================================== *)
(** * [components/Features/UserProfile.tsx] *)
(* ===================================================================== *)

Module UserProfile.
Import Ui.

(** [profile.full_name || 'User'] *)
Definition display_name (p : Auth.Profile) : string :=
  match Auth.full_name p with
  | Some n => if Js.not_string n then "User" else n
  | None => "User"
  end.

(** [profile.avatar_url ? <img .../> : <User/>] *)
Definition avatar (p : Auth.Profile) : vnode :=
  match Auth.avatar_url p with
  | Some url =>
      if Js.not_string url then Elem "User" [] []
      else Elem "img" [("src", Str url); ("alt", Str (display_name p))] []
  | None => Elem "User" [] []
  end.

Definition menu_link (to icon label : string) : vnode :=
  Elem "Link" [("to", Str to); ("onClick", Handler CloseMenu)]
    [Elem icon [] []; Elem "span" [] [Text label]].

Definition render (auth : Auth.t) (isOpen : bool) : vnode :=
  let isAdmin := Auth.isAdmin auth in
  match Auth.user auth, Auth.profile auth with
  | Some _, Some profile =>
      Elem "div" []
        [ Elem "motion.button" [("onClick", Handler ToggleMenu)]
            [ Elem "div" [] [avatar profile];
              Elem "span" [] [Text (display_name profile)];
              Elem "ChevronDown" [] [] ];
          Elem "AnimatePresence" []
            [ when isOpen
                (Elem "motion.div" []
                   [ Elem "div" []
                       [ Elem "div" []
                           [ Elem "div" [] [avatar profile];
                             Elem "div" []
                               [ Elem "h3" [] [Text (display_name profile)];
                                 Elem "p" [] [Text (Auth.email profile)];
                                 Elem "span" [] [Text (Auth.role profile)] ] ] ];
                     Elem "div" []
                       [ menu_link "/profile" "Settings" "Profile Settings";
                         menu_link "/my-courses" "GraduationCap" "My Courses";
                         menu_link "/bookmarks" "BookOpen" "Bookmarks";
                         when isAdmin (menu_link "/admin" "Settings" "Admin Panel");
                         Elem "hr" [] [];
                         Elem "button" [("onClick", Handler HandleSignOut)]
                           [Elem "LogOut" [] []; Elem "span" [] [Text "Sign Out"]] ] ]) ] ]
  | _, _ => Nothing
  end.

(** The Admin Panel entry: a link to [/admin], or a link captioned
    Admin Panel. *)
Definition shows_admin_link (v : vnode) : bool :=
  has_link "/admin" v || has_labelled ["Link"] "Admin Panel" v.

End UserProfile.

(* ===================================================================== *)
(** * [pages/Blogs.tsx] *)
(* ===================================================================== *)

Module BlogsPage.
Import Ui.

(** [Array.from(new Set(xs))]: first occurrences, in order. *)
Fixpoint unique_from (seen : list string) (xs : list string) : list string :=
  match xs with
  | [] => []
  | x :: rest =>
      if decide (x ∈ seen) then unique_from seen rest
      else x :: unique_from (x :: seen) rest
  end.

Definition allTags (blogs : list Blog.t) : list string :=
  unique_from [] (mjoin (Blog.tags <$> blogs)).

Definition matchesSearch (searchTerm : Js.text) (blog : Blog.t) : bool :=
  Js.includes (Js.toLowerCase (Blog.title blog)) (Js.toLowerCase searchTerm) ||
  Js.includes (Js.toLowerCase (Blog.snippet blog)) (Js.toLowerCase searchTerm).

Definition matchesTag (selectedTag : string) (blog : Blog.t) : bool :=
  Js.not_string selectedTag || Js.array_includes (Blog.tags blog) selectedTag.

Definition filteredBlogs (blogs : list Blog.t) (searchTerm : Js.text)
    (selectedTag : string) : list Blog.t :=
  filter (λ blog, matchesSearch searchTerm blog && matchesTag selectedTag blog) blogs.

(** [formData.tags.split(',').map(tag => tag.trim()).filter(tag => tag)] *)
Definition parse_tags (tags : string) : list string :=
  filter (λ tag, negb (Js.not_string tag)) (Js.trim <$> Js.split "," tags).

(** [{ ...formData, tags: ... }] *)
Definition blogData (formData : BlogForm.t) : Blog.input :=
  {| Blog.i_title := BlogForm.title formData;
     Blog.i_content := BlogForm.content formData;
     Blog.i_snippet := BlogForm.snippet formData;
     Blog.i_image := BlogForm.image formData;
     Blog.i_tags := parse_tags (BlogForm.tags formData);
     Blog.i_author := BlogForm.author formData;
     Blog.i_featured := BlogForm.featured formData |}.

Definition get {A} (f : World → A) : M A := λ w, (Return (f w), w).

Definition handleSubmit (env : Env) : M unit :=
  try_catch
    (formData ← get w_formData;
     editingBlog ← get w_editingBlog;
     match editingBlog with
     | Some editing =>
         Ctx.updateBlog env (Blog.id editing) (Blog.partial_of_input (blogData formData))
     | None => Ctx.addBlog env (blogData formData)
     end;;
     setFormData BlogForm.empty;;
     setShowModal false;;
     setEditingBlog None)
    (λ error,
       console_error "Error saving blog:" error;;
       alert "Error saving blog. Please try again.").

(** [tags.join(', ')] *)
Fixpoint join_tags (tags : list string) : string :=
  match tags with
  | [] => ""
  | [t] => t
  | t :: rest => t +:+ ", " +:+ join_tags rest
  end.

Definition handleEdit (blog : Blog.t) : M unit :=
  setEditingBlog (Some blog);;
  setFormData
    {| BlogForm.title := Blog.title blog;
       BlogForm.content := Blog.content blog;
       BlogForm.snippet := Blog.snippet blog;
       BlogForm.image := Blog.image blog;
       BlogForm.tags := join_tags (Blog.tags blog);
       BlogForm.author := Blog.author blog;
       BlogForm.featured := Blog.featured blog |};;
  setShowModal true.

(** [confirmed] is the answer to [window.confirm]. *)
Definition handleDelete (env : Env) (confirmed : bool) (id : uuid) : M unit :=
  if confirmed then
    try_catch
      (Ctx.deleteBlog env id)
      (λ error,
         console_error "Error deleting blog:" error;;
         alert "Error deleting blog. Please try again.")
  else ret ().

Definition text_input (kind name : string) (value : prop) : vnode :=
  Elem "input" [("type", Str kind); ("value", value);
                ("onChange", Handler (SetField name))] [].

Definition labelled (label : string) (control : vnode) : vnode :=
  Elem "div" [] [Elem "label" [] [Text label]; control].

Definition empty_state (no_blogs : bool) : vnode :=
  Elem "motion.div" []
    [ Elem "div" []
        [ Elem "div" []
            [ Elem "div" [] [Elem "BookOpen" [] []];
              Elem "div" [] [Elem "Sparkles" [] []] ];
          Elem "h3" [] [Text (if no_blogs then "Coming Soon!" else "No Results Found")];
          Elem "p" []
            [Text (if no_blogs
                   then "We're working hard to bring you amazing robotics content. Stay tuned for exciting blog posts about the latest in robotics technology!"
                   else "No blog posts match your search criteria. Try adjusting your filters or search terms.")];
          when no_blogs
            (Elem "div" []
               [Elem "p" []
                  [ Elem "strong" [] [Text "Coming up:"];
                    Text " Tutorials on robot programming, AI integration, sensor fusion, and much more!" ]]) ] ].

Definition card (blog : Blog.t) : vnode :=
  Elem "motion.div" [("key", Str (Blog.id blog))]
    [ Elem "BlogCard" [("blog", BlogProp blog); ("onEdit", Handler HandleEdit);
                       ("onDelete", Handler HandleDelete)] [] ].

Definition modal (editing : bool) (formData : BlogForm.t) : vnode :=
  Elem "div" []
    [ Elem "motion.div" []
        [ Elem "div" []
            [ Elem "h3" [] [Text (if editing then "Edit Blog Post" else "Add New Blog Post")];
              Elem "button" [("onClick", Handler CloseModal)] [Elem "X" [] []] ];
          Elem "form" [("onSubmit", Handler HandleSubmit)]
            [ Elem "div" []
                [ labelled "Title"
                    (text_input "text" "title" (Txt (BlogForm.title formData)));
                  labelled "Author"
                    (text_input "text" "author" (Str (BlogForm.author formData))) ];
              labelled "Snippet"
                (text_input "text" "snippet" (Txt (BlogForm.snippet formData)));
              labelled "Content"
                (Elem "RichTextEditor"
                   [("value", Str (BlogForm.content formData));
                    ("onChange", Handler (SetField "content"))] []);
              Elem "div" []
                [ labelled "Image URL"
                    (text_input "url" "image" (Str (BlogForm.image formData)));
                  labelled "Tags (comma-separated)"
                    (text_input "text" "tags" (Str (BlogForm.tags formData))) ];
              Elem "div" []
                [ Elem "input" [("type", Str "checkbox");
                                ("checked", Flag (BlogForm.featured formData));
                                ("onChange", Handler (SetField "featured"))] [];
                  Elem "label" [] [Text "Featured Post"] ];
              Elem "div" []
                [ Elem "motion.button" [("type", Str "submit")]
                    [Text (if editing then "Update" else "Create"); Text " Blog Post"];
                  Elem "button" [("type", Str "button"); ("onClick", Handler CancelModal)]
                    [Text "Cancel"] ] ] ] ].

Definition render (auth : Auth.t) (w : World) : vnode :=
  let isAdmin := Auth.isAdmin auth in
  let blogs := w_blogs w in
  let shown := filteredBlogs blogs (w_searchTerm w) (w_selectedTag w) in
  if w_loading w then Elem "div" [] [Elem "div" [] []]
  else
    Elem "div" []
      [ Elem "div" []
          [ Elem "motion.div" []
              [ Elem "h1" [] [Text "Robotics Blog"];
                Elem "p" []
                  [Text "Explore the latest insights, tutorials, and trends in robotics technology"] ];
            Elem "div" []
              [ Elem "div" []
                  [ Elem "Search" [] [];
                    Elem "input" [("type", Str "text");
                                  ("placeholder", Str "Search blog posts...");
                                  ("value", Txt (w_searchTerm w));
                                  ("onChange", Handler SetSearchTerm)] [] ];
                Elem "div" []
                  [ Elem "Filter" [] [];
                    Elem "select" [("value", Str (w_selectedTag w));
                                   ("onChange", Handler SetSelectedTag)]
                      (Elem "option" [("value", Str "")] [Text "All Tags"]
                       :: ((λ tag, Elem "option" [("key", Str tag); ("value", Str tag)] [Text tag])
                             <$> allTags blogs)) ];
                when isAdmin
                  (Elem "motion.button" [("onClick", Handler OpenAddBlog)]
                     [Elem "Plus" [] []; Elem "span" [] [Text "Add Blog"]]) ];
            (if is_nil shown
             then empty_state (is_nil blogs)
             else Elem "div" [] (card <$> shown));
            when (w_showModal w)
              (modal (bool_decide (is_Some (w_editingBlog w))) (w_formData w)) ] ].

(** The Add Blog button: an element with its handler, or a button
    captioned Add Blog. *)
Definition shows_add_blog (v : vnode) : bool :=
  has_handler (λ a, bool_decide (a = OpenAddBlog)) v ||
  has_labelled ["motion.button"; "button"] "Add Blog" v.

End BlogsPage.

(* ===================================================================== *)
(** * The courses page *)
(* ===================================================================== *)

Module CoursesPage.

Section CallSite.

(** The texts of the page: what it logs and what it tells the user. *)
Variables (label message : string).

(** Modelled from the spec: [pages/Courses.tsx], the call site of the
    course operations of the context, is not part of the sources at hand.
    The spec's section on error handling describes every call site: errors
    from the backend client are caught there, logged, and surfaced as a
    generic user-facing message (an alert or inline banner), with no retry.
    [guarded] is that call site, with an alert as on the blogs page; the
    texts are whatever the page uses. *)
Definition guarded (operation : M unit) : M unit :=
  try_catch operation (λ error, console_error label error;; alert message).

(** Modelled from the spec: the call site of [addCourse]. *)
Definition handleAdd (env : Env) (course : Course.input) : M unit :=
  guarded (Ctx.addCourse env course).

(** Modelled from the spec: the call site of [updateCourse]. *)
Definition handleUpdate (env : Env) (id : uuid) (course : Course.partial) : M unit :=
  guarded (Ctx.updateCourse env id course).

(** Modelled from the spec: the call site of [deleteCourse]. *)
Definition handleDelete (env : Env) (id : uuid) : M unit :=
  guarded (Ctx.deleteCourse env id).

End CallSite.

End CoursesPage.

(* ===================================================================== *)
(** * The sign-up page *)
(* ===================================================================== *)

Module Signup.

(** ['user' | 'admin' | 'instructor'] *)
Inductive RoleName := user | admin | instructor.

#[global] Instance RoleName_eq_dec : EqDecision RoleName.
Proof. solve_decision. Defined.

Record FormData := mkForm {
  email : string;
  password : string;
  confirmPassword : string;
  fullName : string;
  role : RoleName
}.

(** What the handler sends to the backend. *)
Inductive Request :=
| SignUp (email password full_name : string) (role : RoleName)
| InsertProfile (user_id : uuid) (email full_name : string) (role : RoleName).

(** [setTimeout(() => navigate(path), delay)] *)
Record Timer := mkTimer { path : string; delay : nat }.

Record State := mkState {
  formData : FormData;
  adminSecretKey : string;
  loading : bool;
  error : option string;
  success : option string;
  console : list string;             (* labels of the [console.error] calls *)
  requests : list Request;           (* requests sent, oldest first *)
  timers : list Timer
}.

Record AuthUser := mkUser { id : uuid; user_email : string }.

(** [data] of [supabase.auth.signUp]: the user, and whether a session came
    with it. *)
Record AuthData := mkData { data_user : option AuthUser; data_session : bool }.

(** The answers of the backend to the two requests of one submission. *)
Record Answers := mkAnswers {
  signUp_answer : AuthData + string;    (* [data], or the [message] of [error] *)
  profile_error : bool                  (* the profile insert returned an error *)
}.

Definition ADMIN_SECRET : string := "robostaan_admin_2024".

Definition set_status (loading : bool) (error success : option string) (s : State)
    : State :=
  mkState (formData s) (adminSecretKey s) loading error success
    (console s) (requests s) (timers s).

Definition setLoading (b : bool) (s : State) : State :=
  set_status b (error s) (success s) s.

Definition setError (e : option string) (s : State) : State :=
  set_status (loading s) e (success s) s.

Definition setSuccess (m : option string) (s : State) : State :=
  set_status (loading s) (error s) m s.

Definition send (r : Request) (s : State) : State :=
  mkState (formData s) (adminSecretKey s) (loading s) (error s) (success s)
    (console s) (requests s ++ [r]) (timers s).

Definition console_error (label : string) (s : State) : State :=
  mkState (formData s) (adminSecretKey s) (loading s) (error s) (success s)
    (console s ++ [label]) (requests s) (timers s).

Definition setTimeout (path : string) (delay : nat) (s : State) : State :=
  mkState (formData s) (adminSecretKey s) (loading s) (error s) (success s)
    (console s) (requests s) (timers s ++ [mkTimer path delay]).

Definition reset_form (s : State) : State :=
  mkState (mkForm "" "" "" "" user) "" (loading s) (error s) (success s)
    (console s) (requests s) (timers s).

(** The body of the [if (data.user)] block. *)
Definition after_signUp (answers : Answers) (f : FormData) (u : AuthUser)
    (session : bool) (s : State) : State :=
  let s := send (InsertProfile (id u) (user_email u) (fullName f) (role f)) s in
  let s := if profile_error answers then console_error "Profile creation error:" s else s in
  let s :=
    if session
    then setTimeout "/" 2000
           (setSuccess (Some "Account created successfully! Redirecting...") s)
    else setTimeout "/login" 3000
           (setSuccess (Some "Account created successfully! Please check your email to confirm your account.") s) in
  reset_form s.

Definition handleSubmit (answers : Answers) (s0 : State) : State :=
  let f := formData s0 in
  let s := setSuccess None (setError None (setLoading true s0)) in
  if negb (bool_decide (password f = confirmPassword f)) then
    setLoading false (setError (Some "Passwords do not match") s)
  else if String.length (password f) <? 6 then
    setLoading false (setError (Some "Password must be at least 6 characters long") s)
  else if bool_decide (role f = admin) && negb (bool_decide (adminSecretKey s0 = ADMIN_SECRET)) then
    setLoading false (setError (Some "Invalid admin secret key") s)
  else
    let s := send (SignUp (email f) (password f) (fullName f) (role f)) s in
    let s :=
      match signUp_answer answers with
      | inr message =>
          setError (Some (if Js.not_string message
                          then "An error occurred during signup" else message))
            (console_error "Signup error:" s)
      | inl data =>
          match data_user data with
          | Some u => after_signUp answers f u (data_session data) s
          | None => s
          end
      end in
    setLoading false s.

End Signup.

(* ===================================================================== *)
(** * Loading the lists: [fetchData] of [AppContext.tsx] *)
(* ===================================================================== *)

Module Fetch.

(** [.order('created_at', { ascending: false })]: [a] may come before [b]
    when it is not older. *)
Definition not_older (a b : timestamp) : Prop := (b ≤ a)%Z.

#[global] Instance not_older_dec : RelDecision not_older.
Proof. intros a b. unfold not_older. apply _. Defined.

Definition blog_first (a b : Blog.t) : Prop :=
  not_older (Blog.created_at a) (Blog.created_at b).

Definition course_first (a b : Course.t) : Prop :=
  not_older (Course.created_at a) (Course.created_at b).

#[global] Instance blog_first_dec : RelDecision blog_first.
Proof. intros a b. unfold blog_first. apply _. Defined.

#[global] Instance course_first_dec : RelDecision course_first.
Proof. intros a b. unfold course_first. apply _. Defined.

(** [supabase.from('blogs').select('*').order('created_at', ...)].  The
    SELECT policy of [blogs] lets every role see every row.  Rows with the
    same [created_at] come in the order the sort leaves them; the database
    promises none. *)
Definition select_blogs (env : Env) (db : Db) : result (list Blog.t) :=
  match fault env with
  | Some e => Err e
  | None =>
      Ok (merge_sort blog_first (blogs db))
  end.

(** [supabase.from('courses').select('*').order('created_at', ...)] *)
Definition select_courses (env : Env) (db : Db) : result (list Course.t) :=
  match fault env with
  | Some e => Err e
  | None =>
      Ok (merge_sort course_first (courses db))
  end.

Definition setLoading (b : bool) : M unit :=
  modify (λ w, mkWorld (w_blogs w) (w_courses w) b (w_searchTerm w)
                 (w_selectedTag w) (w_showModal w) (w_editingBlog w) (w_formData w)
                 (w_console w) (w_alerts w) (w_requests w) (w_db w)).

(** A read: it leaves the database and the log of statements alone. *)
Definition query {A} (read : Db → result A) : M (result A) :=
  λ w, (Return (read (w_db w)), w).

(** [fetchData]; [env_blogs] and [env_courses] are the environments of its
    two requests.  The [catch] block logs and does not rethrow, and the
    [finally] block runs on both paths. *)
Definition fetchData (env_blogs env_courses : Env) : M unit :=
  try_catch
    (setLoading true;;
     rb ← query (select_blogs env_blogs);
     match rb with
     | Err blogsError => throw blogsError
     | Ok blogsData =>
         rc ← query (select_courses env_courses);
         match rc with
         | Err coursesError => throw coursesError
         | Ok coursesData =>
             setBlogs (λ _, blogsData);;
             setCourses (λ _, coursesData)
         end
     end)
    (λ error, console_error "Error fetching data:" error);;
  setLoading false.

Definition refreshData (env_blogs env_courses : Env) : M unit :=
  fetchData env_blogs env_courses.

End Fetch.

(* ===================================================================== *)
(** * Dark mode: the effects and [toggleDarkMode] of [AppContext.tsx] *)
(* ===================================================================== *)

Module Theme.

Record State := mk {
  darkMode : bool;                     (* useState(false) *)
  storage : gmap string string;        (* localStorage *)
  dark_class : bool                    (* [document.documentElement] has class 'dark' *)
}.

(** [JSON.stringify] of a boolean. *)
Definition stringify (b : bool) : string := if b then "true" else "false".

(** [JSON.parse] on the two texts [JSON.stringify] gives for a boolean.
    [None]: any other text; what becomes of it is not modelled. *)
Definition parse (s : string) : option bool :=
  if decide (s = "true") then Some true
  else if decide (s = "false") then Some false
  else None.

(** The second effect, which runs after every render that changed
    [darkMode]: it stores the flag and sets or removes the class. *)
Definition persist (s : State) : State :=
  {| darkMode := darkMode s;
     storage := <["darkMode" := stringify (darkMode s)]> (storage s);
     dark_class := darkMode s |}.

(** [toggleDarkMode], followed by the effect of the render it causes. *)
Definition toggleDarkMode (s : State) : State :=
  persist {| darkMode := negb (darkMode s); storage := storage s;
             dark_class := dark_class s |}.

(** Mounting the provider over a given [localStorage].  Both effects run
    after the first render, in which [darkMode] is [false]: the first reads
    the saved text and, if there is one and it is not empty, asks for
    [darkMode] to become what it parses to; the second stores the [false]
    of that render.  The state update then renders again and the second
    effect runs with the new value.  [None]: the saved text is neither
    of the two literals. *)
Definition mount (saved : gmap string string) (dark_class0 : bool) : option State :=
  let first := persist {| darkMode := false; storage := saved; dark_class := dark_class0 |} in
  match saved !! "darkMode" with
  | None => Some first
  | Some text =>
      if Js.not_string text then Some first
      else match parse text with
           | Some d =>
               Some (persist {| darkMode := d; storage := storage first;
                                dark_class := dark_class first |})
           | None => None
           end
  end.

End Theme.

(* ===================================================================== *)
(** * [pages/Home.tsx] *)
(* ===================================================================== *)

Module Home.

(** [blogs.filter(blog => blog.featured).slice(0, 3)] *)
Definition featuredBlogs (blogs : list Blog.t) : list Blog.t :=
  take 3 (filter (λ blog, Blog.featured blog) blogs).

(** [courses.filter(course => course.featured).slice(0, 3)] *)
Definition featuredCourses (courses : list Course.t) : list Course.t :=
  take 3 (filter (λ course, Course.featured course) courses).

End Home.

(* ===================================================================== *)
(** * The login page *)
(* ===================================================================== *)

Module Login.

Inductive Request :=
| SignIn (email password : string)
| SelectProfile (user_id : uuid)
| InsertProfile (user_id : uuid) (email full_name : string) (role : Signup.RoleName).

Record State := mkState {
  email : string;                    (* formData.email *)
  password : string;                 (* formData.password *)
  loading : bool;
  error : option string;
  console : list string;             (* labels of the [console.error] calls *)
  requests : list Request;           (* requests sent, oldest first *)
  refreshes : nat;                   (* calls of [refreshProfile] *)
  navigations : list string          (* calls of [navigate] *)
}.

(** [data.user]: its id, its email, and [user_metadata?.full_name]. *)
Record AuthUser := mkUser {
  id : uuid;
  user_email : string;
  meta_full_name : option string
}.

(** The answers of the backend to the requests of one submission, and how
    [refreshProfile] of the authentication context ends. *)
Record Answers := mkAnswers {
  signIn_answer : option AuthUser + string;  (* [data.user], or the [message] of [error] *)
  existing_profile : bool;                   (* the profile query returned a row *)
  profile_error : bool;                      (* the profile insert returned an error *)
  refresh_error : option string              (* [refreshProfile] threw, with this [message] *)
}.

Definition set_status (loading : bool) (error : option string) (s : State) : State :=
  mkState (email s) (password s) loading error (console s) (requests s)
    (refreshes s) (navigations s).

Definition send (r : Request) (s : State) : State :=
  mkState (email s) (password s) (loading s) (error s) (console s)
    (requests s ++ [r]) (refreshes s) (navigations s).

Definition console_error (label : string) (s : State) : State :=
  mkState (email s) (password s) (loading s) (error s) (console s ++ [label])
    (requests s) (refreshes s) (navigations s).

Definition refreshProfile (s : State) : State :=
  mkState (email s) (password s) (loading s) (error s) (console s)
    (requests s) (S (refreshes s)) (navigations s).

Definition navigate (path : string) (s : State) : State :=
  mkState (email s) (password s) (loading s) (error s) (console s)
    (requests s) (refreshes s) (navigations s ++ [path]).

(** The role of a profile created at login, from the email typed into the
    form. *)
Definition role_of_email (email : string) : Signup.RoleName :=
  if decide (email = "admin@robostaan.com") then Signup.admin
  else if decide (email = "instructor@robostaan.com") then Signup.instructor
  else Signup.user.

(** [error.message || fallback] *)
Definition message_or (message fallback : string) : string :=
  if Js.not_string message then fallback else message.

(** The [catch] block: [console.error(label, error)] and
    [setError(error.message || fallback)]. *)
Definition caught (label fallback message : string) (s : State) : State :=
  set_status (loading s) (Some (message_or message fallback)) (console_error label s).

(** [await refreshProfile(); navigate('/')] inside the [try] block. *)
Definition enter (answers : Answers) (label fallback : string) (s : State) : State :=
  let s := refreshProfile s in
  match refresh_error answers with
  | Some message => caught label fallback message s
  | None => navigate "/" s
  end.

(** The body of the [if (data.user)] block of [handleSubmit]. *)
Definition after_signIn (answers : Answers) (u : AuthUser) (s : State) : State :=
  let s := send (SelectProfile (id u)) s in
  let s :=
    if existing_profile answers then s
    else
      let full_name :=
        match meta_full_name u with Some n => n | None => "" end in
      let s := send (InsertProfile (id u) (user_email u) full_name
                       (role_of_email (email s))) s in
      if profile_error answers then console_error "Profile creation error:" s else s in
  enter answers "Login error:" "An error occurred during login" s.

Definition handleSubmit (answers : Answers) (s0 : State) : State :=
  let s := set_status true None s0 in
  let s := send (SignIn (email s) (password s)) s in
  let s :=
    match signIn_answer answers with
    | inr message => caught "Login error:" "An error occurred during login" message s
    | inl (Some u) => after_signIn answers u s
    | inl None => s
    end in
  set_status false (error s) s.

(** [handleDemoLogin(credentials)]: the form is filled with the demo
    credentials and the sign-in is made with them. *)
Definition handleDemoLogin (answers : Answers) (cred_email cred_password : string)
    (s0 : State) : State :=
  let s := mkState cred_email cred_password true None (console s0) (requests s0)
             (refreshes s0) (navigations s0) in
  let s := send (SignIn cred_email cred_password) s in
  let s :=
    match signIn_answer answers with
    | inr message =>
        caught "Demo login error:" "An error occurred during demo login" message s
    | inl (Some u) =>
        enter answers "Demo login error:" "An error occurred during demo login" s
    | inl None => s
    end in
  set_status false (error s) s.

End Login.

(* ===================================================================== *)
(** * The table [user_profiles] *)
(* ===================================================================== *)

Module Profile.

(** A row of [user_profiles]. *)
Record t := mk {
  id : uuid;                         (* PRIMARY KEY DEFAULT gen_random_uuid() *)
  user_id : option uuid;             (* REFERENCES auth.users(id) ON DELETE CASCADE *)
  email : string;                    (* UNIQUE NOT NULL *)
  full_name : option string;
  avatar_url : option string;
  bio : option string;
  role : option string;              (* DEFAULT 'user' CHECK (role IN (...)) *)
  created_at : option timestamp;     (* DEFAULT now() *)
  updated_at : option timestamp      (* DEFAULT now() *)
}.

Record cols := mk_cols {
  c_id : Sql.col uuid;
  c_user_id : Sql.col uuid;
  c_email : Sql.col string;
  c_full_name : Sql.col string;
  c_avatar_url : Sql.col string;
  c_bio : Sql.col string;
  c_role : Sql.col string;
  c_created_at : Sql.col timestamp;
  c_updated_at : Sql.col timestamp
}.

(** [CHECK (role IN ('user', 'admin', 'instructor'))]: a chain of
    equalities joined by OR, unknown for a NULL role. *)
Definition check_role (role : option string) : Sql.tri :=
  Sql.or (Sql.eq role (Some "user"))
         (Sql.or (Sql.eq role (Some "admin")) (Sql.eq role (Some "instructor"))).

#[global] Instance eq_dec : EqDecision t.
Proof. solve_decision. Defined.
End Profile.

(** Accounts and their profiles. *)
Record Accounts := mkAccounts {
  accounts : list uuid;              (* ids of auth.users *)
  profiles : list Profile.t
}.

(** Policies of [user_profiles]: everybody reads; INSERT and UPDATE on
    one's own row; there is no DELETE policy. *)
Definition profile_writable (r : Role) (p : Profile.t) : bool :=
  match r with
  | ServiceRole => true
  | Authenticated _ => own r (Profile.user_id p)
  | Anon => false
  end.

Definition new_profile (env : Env) (c : Profile.cols) : Profile.t :=
  {| Profile.id :=
       default EmptyString (Sql.assign (Profile.c_id c) (Some (gen_random_uuid env)));
     Profile.user_id := Sql.assign (Profile.c_user_id c) None;
     Profile.email := default EmptyString (Sql.assign (Profile.c_email c) None);
     Profile.full_name := Sql.assign (Profile.c_full_name c) None;
     Profile.avatar_url := Sql.assign (Profile.c_avatar_url c) None;
     Profile.bio := Sql.assign (Profile.c_bio c) None;
     Profile.role := Sql.assign (Profile.c_role c) (Some "user");
     Profile.created_at := Sql.assign (Profile.c_created_at c) (Some (now env));
     Profile.updated_at := Sql.assign (Profile.c_updated_at c) (Some (now env)) |}.

Definition set_profile (c : Profile.cols) (p : Profile.t) : Profile.t :=
  {| Profile.id :=
       default (Profile.id p) (Sql.assign (Profile.c_id c) (Some (Profile.id p)));
     Profile.user_id := Sql.assign (Profile.c_user_id c) (Profile.user_id p);
     Profile.email :=
       default (Profile.email p) (Sql.assign (Profile.c_email c) (Some (Profile.email p)));
     Profile.full_name := Sql.assign (Profile.c_full_name c) (Profile.full_name p);
     Profile.avatar_url := Sql.assign (Profile.c_avatar_url c) (Profile.avatar_url p);
     Profile.bio := Sql.assign (Profile.c_bio c) (Profile.bio p);
     Profile.role := Sql.assign (Profile.c_role c) (Profile.role p);
     Profile.created_at := Sql.assign (Profile.c_created_at c) (Profile.created_at p);
     Profile.updated_at := Sql.assign (Profile.c_updated_at c) (Profile.updated_at p) |}.

(** Constraints a written row must meet, in the order they are enforced:
    the policy, NOT NULL ([id], [email]), CHECK. *)
Definition profile_row_checks (r : Role) (not_null : bool) (row : Profile.t)
    : list (option Error) :=
  [ require (profile_writable r row) RlsViolation;
    require not_null NotNullViolation;
    require (Sql.check_passes (Profile.check_role (Profile.role row))) CheckViolation ].

(** PRIMARY KEY and [email text UNIQUE]. *)
Definition profile_keys_unique (tbl : list Profile.t) : list (option Error) :=
  [ require (unique_ids (Profile.id <$> tbl)) UniqueViolation;
    require (bool_decide (NoDup (Profile.email <$> tbl))) UniqueViolation ].

(** [INSERT INTO user_profiles (...) VALUES (...) RETURNING *] *)
Definition insert_profile (env : Env) (c : Profile.cols) (db : Accounts)
    : result Profile.t * Accounts :=
  let row := new_profile env c in
  let tbl := profiles db ++ [row] in
  let not_null :=
    negb (sets_null (Profile.c_id c)) &&
    bool_decide (is_Some (Sql.assign (Profile.c_email c) None)) in
  match first_error
          ([ fault env ]
           ++ profile_row_checks (role env) not_null row
           ++ profile_keys_unique tbl
           ++ [ require (references (Profile.user_id row) (accounts db))
                        ForeignKeyViolation ]) with
  | Some e => (Err e, db)
  | None => (Ok row, mkAccounts (accounts db) tbl)
  end.

(** [UPDATE user_profiles SET ... WHERE ... RETURNING *] *)
Definition update_profiles (env : Env) (where_ : Profile.t → bool)
    (c : Profile.cols) (db : Accounts) : result (list Profile.t) * Accounts :=
  let hit p := profile_writable (role env) p && where_ p in
  let tbl := (λ p, if hit p then set_profile c p else p) <$> profiles db in
  let written := set_profile c <$> filter (λ p, hit p) (profiles db) in
  let not_null :=
    negb (sets_null (Profile.c_id c)) && negb (sets_null (Profile.c_email c)) in
  match first_error
          ([ fault env ]
           ++ mjoin (profile_row_checks (role env) not_null <$> written)
           ++ profile_keys_unique tbl
           ++ mjoin ((λ row, [ require (references (Profile.user_id row) (accounts db))
                                       ForeignKeyViolation ]) <$> written)) with
  | Some e => (Err e, db)
  | None => (Ok written, mkAccounts (accounts db) tbl)
  end.

(** [DELETE FROM user_profiles WHERE ...]: without a DELETE policy only the
    service role removes rows. *)
Definition delete_profiles (env : Env) (where_ : Profile.t → bool) (db : Accounts)
    : result (list Profile.t) * Accounts :=
  let hit (p : Profile.t) :=
    match role env with ServiceRole => where_ p | _ => false end in
  match fault env with
  | Some e => (Err e, db)
  | None =>
      (Ok (filter (λ p, hit p) (profiles db)),
       mkAccounts (accounts db) (filter (λ p, negb (hit p)) (profiles db)))
  end.

(** A new account of the authentication service. *)
Definition create_account (uid : uuid) (db : Accounts) : Accounts :=
  if decide (uid ∈ accounts db) then db
  else mkAccounts (accounts db ++ [uid]) (profiles db).

(** A deleted account takes its profile along (ON DELETE CASCADE). *)
Definition delete_account (uid : uuid) (db : Accounts) : Accounts :=
  mkAccounts (filter (λ u, u ≠ uid) (accounts db))
    (filter (λ p, negb (refers_to (Profile.user_id p) [uid])) (profiles db)).

Inductive profile_stmt :=
| InsertProfile (c : Profile.cols)
| UpdateProfiles (where_ : Profile.t → bool) (c : Profile.cols)
| DeleteProfiles (where_ : Profile.t → bool)
| CreateAccount (uid : uuid)
| DeleteAccount (uid : uuid).

Definition exec_profile (env : Env) (s : profile_stmt) (db : Accounts) : Accounts :=
  match s with
  | InsertProfile c => (insert_profile env c db).2
  | UpdateProfiles w c => (update_profiles env w c db).2
  | DeleteProfiles w => (delete_profiles env w db).2
  | CreateAccount uid => create_account uid db
  | DeleteAccount uid => delete_account uid db
  end.

(** The migration creates [user_profiles] empty; every later change is a
    statement. *)
Inductive reachable_profiles : Accounts → Prop :=
| profiles_migrated db : profiles db = [] → reachable_profiles db
| profiles_exec env s db :
    reachable_profiles db → reachable_profiles (exec_profile env s db).

(** The text of a role in the column [user_profiles.role]. *)
Definition role_label (r : Signup.RoleName) : string :=
  match r with
  | Signup.user => "user"
  | Signup.admin => "admin"
  | Signup.instructor => "instructor"
  end.

(** The two requests of the sign-up and login pages that create a profile:
    [.insert({ user_id, email, full_name, role })]. *)
Definition profile_payload (user_id : uuid) (email full_name : string)
    (role : Signup.RoleName) : Profile.cols :=
  Profile.mk_cols None (Some (Some user_id)) (Some (Some email)) (Some (Some full_name))
    None None (Some (Some (role_label role))) None None.

(* ===================================================================== *)
(** * Properties, as the specification words them *)
(* ===================================================================== *)

(** A progress value within 0..100; a NULL progress is no value at all. *)
Definition progress_in_range (e : Enrollment.t) : Prop :=
  match Enrollment.progress e with
  | Some p => (0 ≤ p ≤ 100)%Z
  | None => True
  end.

(** [p] brought into 0..100. *)
Definition clamp (p : Z) : Z := Z.max 0 (Z.min 100 p).

(** The comment is on a blog or on a course, and not on both. *)
Definition one_target (c : Comment.t) : Prop :=
  (is_Some (Comment.blog_id c) ∧ Comment.course_id c = None) ∨
  (Comment.blog_id c = None ∧ is_Some (Comment.course_id c)).

(** The text is made of code units below 256 only. *)
Definition latin1 (t : Js.text) : Prop := Forall (λ u, ∃ c, u = Js.Latin1 c) t.

Definition latin1_blog (blog : Blog.t) : Prop :=
  latin1 (Blog.title blog) ∧ latin1 (Blog.snippet blog).

(** The code of a capital letter of Basic Latin or Latin-1: A..Z and
    U+00C0..U+00DE without the multiplication sign. *)
Definition capital (n : nat) : Prop := 65 ≤ n ≤ 90 ∨ (192 ≤ n ≤ 222 ∧ n ≠ 215).

(** Two code units below 256 are the same letter up to case: they are
    equal, or one is a capital and the other its small letter, which
    stands 32 places above. *)
Definition same_letter (a b : ascii) : Prop :=
  nat_of_ascii a = nat_of_ascii b ∨
  (capital (nat_of_ascii a) ∧ nat_of_ascii b = nat_of_ascii a + 32) ∨
  (capital (nat_of_ascii b) ∧ nat_of_ascii a = nat_of_ascii b + 32).

(** The same for the code units of a text; the three forms of sigma are
    one letter. *)
Definition same_unit (a b : Js.code_unit) : Prop :=
  match a, b with
  | Js.Latin1 x, Js.Latin1 y => same_letter x y
  | Js.Latin1 _, _ | _, Js.Latin1 _ => False
  | _, _ => True
  end.

(** Two texts are equal up to case: letter by letter. *)
Definition same_ci (a b : Js.text) : Prop := Forall2 same_unit a b.

(** [text] contains [s] when letter case is ignored: some contiguous part
    of [text] equals [s] up to case. *)
Definition contains_ci (text s : Js.text) : Prop :=
  ∃ before part after, text = before ++ part ++ after ∧ same_ci part s.

(** The blogs the page is to show for a search term and a selected tag. *)
Definition wanted (searchTerm : Js.text) (selectedTag : string) (blog : Blog.t) : Prop :=
  (contains_ci (Blog.title blog) searchTerm ∨ contains_ci (Blog.snippet blog) searchTerm) ∧
  (selectedTag = "" ∨ selectedTag ∈ Blog.tags blog).

(** A failed data operation, seen from the page: the handler returned, the
    error is in the console, the user got [message] and nothing else, and
    exactly the one request [s] went out. *)
Definition failure_handled (e : Error) (message : string) (s : stmt)
    (w : World) (r : outcome unit * World) : Prop :=
  r.1 = Return () ∧
  (∃ label, (label, e) ∈ w_console r.2) ∧
  w_alerts r.2 = w_alerts w ++ [message] ∧
  w_requests r.2 = w_requests w ++ [s].

(** The three validations, in the order the handler makes them. *)
Inductive validation (s : Signup.State) : option string → Prop :=
| passwords_differ :
    Signup.password (Signup.formData s) ≠ Signup.confirmPassword (Signup.formData s) →
    validation s (Some "Passwords do not match")
| password_short :
    Signup.password (Signup.formData s) = Signup.confirmPassword (Signup.formData s) →
    String.length (Signup.password (Signup.formData s)) < 6 →
    validation s (Some "Password must be at least 6 characters long")
| secret_wrong :
    Signup.password (Signup.formData s) = Signup.confirmPassword (Signup.formData s) →
    6 ≤ String.length (Signup.password (Signup.formData s)) →
    Signup.role (Signup.formData s) = Signup.admin →
    Signup.adminSecretKey s ≠ Signup.ADMIN_SECRET →
    validation s (Some "Invalid admin secret key")
| all_valid :
    Signup.password (Signup.formData s) = Signup.confirmPassword (Signup.formData s) →
    6 ≤ String.length (Signup.password (Signup.formData s)) →
    (Signup.role (Signup.formData s) ≠ Signup.admin ∨
     Signup.adminSecretKey s = Signup.ADMIN_SECRET) →
    validation s None.

(* ===================================================================== *)
(** * Further notions the statements use *)
(* ===================================================================== *)

(** The code units of a string. *)
Definition chars (s : string) : list ascii := String.list_ascii_of_string s.

(** A tag as the form produces it: not empty, no comma inside, no white
    space at either end. *)
Definition comma : ascii := ","%char.

Definition clean_tag (t : string) : Prop :=
  (t ≠ "") ∧
  (comma ∉ chars t) ∧
  (∀ c, head (chars t) = Some c → Js.is_space c = false) ∧
  (∀ c, last (chars t) = Some c → Js.is_space c = false).
Global Arguments chars : simpl never.

(** The operation the blogs page starts when its form is submitted. *)
Definition submitted (w : World) : Ctx.op :=
  match w_editingBlog w with
  | Some editing =>
      Ctx.UpdateBlog (Blog.id editing)
        (Blog.partial_of_input (BlogsPage.blogData (w_formData w)))
  | None => Ctx.AddBlog (BlogsPage.blogData (w_formData w))
  end.

(** The page state of the blogs page. *)
Definition page_state (w : World) : bool * option Blog.t * BlogForm.t :=
  (w_showModal w, w_editingBlog w, w_formData w).

(** The blog with another [updated_at]. *)
Definition touch (ts : timestamp) (b : Blog.t) : Blog.t :=
  Blog.mk (Blog.id b) (Blog.title b) (Blog.content b) (Blog.snippet b) (Blog.image b)
    (Blog.tags b) (Blog.author b) (Blog.featured b) (Blog.created_at b) ts.

(** The sign-up request of a submission. *)
Definition signUp_request (s : Signup.State) : Signup.Request :=
  Signup.SignUp (Signup.email (Signup.formData s)) (Signup.password (Signup.formData s))
    (Signup.fullName (Signup.formData s)) (Signup.role (Signup.formData s)).

(** Referential integrity of the modelled tables: every foreign key that is
    not NULL points to a row that is there. *)
Definition consistent (db : Db) : Prop :=
  (∀ e, e ∈ course_enrollments db →
        references (Enrollment.user_id e) (users db) = true ∧
        references (Enrollment.course_id e) (Course.id <$> courses db) = true) ∧
  (∀ c, c ∈ comments db →
        references (Comment.user_id c) (users db) = true ∧
        references (Comment.blog_id c) (Blog.id <$> blogs db) = true ∧
        references (Comment.course_id c) (Course.id <$> courses db) = true ∧
        references (Comment.parent_id c) (Comment.id <$> comments db) = true).

(* ===================================================================== *)
(** * Sample data *)
(* ===================================================================== *)

Module Sample.
Local Open Scope Z_scope.

Definition alice : uuid := "a11ce000-0000-4000-8000-000000000001".

Definition blog1 : Blog.t :=
  Blog.mk "b1090000-0000-4000-8000-000000000001" (Js.units "Getting Started with ROS")
    "<p>...</p>" (Js.units "First steps") "https://example.org/ros.jpg" ["ROS"; "Beginner"]
    "Dr. Sarah Johnson" true 1000 1000.

Definition blog2 : Blog.t :=
  Blog.mk "b1090000-0000-4000-8000-000000000002" (Js.units "Drone Autonomy")
    "<p>...</p>" (Js.units "Flying robots and ros") "https://example.org/drone.jpg" ["Drones"]
    "Prof. Michael Chen" false 2000 2000.

Definition course1 : Course.t :=
  Course.mk "c0a45e00-0000-4000-8000-000000000001" "Robotics 101" "An introduction"
    "<p>...</p>" "https://example.org/r101.jpg" "6 weeks" Beginner None None true
    1000 1000.

Definition course2 : Course.t :=
  Course.mk "c0a45e00-0000-4000-8000-000000000002" "SLAM" "Mapping and localisation"
    "<p>...</p>" "https://example.org/slam.jpg" "8 weeks" Advanced None None false
    2000 2000.

(** The database right after the migration, with one account. *)
Definition db : Db := mkDb [alice] [blog1; blog2] [course1; course2] [] [].

(** A request of the signed-in account: the server clock reads 5000, the
    browser clock 4000. *)
Definition env (id : uuid) : Env := mkEnv None (Authenticated alice) id 5000 4000.

(** A request that does not reach the database. *)
Definition offline : Env :=
  mkEnv (Some (Failure "Failed to fetch")) (Authenticated alice) "" 5000 4000.

Definition enroll (progress : Sql.col Z) : Enrollment.cols :=
  Enrollment.mk_cols None (Some (Some alice)) (Some (Some (Course.id course1)))
    None progress None.

Definition comment_on_blog : Comment.cols :=
  Comment.mk_cols None (Some (Some alice)) (Some (Some (Blog.id blog1))) None
    (Some (Some "Nice post")) None None None.

Definition comment_on_both : Comment.cols :=
  Comment.mk_cols None (Some (Some alice)) (Some (Some (Blog.id blog1)))
    (Some (Some (Course.id course1))) (Some (Some "Nice post")) None None None.

Definition comment_on_nothing : Comment.cols :=
  Comment.mk_cols None (Some (Some alice)) None None (Some (Some "Nice post"))
    None None None.

Definition world : World :=
  mkWorld [blog2; blog1] [course2; course1] false [] "" false None BlogForm.empty
    [] [] [] db.

Definition form : BlogForm.t :=
  BlogForm.mk (Js.units "Sensors") "<p>...</p>" (Js.units "On sensors")
    "https://example.org/s.jpg"
    "Sensors, Hardware" "Dr. Emily Rodriguez" false.

Definition new_course : Course.input :=
  Course.mk_input "Kinematics" "Arms and joints" "<p>...</p>"
    "https://example.org/k.jpg" "4 weeks" Intermediate None None false.

Definition member : Auth.t :=
  Auth.mk (Some alice) (Some (Auth.mkProfile "alice@example.org" (Some "Alice") None "user")).

Definition administrator : Auth.t :=
  Auth.mk (Some alice) (Some (Auth.mkProfile "alice@example.org" (Some "Alice") None "admin")).

(** An admin sign-up with a wrong secret key and well-formed passwords. *)
Definition intruder : Signup.State :=
  Signup.mkState (Signup.mkForm "eve@example.org" "hunter22" "hunter22" "Eve" Signup.admin)
    "letmein" false None None [] [] [].

(** The same with a mistyped confirmation. *)
Definition intruder_typo : Signup.State :=
  Signup.mkState (Signup.mkForm "eve@example.org" "hunter22" "hunter23" "Eve" Signup.admin)
    "letmein" false None None [] [] [].

Definition newcomer : Signup.State :=
  Signup.mkState (Signup.mkForm "bob@example.org" "hunter22" "hunter22" "Bob" Signup.user)
    "" false None None [] [] [].

Definition signed_up : Signup.Answers :=
  Signup.mkAnswers
    (inl (Signup.mkData (Some (Signup.mkUser "b0b00000-0000-4000-8000-000000000001"
                                 "bob@example.org")) true))
    false.

End Sample.

(** Further sample data. *)
Module Cases.
Local Open Scope Z_scope.

(** A request without a session. *)
Definition visitor : Env := mkEnv None Anon "" 5000 4000.

(** A blog whose title ends in a Greek capital sigma. *)
Definition sigma_blog : Blog.t :=
  Blog.mk "b1090000-0000-4000-8000-000000000003" [Js.Latin1 "A"; Js.CapitalSigma]
    "<p>...</p>" (Js.units "Sums") "https://example.org/sigma.jpg" ["Maths"]
    "Dr. Sarah Johnson" false 3000 3000.

(** The sample database with one enrollment of the sample account. *)
Definition enrolled : Db :=
  (exec (Sample.env "e1") (InsertEnrollment (Sample.enroll (Some (Some 40)))) Sample.db).2.

(** The fields of the sample form, as an update. *)
Definition retitled : Blog.partial :=
  Blog.partial_of_input (BlogsPage.blogData Sample.form).

(** The sample page after the operations of the context. *)
Definition after_update : World :=
  (Ctx.updateBlog (Sample.env "") (Blog.id Sample.blog1) retitled Sample.world).2.

Definition after_delete : World :=
  (Ctx.deleteBlog (Sample.env "") (Blog.id Sample.blog1) Sample.world).2.

Definition after_add_blog : World :=
  (Ctx.addBlog (Sample.env "b3") (BlogsPage.blogData Sample.form) Sample.world).2.

Definition after_add_course : World :=
  (Ctx.addCourse (Sample.env "c3") Sample.new_course Sample.world).2.

(** The same deletion without a session, and the page after the next
    refresh. *)
Definition after_visitor_delete : World :=
  (Ctx.deleteBlog visitor (Blog.id Sample.blog1) Sample.world).2.

Definition refreshed (w : World) : World :=
  (Fetch.refreshData (Sample.env "") (Sample.env "") w).2.

(** A sign-up the authentication service refuses. *)
Definition taken : Signup.Answers :=
  Signup.mkAnswers (inr "User already registered") false.

(** One account without a profile, and the profile it then creates for
    itself with the role of an administrator. *)
Definition accounts : Accounts := mkAccounts [Sample.alice] [].

Definition own_profile : Profile.cols :=
  profile_payload Sample.alice "alice@example.org" "Alice" Signup.admin.

Definition registered : Accounts :=
  exec_profile (Sample.env "p1") (InsertProfile own_profile) accounts.

End Cases.

(* ===================================================================== *)
(** * The database keeps its constraints *)
(* ===================================================================== *)

Section Checks.

Lemma first_error_app l1 l2 :
  first_error (l1 ++ l2) =
  match first_error l1 with Some e => Some e | None => first_error l2 end.
Proof.
  induction l1 as [|[e|] l1 IH]; simpl; [done..|]. apply IH.
Qed.

Lemma first_error_None l :
  first_error l = None ↔ Forall (λ c, c = None) l.
Proof.
  induction l as [|[e|] l IH]; simpl.
  - split; [constructor | done].
  - split; [done | inversion 1; done].
  - rewrite IH. split; [by constructor | by inversion 1].
Qed.

Lemma first_error_join_None {A} (f : A → list (option Error)) l :
  first_error (mjoin (f <$> l)) = None ↔ ∀ x, x ∈ l → first_error (f x) = None.
Proof.
  induction l as [|a l IH]; simpl.
  - split; [intros _ x Hx; by apply not_elem_of_nil in Hx | done].
  - rewrite first_error_app. split.
    + intros H x Hx. destruct (first_error (f a)) eqn:Ha; [done|].
      apply elem_of_cons in Hx as [->|Hx]; [done|]. by apply IH.
    + intros H. rewrite (H a) by left. apply IH. intros x Hx. apply H. by right.
Qed.

Lemma require_None b e : require b e = None ↔ b = true.
Proof. destruct b; simpl; split; congruence. Qed.

End Checks.

(** A row that passed the CHECK of [course_enrollments] is in range. *)
Lemma check_progress_sound e :
  Sql.check_passes (Enrollment.check_progress (Enrollment.progress e)) = true →
  progress_in_range e.
Proof.
  unfold progress_in_range, Enrollment.check_progress, Sql.le, Sql.ge.
  destruct (Enrollment.progress e) as [p|]; [|done].
  simpl. repeat case_bool_decide; simpl; intros; [lia | done..].
Qed.

(** For a value that is there, the CHECK is exactly the range test. *)
Lemma check_progress_value (p : Z) :
  Sql.check_passes (Enrollment.check_progress (Some p)) = true ↔ (0 ≤ p ≤ 100)%Z.
Proof.
  unfold Enrollment.check_progress, Sql.le, Sql.ge. simpl.
  repeat case_bool_decide; simpl; split; intros; try done; lia.
Qed.

(** A row that passed the CHECK of [comments] has one target. *)
Lemma check_target_sound c :
  Sql.check_passes (Comment.check_target (Comment.blog_id c) (Comment.course_id c)) = true ↔
  one_target c.
Proof.
  unfold one_target, Comment.check_target.
  destruct (Comment.blog_id c), (Comment.course_id c); simpl; split;
    try done; intros H; try (left; split; by eauto); try (right; split; by eauto).
  - destruct H as [[_ ?]|[? _]]; done.
  - destruct H as [[[? ?] _]|[_ [? ?]]]; done.
Qed.

(** Splits a passed sequence of checks into its parts. *)
Ltac split_checks H :=
  rewrite ?first_error_app in H;
  repeat match type of H with
         | context [match first_error ?l with _ => _ end] =>
             let E := fresh "Hchk" in destruct (first_error l) eqn:E; [discriminate H|]
         end.

Lemma cascade_replies_subset rounds : ∀ gone tbl c,
  c ∈ cascade_replies rounds gone tbl → c ∈ tbl.
Proof.
  induction rounds as [|n IH]; intros gone tbl c; simpl; [done|].
  intros H. apply IH in H. by apply list_elem_of_filter in H as [_ H].
Qed.

Lemma refers_to_nil key : refers_to key [] = false.
Proof.
  by destruct key.
Qed.

Lemma filter_all {A} (f : A → bool) (l : list A) :
  (∀ x, f x = true) → filter (λ x, f x) l = l.
Proof.
  intros H. induction l as [|a l IH]; [done|].
  rewrite filter_cons_True, IH; [done | apply Is_true_true, H].
Qed.

Lemma filter_none {A} (f : A → bool) (l : list A) :
  (∀ x, f x = false) → filter (λ x, f x) l = [].
Proof.
  intros H. induction l as [|a l IH]; [done|].
  rewrite filter_cons_False, IH; [done | rewrite H; exact id].
Qed.

(** With nothing gone, nothing goes. *)
Lemma cascade_replies_none rounds : ∀ tbl, cascade_replies rounds [] tbl = tbl.
Proof.
  induction rounds as [|n IH]; intros tbl; simpl; [done|].
  rewrite (filter_none (λ c, refers_to (Comment.parent_id c) []))
    by (intros c; apply refers_to_nil).
  rewrite (filter_all (λ c, negb (refers_to (Comment.parent_id c) [])))
    by (intros c; by rewrite refers_to_nil).
  apply IH.
Qed.

(** The rounds [remove_comments] allows are enough: one more round would
    remove nothing more, so the cascade has run to its end. *)
Lemma cascade_replies_enough rounds : ∀ gone tbl,
  length tbl ≤ rounds →
  cascade_replies (S rounds) gone tbl = cascade_replies rounds gone tbl.
Proof.
  induction rounds as [|n IH]; intros gone tbl Hlen.
  - destruct tbl; [done | simpl in Hlen; lia].
  - change (cascade_replies (S (S n)) gone tbl)
      with (cascade_replies (S n)
              (Comment.id <$> filter (λ c, refers_to (Comment.parent_id c) gone) tbl)
              (filter (λ c, negb (refers_to (Comment.parent_id c) gone)) tbl)).
    change (cascade_replies (S n) gone tbl)
      with (cascade_replies n
              (Comment.id <$> filter (λ c, refers_to (Comment.parent_id c) gone) tbl)
              (filter (λ c, negb (refers_to (Comment.parent_id c) gone)) tbl)).
    destruct (filter (λ c, refers_to (Comment.parent_id c) gone) tbl) as [|d dead] eqn:Hdead.
    + by rewrite !cascade_replies_none.
    + apply IH.
      pose proof (length_filter_lt (λ c, negb (refers_to (Comment.parent_id c) gone)) tbl d)
        as Hlt.
      assert (d ∈ filter (λ c, refers_to (Comment.parent_id c) gone) tbl)
        as [Hd Hin]%list_elem_of_filter by (rewrite Hdead; apply list_elem_of_here).
      specialize (Hlt Hin). simpl in Hlt.
      destruct (refers_to (Comment.parent_id d) gone); [|done].
      specialize (Hlt (λ H, H)). lia.
Qed.

Lemma remove_comments_subset hit tbl c :
  c ∈ remove_comments hit tbl → c ∈ tbl.
Proof.
  unfold remove_comments. intros H. apply cascade_replies_subset in H.
  by apply list_elem_of_filter in H as [_ H].
Qed.

(** An UPDATE leaves each row as it was or as the SET list makes it. *)
Lemma elem_of_updated {A} (hit : A → bool) (set : A → A) (tbl : list A) (x : A) :
  x ∈ (λ r, if hit r then set r else r) <$> tbl →
  x ∈ tbl ∨ x ∈ set <$> filter (λ r, hit r) tbl.
Proof.
  intros (r & -> & Hr)%list_elem_of_fmap.
  destruct (hit r) eqn:Hhit; [right | by left].
  apply list_elem_of_fmap. exists r. split; [done|].
  apply list_elem_of_filter. by rewrite Hhit.
Qed.

(** Whatever the statement, a row of [course_enrollments] afterwards was
    there before or went through the CHECK. *)
Lemma exec_enrollment_rows env s db e :
  e ∈ course_enrollments (exec env s db).2 →
  e ∈ course_enrollments db ∨
  Sql.check_passes (Enrollment.check_progress (Enrollment.progress e)) = true.
Proof.
  destruct s; simpl; unfold status; simpl.
  - unfold blogs_insert. destruct (first_error _); simpl; auto.
  - unfold blogs_update. destruct (first_error _); simpl; auto.
    destruct (_ <$> _) as [|? [|? ?]]; simpl; auto.
  - unfold blogs_delete. destruct (fault env); simpl; auto.
  - unfold courses_insert. destruct (first_error _); simpl; auto.
  - unfold courses_update. destruct (first_error _); simpl; auto.
    destruct (_ <$> _) as [|? [|? ?]]; simpl; auto.
  - unfold courses_delete. destruct (fault env); simpl; auto.
    intros H. apply list_elem_of_filter in H as [_ H]. auto.
  - unfold insert_enrollment.
    destruct (first_error _) eqn:Hall; simpl; auto.
    intros [H| ->%list_elem_of_singleton]%elem_of_app; [by left | right].
    split_checks Hall. unfold enrollment_row_checks in *.
    apply first_error_None in Hchk0.
    repeat (apply Forall_cons in Hchk0 as [? Hchk0]).
    eapply (proj1 (require_None _ CheckViolation)); eassumption.
  - unfold update_enrollments.
    destruct (first_error _) eqn:Hall; simpl; auto.
    intros [H|H]%elem_of_updated; [by left | right].
    split_checks Hall.
    pose proof (proj1 (first_error_join_None _ _) Hchk0 e H) as Hrow.
    apply first_error_None in Hrow. unfold enrollment_row_checks in Hrow.
    repeat (apply Forall_cons in Hrow as [? Hrow]).
    eapply (proj1 (require_None _ CheckViolation)); eassumption.
  - unfold delete_enrollments. destruct (fault env); simpl; auto.
    intros H. apply list_elem_of_filter in H as [_ H]. auto.
  - unfold insert_comment. destruct (first_error _); simpl; auto.
  - unfold update_comments. destruct (first_error _); simpl; auto.
  - unfold delete_comments. destruct (fault env); simpl; auto.
  - unfold create_user. destruct (first_error _); simpl; auto.
  - unfold delete_user. destruct (fault env); simpl; auto.
    intros H. apply list_elem_of_filter in H as [_ H]. auto.
Qed.

(** The same for [comments]. *)
Lemma exec_comment_rows env s db c :
  c ∈ comments (exec env s db).2 →
  c ∈ comments db ∨
  Sql.check_passes (Comment.check_target (Comment.blog_id c) (Comment.course_id c)) = true.
Proof.
  destruct s; simpl; unfold status; simpl.
  - unfold blogs_insert. destruct (first_error _); simpl; auto.
  - unfold blogs_update. destruct (first_error _); simpl; auto.
    destruct (_ <$> _) as [|? [|? ?]]; simpl; auto.
  - unfold blogs_delete. destruct (fault env); simpl; auto.
    intros H%remove_comments_subset. auto.
  - unfold courses_insert. destruct (first_error _); simpl; auto.
  - unfold courses_update. destruct (first_error _); simpl; auto.
    destruct (_ <$> _) as [|? [|? ?]]; simpl; auto.
  - unfold courses_delete. destruct (fault env); simpl; auto.
    intros H%remove_comments_subset. auto.
  - unfold insert_enrollment. destruct (first_error _); simpl; auto.
  - unfold update_enrollments. destruct (first_error _); simpl; auto.
  - unfold delete_enrollments. destruct (fault env); simpl; auto.
  - unfold insert_comment.
    destruct (first_error _) eqn:Hall; simpl; auto.
    intros [H| ->%list_elem_of_singleton]%elem_of_app; [by left | right].
    split_checks Hall. unfold comment_row_checks in *.
    apply first_error_None in Hchk0.
    repeat (apply Forall_cons in Hchk0 as [? Hchk0]).
    eapply (proj1 (require_None _ CheckViolation)); eassumption.
  - unfold update_comments.
    destruct (first_error _) eqn:Hall; simpl; auto.
    intros [H|H]%elem_of_updated; [by left | right].
    split_checks Hall.
    pose proof (proj1 (first_error_join_None _ _) Hchk0 c H) as Hrow.
    apply first_error_None in Hrow. unfold comment_row_checks in Hrow.
    repeat (apply Forall_cons in Hrow as [? Hrow]).
    eapply (proj1 (require_None _ CheckViolation)); eassumption.
  - unfold delete_comments. destruct (fault env); simpl; auto.
    intros H%remove_comments_subset. auto.
  - unfold create_user. destruct (first_error _); simpl; auto.
  - unfold delete_user. destruct (fault env); simpl; auto.
    intros H%remove_comments_subset. auto.
Qed.

Lemma set_enrollments_same db : set_enrollments (course_enrollments db) db = db.
Proof. by destruct db. Qed.

Lemma fmap_unhit {A} (hit : A → bool) (set : A → A) (tbl : list A) :
  filter (λ r, hit r) tbl = [] →
  (λ r, if hit r then set r else r) <$> tbl = tbl.
Proof.
  induction tbl as [|a tbl IH]; [done|]. rewrite filter_cons.
  destruct (decide (hit a)) as [Ha|Ha]; [done|].
  intros H. rewrite fmap_cons, IH by done.
  destruct (hit a); [by destruct Ha | done].
Qed.

(** C2 (as the code has it).  Every row of [course_enrollments] has a NULL
    progress or a progress between 0 and 100.  A write of a progress value
    outside 0..100 is rejected, not clamped: an INSERT returns an error and
    stores nothing, an UPDATE changes no row. *)
Theorem enrollment_progress_checked :
  (∀ db, reachable db → ∀ e, e ∈ course_enrollments db → progress_in_range e) ∧
  (∀ env c db p,
     Enrollment.c_progress c = Some (Some p) → (p < 0 ∨ 100 < p)%Z →
     ∃ err, insert_enrollment env c db = (Err err, db)) ∧
  (∀ env where_ c db p,
     Enrollment.c_progress c = Some (Some p) → (p < 0 ∨ 100 < p)%Z →
     (update_enrollments env where_ c db).2 = db).
Proof.
  split; [|split].
  - intros db Hdb. induction Hdb as [db Hnone _|env s db _ IH]; intros e He.
    + rewrite Hnone in He. by apply not_elem_of_nil in He.
    + apply exec_enrollment_rows in He as [He|He]; [by apply IH|].
      by apply check_progress_sound.
  - intros env c db p Hp Hout. unfold insert_enrollment.
    destruct (first_error _) eqn:Hall; [by eexists|]. exfalso.
    split_checks Hall. apply first_error_None in Hchk0.
    unfold enrollment_row_checks in Hchk0.
    repeat (apply Forall_cons in Hchk0 as [? Hchk0]).
    match goal with
    | H : require (Sql.check_passes _) _ = None |- _ => apply require_None in H; rename H into Hc
    end.
    unfold new_enrollment in Hc. simpl in Hc. rewrite Hp in Hc. simpl in Hc.
    apply check_progress_value in Hc. lia.
  - intros env where_ c db p Hp Hout. unfold update_enrollments.
    destruct (first_error _) eqn:Hall; [done|]. simpl.
    split_checks Hall.
    rewrite fmap_unhit; [apply set_enrollments_same|].
    destruct (filter _ (course_enrollments db)) as [|e rest] eqn:Hhit; [done|].
    exfalso.
    pose proof (proj1 (first_error_join_None _ _) Hchk0 (set_enrollment c e)) as Hrow.
    rewrite fmap_cons in Hrow. specialize (Hrow (list_elem_of_here _ _)).
    apply first_error_None in Hrow. unfold enrollment_row_checks in Hrow.
    repeat (apply Forall_cons in Hrow as [? Hrow]).
    match goal with
    | H : require (Sql.check_passes _) _ = None |- _ => apply require_None in H; rename H into Hc
    end.
    unfold set_enrollment in Hc. simpl in Hc. rewrite Hp in Hc. simpl in Hc.
    apply check_progress_value in Hc. lia.
Qed.

(** C2, a write that is not clamped: enrolling with progress 150 is
    answered with a check violation and no row is stored, so no row with
    progress 100 (the clamped value) exists afterwards. *)
Lemma progress_150_rejected_not_clamped :
  let r := insert_enrollment (Sample.env "e1") (Sample.enroll (Some (Some 150%Z))) Sample.db in
  r.1 = Err CheckViolation ∧
  r.2 = Sample.db ∧
  ¬ ∃ e, e ∈ course_enrollments r.2 ∧ Enrollment.progress e = Some (clamp 150).
Proof.
  vm_compute. split; [done|]. split; [done|].
  intros (e & He & _). by apply not_elem_of_nil in He.
Qed.

(** The database after Alice enrolled in the first course with progress 40. *)
Lemma enrollment_progress_checked_witness :
  progress_in_range
    (new_enrollment (Sample.env "e1") (Sample.enroll (Some (Some 40%Z)))) ∧
  (∃ err, insert_enrollment (Sample.env "e1") (Sample.enroll (Some (Some 150%Z))) Sample.db
          = (Err err, Sample.db)) ∧
  (update_enrollments (Sample.env "e1") (λ _, true) (Sample.enroll (Some (Some (-1)%Z)))
     (exec (Sample.env "e1") (InsertEnrollment (Sample.enroll (Some (Some 40%Z)))) Sample.db).2).2
  = (exec (Sample.env "e1") (InsertEnrollment (Sample.enroll (Some (Some 40%Z)))) Sample.db).2.
Proof.
  destruct enrollment_progress_checked as (Hinv & Hins & Hupd).
  split; [|split].
  - apply (Hinv (exec (Sample.env "e1")
                   (InsertEnrollment (Sample.enroll (Some (Some 40%Z)))) Sample.db).2).
    + apply reachable_exec, reachable_migrated; reflexivity.
    + vm_compute. apply list_elem_of_here.
  - apply (Hins _ _ _ 150%Z); [reflexivity | lia].
  - apply (Hupd _ _ _ _ (-1)%Z); [reflexivity | lia].
Defined.

(** C6.  Every row of [comments] references exactly one of a blog and a
    course: in no database the application can reach does a comment
    reference both or neither. *)
Theorem comments_one_target db :
  reachable db → ∀ c, c ∈ comments db → one_target c.
Proof.
  intros Hdb. induction Hdb as [db _ Hnone|env s db _ IH]; intros c Hc.
  - rewrite Hnone in Hc. by apply not_elem_of_nil in Hc.
  - apply exec_comment_rows in Hc as [Hc|Hc]; [by apply IH|].
    by apply check_target_sound.
Qed.

Lemma comments_one_target_witness :
  one_target (new_comment (Sample.env "c1") Sample.comment_on_blog).
Proof.
  apply (comments_one_target
           (exec (Sample.env "c1") (InsertComment Sample.comment_on_blog) Sample.db).2).
  - apply reachable_exec, reachable_migrated; reflexivity.
  - vm_compute. apply list_elem_of_here.
Defined.

(** Both ways of breaking the rule are refused at the door. *)
Lemma comment_on_both_or_nothing_rejected :
  insert_comment (Sample.env "c1") Sample.comment_on_both Sample.db
    = (Err CheckViolation, Sample.db) ∧
  insert_comment (Sample.env "c1") Sample.comment_on_nothing Sample.db
    = (Err CheckViolation, Sample.db).
Proof. split; reflexivity. Qed.

(* ===================================================================== *)
(** * The context of [AppContext.tsx] *)
(* ===================================================================== *)

(** Unfolds the operations of the context down to the backend call. *)
Ltac unfold_ctx :=
  unfold Ctx.run, Ctx.addBlog, Ctx.updateBlog, Ctx.deleteBlog,
    Ctx.addCourse, Ctx.updateCourse, Ctx.deleteCourse,
    try_catch, mbind, M_bind, bind, await, throw,
    setBlogs, setCourses, console_error, alert, modify; simpl.

(** A statement that ends in an error changes nothing. *)
Lemma exec_error_unchanged env s db e :
  (exec env s db).1 = Some e → (exec env s db).2 = db.
Proof.
  destruct s; simpl; unfold status;
    [ unfold blogs_insert | unfold blogs_update | unfold blogs_delete
    | unfold courses_insert | unfold courses_update | unfold courses_delete
    | unfold insert_enrollment | unfold update_enrollments | unfold delete_enrollments
    | unfold insert_comment | unfold update_comments | unfold delete_comments
    | unfold create_user | unfold delete_user ];
    try (destruct (first_error _); simpl; [done|]);
    try (destruct (fault env); simpl; [done|]);
    try (destruct (_ <$> _) as [|? [|? ?]]; simpl);
    done.
Qed.

(** What an operation of the context does, by the answer of the backend:
    on an error it logs and rethrows, and changes nothing else. *)
Lemma run_error env o w e :
  Ctx.backend_error env o w = Some e →
  ∃ label,
    Ctx.run env o w =
    (Throw e,
     mkWorld (w_blogs w) (w_courses w) (w_loading w) (w_searchTerm w)
       (w_selectedTag w) (w_showModal w) (w_editingBlog w) (w_formData w)
       (w_console w ++ [(label, e)]) (w_alerts w)
       (w_requests w ++ [Ctx.request env o]) (w_db w)).
Proof.
  intros H. pose proof (exec_error_unchanged _ _ _ _ H) as Hdb.
  unfold Ctx.backend_error in H.
  destruct o; simpl in H, Hdb; unfold status in H, Hdb; simpl in H, Hdb;
    eexists; unfold_ctx;
    match goal with
    | |- context [(?call env ?a (w_db w)).1] =>
        destruct (call env a (w_db w)) as [[data|e'] db'] eqn:Hcall
    | |- context [(?call env ?a ?b (w_db w)).1] =>
        destruct (call env a b (w_db w)) as [[data|e'] db'] eqn:Hcall
    end; simpl in *; simplify_eq; reflexivity.
Qed.

(** On success the request is recorded, the database is the one the
    backend left, and nothing reaches the console or the user. *)
Lemma run_ok_frame env o w w' :
  Ctx.run env o w = (Return (), w') →
  Ctx.backend_error env o w = None ∧
  w_db w' = (exec env (Ctx.request env o) (w_db w)).2 ∧
  w_requests w' = w_requests w ++ [Ctx.request env o] ∧
  w_console w' = w_console w ∧ w_alerts w' = w_alerts w.
Proof.
  unfold Ctx.backend_error.
  destruct o; simpl; unfold status; unfold_ctx;
    match goal with
    | |- context [(?call env ?a (w_db w)).1] =>
        destruct (call env a (w_db w)) as [[data|e'] db'] eqn:Hcall
    | |- context [(?call env ?a ?b (w_db w)).1] =>
        destruct (call env a b (w_db w)) as [[data|e'] db'] eqn:Hcall
    end; simpl; intros; simplify_eq; done.
Qed.

(** C8.  When the backend answers an add, update or delete of a blog or a
    course with an error, the operation rethrows that error and the blogs
    and courses lists of the context are exactly as before the call. *)
Theorem failed_operation_keeps_lists env o w e :
  Ctx.backend_error env o w = Some e →
  (Ctx.run env o w).1 = Throw e ∧
  w_blogs (Ctx.run env o w).2 = w_blogs w ∧
  w_courses (Ctx.run env o w).2 = w_courses w.
Proof.
  intros [label ->]%run_error. done.
Qed.

Lemma failed_operation_keeps_lists_witness :
  (Ctx.run Sample.offline (Ctx.DeleteBlog (Blog.id Sample.blog1)) Sample.world).1
    = Throw (Failure "Failed to fetch") ∧
  w_blogs (Ctx.run Sample.offline (Ctx.DeleteBlog (Blog.id Sample.blog1)) Sample.world).2
    = [Sample.blog2; Sample.blog1] ∧
  w_courses (Ctx.run Sample.offline (Ctx.DeleteBlog (Blog.id Sample.blog1)) Sample.world).2
    = [Sample.course2; Sample.course1].
Proof.
  apply (failed_operation_keeps_lists Sample.offline
           (Ctx.DeleteBlog (Blog.id Sample.blog1)) Sample.world (Failure "Failed to fetch")).
  reflexivity.
Defined.

(** What [addBlog] does when it returns. *)
Lemma addBlog_returns env blog w w' :
  Ctx.addBlog env blog w = (Return (), w') →
  blogs_insert env blog (w_db w) = (Ok (new_blog env blog), w_db w') ∧
  w_blogs w' = new_blog env blog :: w_blogs w ∧
  w_courses w' = w_courses w ∧
  blogs (w_db w') = blogs (w_db w) ++ [new_blog env blog].
Proof.
  unfold_ctx. unfold blogs_insert.
  destruct (first_error _); simpl; intros; simplify_eq; done.
Qed.

(** C3.  When [addBlog] completes without error, the blogs list of the
    context includes the created blog, which carries the id the server
    gave it, and every blog that was in the list before is still in it;
    the blog is in the server's table as well. *)
Theorem addBlog_then_listed env blog w w' :
  Ctx.addBlog env blog w = (Return (), w') →
  ∃ data,
    (blogs_insert env blog (w_db w)).1 = Ok data ∧
    Blog.id data = gen_random_uuid env ∧
    data ∈ w_blogs w' ∧
    (∀ b, b ∈ w_blogs w → b ∈ w_blogs w') ∧
    data ∈ blogs (w_db w').
Proof.
  intros (Hcall & Hlist & _ & Htbl)%addBlog_returns.
  exists (new_blog env blog). rewrite Hcall, Hlist, Htbl.
  split; [done|]. split; [done|]. split; [apply list_elem_of_here|].
  split; [intros b Hb; by apply list_elem_of_further|].
  apply elem_of_app. right. apply list_elem_of_here.
Qed.

Lemma addBlog_then_listed_witness :
  ∃ data,
    (blogs_insert (Sample.env "b3") (BlogsPage.blogData Sample.form) (w_db Sample.world)).1
      = Ok data ∧
    Blog.id data = "b3" ∧
    data ∈ w_blogs (Ctx.addBlog (Sample.env "b3") (BlogsPage.blogData Sample.form) Sample.world).2 ∧
    (∀ b, b ∈ w_blogs Sample.world →
          b ∈ w_blogs (Ctx.addBlog (Sample.env "b3") (BlogsPage.blogData Sample.form) Sample.world).2) ∧
    data ∈ blogs (w_db (Ctx.addBlog (Sample.env "b3") (BlogsPage.blogData Sample.form) Sample.world).2).
Proof.
  apply (addBlog_then_listed (Sample.env "b3") (BlogsPage.blogData Sample.form) Sample.world).
  reflexivity.
Defined.

(** What [deleteCourse] does when it returns. *)
Lemma deleteCourse_returns env id w w' :
  Ctx.deleteCourse env id w = (Return (), w') →
  w_courses w' = filter (λ course, Course.id course ≠ id) (w_courses w) ∧
  w_blogs w' = w_blogs w.
Proof.
  unfold_ctx. unfold courses_delete.
  destruct (fault env); simpl; intros; simplify_eq; done.
Qed.

(** C4.  When [deleteCourse] completes without error, no course with that
    id is in the courses list of the context, and the courses with another
    id are in it exactly when they were before, unchanged and in the same
    order. *)
Theorem deleteCourse_then_unlisted env id w w' :
  Ctx.deleteCourse env id w = (Return (), w') →
  (∀ c, c ∈ w_courses w' → Course.id c ≠ id) ∧
  (∀ c, Course.id c ≠ id → c ∈ w_courses w → c ∈ w_courses w') ∧
  w_courses w' `sublist_of` w_courses w.
Proof.
  intros [-> _]%deleteCourse_returns. split; [|split].
  - intros c Hc. by apply list_elem_of_filter in Hc as [? _].
  - intros c Hne Hc. by apply list_elem_of_filter.
  - apply sublist_filter.
Qed.

Lemma deleteCourse_then_unlisted_witness :
  (∀ c, c ∈ w_courses (Ctx.deleteCourse (Sample.env "") (Course.id Sample.course1) Sample.world).2 →
        Course.id c ≠ Course.id Sample.course1) ∧
  (∀ c, Course.id c ≠ Course.id Sample.course1 → c ∈ w_courses Sample.world →
        c ∈ w_courses (Ctx.deleteCourse (Sample.env "") (Course.id Sample.course1) Sample.world).2) ∧
  w_courses (Ctx.deleteCourse (Sample.env "") (Course.id Sample.course1) Sample.world).2
    `sublist_of` w_courses Sample.world.
Proof.
  apply (deleteCourse_then_unlisted (Sample.env "") (Course.id Sample.course1) Sample.world).
  reflexivity.
Defined.

Example deleteCourse_sample :
  w_courses (Ctx.deleteCourse (Sample.env "") (Course.id Sample.course1) Sample.world).2
  = [Sample.course2].
Proof. reflexivity. Qed.

(** When an UPDATE returns a single row, that row is the changed version of
    a row that was selected, and it is in the table afterwards. *)
Lemma single_written {A} (hit : A → bool) (set : A → A) (tbl : list A) (row : A) :
  set <$> filter (λ r, hit r) tbl = [row] →
  ∃ old, old ∈ tbl ∧ hit old = true ∧ row = set old ∧
         row ∈ (λ r, if hit r then set r else r) <$> tbl.
Proof.
  intros H.
  destruct (filter (λ r, hit r) tbl) as [|old [|? ?]] eqn:Hf; simplify_eq/=.
  assert (old ∈ filter (λ r, hit r) tbl) as [Hhit Hin]%list_elem_of_filter
    by (rewrite Hf; apply list_elem_of_here).
  apply Is_true_true in Hhit.
  exists old. split; [done|]. split; [done|]. split; [done|].
  apply list_elem_of_fmap. exists old. by rewrite Hhit.
Qed.

Lemma updateBlog_returns env id p w w' :
  Ctx.updateBlog env id p w = (Return (), w') →
  ∃ old,
    old ∈ blogs (w_db w) ∧ Blog.id old = id ∧
    set_blog (Blog.with_updated_at p (date_now env)) old ∈ blogs (w_db w') ∧
    w_blogs w' =
      (λ blog, if decide (Blog.id blog = id)
               then set_blog (Blog.with_updated_at p (date_now env)) old else blog)
        <$> w_blogs w ∧
    w_requests w' = w_requests w ++ [UpdateBlogById id (Blog.with_updated_at p (date_now env))].
Proof.
  unfold_ctx. unfold blogs_update.
  destruct (first_error _); simpl; [intros; simplify_eq|].
  destruct (_ <$> filter _ _) as [|row [|? ?]] eqn:Hw; simpl; intros; simplify_eq.
  apply single_written in Hw as (old & Hin & Hhit & -> & Hnew).
  apply andb_true_iff in Hhit as [_ Hid%bool_decide_eq_true].
  exists old. done.
Qed.

Lemma updateCourse_returns env id p w w' :
  Ctx.updateCourse env id p w = (Return (), w') →
  ∃ old,
    old ∈ courses (w_db w) ∧ Course.id old = id ∧
    set_course (Course.with_updated_at p (date_now env)) old ∈ courses (w_db w') ∧
    w_courses w' =
      (λ course, if decide (Course.id course = id)
                 then set_course (Course.with_updated_at p (date_now env)) old else course)
        <$> w_courses w ∧
    w_requests w' = w_requests w ++ [UpdateCourseById id (Course.with_updated_at p (date_now env))].
Proof.
  unfold_ctx. unfold courses_update.
  destruct (first_error _); simpl; [intros; simplify_eq|].
  destruct (_ <$> filter _ _) as [|row [|? ?]] eqn:Hw; simpl; intros; simplify_eq.
  apply single_written in Hw as (old & Hin & Hhit & -> & Hnew).
  apply andb_true_iff in Hhit as [_ Hid%bool_decide_eq_true].
  exists old. done.
Qed.

Lemma addCourse_returns env course w w' :
  Ctx.addCourse env course w = (Return (), w') →
  w_courses w' = new_course env course :: w_courses w ∧
  courses (w_db w') = courses (w_db w) ++ [new_course env course].
Proof.
  unfold_ctx. unfold courses_insert.
  destruct (first_error _); simpl; intros; simplify_eq; done.
Qed.

(** C5 (as the code has it).  On create, [created_at] and [updated_at] of a
    blog or course are the server's [now()]: the row the context lists and
    the table stores carries the server clock in both.  On update, the
    stored [updated_at] is the reading of the browser clock that the client
    put in the payload, and [created_at] is as it was unless the caller's
    partial record carries one. *)
Theorem timestamps_server_on_create_client_on_update :
  (∀ env blog w w',
     Ctx.addBlog env blog w = (Return (), w') →
     ∃ data, w_blogs w' = data :: w_blogs w ∧ data ∈ blogs (w_db w') ∧
             Blog.created_at data = now env ∧ Blog.updated_at data = now env) ∧
  (∀ env course w w',
     Ctx.addCourse env course w = (Return (), w') →
     ∃ data, w_courses w' = data :: w_courses w ∧ data ∈ courses (w_db w') ∧
             Course.created_at data = now env ∧ Course.updated_at data = now env) ∧
  (∀ env id p w w',
     Ctx.updateBlog env id p w = (Return (), w') →
     ∃ old data,
       old ∈ blogs (w_db w) ∧ Blog.id old = id ∧ data ∈ blogs (w_db w') ∧
       Blog.updated_at data = date_now env ∧
       Blog.created_at data = default (Blog.created_at old) (Blog.p_created_at p) ∧
       ∃ payload, last (w_requests w') = Some (UpdateBlogById id payload) ∧
                  Blog.p_updated_at payload = Some (date_now env)) ∧
  (∀ env id p w w',
     Ctx.updateCourse env id p w = (Return (), w') →
     ∃ old data,
       old ∈ courses (w_db w) ∧ Course.id old = id ∧ data ∈ courses (w_db w') ∧
       Course.updated_at data = date_now env ∧
       Course.created_at data = default (Course.created_at old) (Course.p_created_at p) ∧
       ∃ payload, last (w_requests w') = Some (UpdateCourseById id payload) ∧
                  Course.p_updated_at payload = Some (date_now env)).
Proof.
  repeat split.
  - intros env blog w w' (_ & Hlist & _ & Htbl)%addBlog_returns.
    exists (new_blog env blog). rewrite Htbl. repeat split; [done|].
    apply elem_of_app. right. apply list_elem_of_here.
  - intros env course w w' [Hlist Htbl]%addCourse_returns.
    exists (new_course env course). rewrite Htbl. repeat split; [done|].
    apply elem_of_app. right. apply list_elem_of_here.
  - intros env id p w w' (old & Hin & Hid & Hnew & _ & Hreq)%updateBlog_returns.
    exists old, (set_blog (Blog.with_updated_at p (date_now env)) old).
    repeat split; [done..|].
    eexists. rewrite Hreq, last_snoc. done.
  - intros env id p w w' (old & Hin & Hid & Hnew & _ & Hreq)%updateCourse_returns.
    exists old, (set_course (Course.with_updated_at p (date_now env)) old).
    repeat split; [done..|].
    eexists. rewrite Hreq, last_snoc. done.
Qed.

(** C5, an update whose [updated_at] is not the server's: the blogs page
    saves an edit of the first sample blog while the browser clock reads
    4000 and the server clock 5000.  The request carries [updated_at = 4000]
    and the stored row has it. *)
Lemma update_stores_client_clock :
  let env := Sample.env "" in
  let id := Blog.id Sample.blog1 in
  let w' := (Ctx.updateBlog env id
               (Blog.partial_of_input (BlogsPage.blogData Sample.form)) Sample.world).2 in
  now env = 5000%Z ∧
  (∃ payload, w_requests w' = [UpdateBlogById id payload] ∧
              Blog.p_updated_at payload = Some 4000%Z) ∧
  (∀ b, b ∈ blogs (w_db w') → Blog.id b = id → Blog.updated_at b = 4000%Z) ∧
  (∃ b, b ∈ blogs (w_db w') ∧ Blog.id b = id ∧ Blog.updated_at b ≠ now env).
Proof.
  vm_compute. split; [done|]. split; [by eexists|]. split.
  - intros b Hb Hid. apply elem_of_cons in Hb as [->|Hb]; [done|].
    apply elem_of_cons in Hb as [->|Hb]; [done|]. by apply not_elem_of_nil in Hb.
  - eexists. split; [apply list_elem_of_here|]. done.
Qed.

Lemma timestamps_server_on_create_client_on_update_witness :
  (∃ data,
     w_blogs (Ctx.addBlog (Sample.env "b3") (BlogsPage.blogData Sample.form) Sample.world).2
       = data :: w_blogs Sample.world ∧
     data ∈ blogs (w_db (Ctx.addBlog (Sample.env "b3") (BlogsPage.blogData Sample.form) Sample.world).2) ∧
     Blog.created_at data = 5000%Z ∧ Blog.updated_at data = 5000%Z) ∧
  (∃ old data,
     old ∈ blogs (w_db Sample.world) ∧ Blog.id old = Blog.id Sample.blog1 ∧
     data ∈ blogs (w_db (Ctx.updateBlog (Sample.env "") (Blog.id Sample.blog1)
                           (Blog.partial_of_input (BlogsPage.blogData Sample.form))
                           Sample.world).2) ∧
     Blog.updated_at data = 4000%Z ∧
     Blog.created_at data = default (Blog.created_at old) None ∧
     ∃ payload,
       last (w_requests (Ctx.updateBlog (Sample.env "") (Blog.id Sample.blog1)
                           (Blog.partial_of_input (BlogsPage.blogData Sample.form))
                           Sample.world).2)
         = Some (UpdateBlogById (Blog.id Sample.blog1) payload) ∧
       Blog.p_updated_at payload = Some 4000%Z).
Proof.
  destruct timestamps_server_on_create_client_on_update as (Hadd & _ & Hupd & _).
  split.
  - apply (Hadd (Sample.env "b3") (BlogsPage.blogData Sample.form) Sample.world).
    reflexivity.
  - apply (Hupd (Sample.env "") (Blog.id Sample.blog1)
             (Blog.partial_of_input (BlogsPage.blogData Sample.form)) Sample.world).
    reflexivity.
Defined.

(* ===================================================================== *)
(** * Failures at the call sites *)
(* ===================================================================== *)

(** The call site pattern: the operation rethrew [e]; the handler logs it
    and alerts. *)
Lemma caught_and_alerted env o w e label message :
  Ctx.backend_error env o w = Some e →
  failure_handled e message (Ctx.request env o) w
    (try_catch (Ctx.run env o)
       (λ error, console_error label error;; alert message) w).
Proof.
  intros [l Hrun]%run_error. unfold try_catch. rewrite Hrun.
  unfold failure_handled, mbind, M_bind, bind, console_error, alert, modify. simpl.
  split; [done|]. split; [|done].
  exists l. apply elem_of_app. left. apply elem_of_app. right. apply list_elem_of_here.
Qed.

(** C7.  When the backend answers an add, update or delete of a blog or a
    course with an error, the page handler that started the operation
    catches it: the handler returns normally, the error is in the console,
    the user gets one fixed message in an alert (the page's own text,
    whatever the error), and exactly one request was sent (nothing is
    retried). *)
Theorem backend_errors_caught_logged_alerted env w e :
  (w_editingBlog w = None →
   Ctx.backend_error env (Ctx.AddBlog (BlogsPage.blogData (w_formData w))) w = Some e →
   failure_handled e "Error saving blog. Please try again."
     (InsertBlog (BlogsPage.blogData (w_formData w))) w
     (BlogsPage.handleSubmit env w)) ∧
  (∀ editing,
     w_editingBlog w = Some editing →
     let o := Ctx.UpdateBlog (Blog.id editing)
                (Blog.partial_of_input (BlogsPage.blogData (w_formData w))) in
     Ctx.backend_error env o w = Some e →
     failure_handled e "Error saving blog. Please try again." (Ctx.request env o) w
       (BlogsPage.handleSubmit env w)) ∧
  (∀ id,
     Ctx.backend_error env (Ctx.DeleteBlog id) w = Some e →
     failure_handled e "Error deleting blog. Please try again." (DeleteBlogById id) w
       (BlogsPage.handleDelete env true id w)) ∧
  (∀ label message course,
     Ctx.backend_error env (Ctx.AddCourse course) w = Some e →
     failure_handled e message (InsertCourse course) w
       (CoursesPage.handleAdd label message env course w)) ∧
  (∀ label message id course,
     Ctx.backend_error env (Ctx.UpdateCourse id course) w = Some e →
     failure_handled e message (Ctx.request env (Ctx.UpdateCourse id course)) w
       (CoursesPage.handleUpdate label message env id course w)) ∧
  (∀ label message id,
     Ctx.backend_error env (Ctx.DeleteCourse id) w = Some e →
     failure_handled e message (DeleteCourseById id) w
       (CoursesPage.handleDelete label message env id w)).
Proof.
  split; [|split; [|split; [|split; [|split]]]].
  - intros Hnew [l Hrun]%run_error. simpl in Hrun.
    unfold BlogsPage.handleSubmit, try_catch, mbind, M_bind, bind, BlogsPage.get.
    rewrite Hnew, Hrun.
    unfold failure_handled, console_error, alert, modify. simpl.
    split; [done|]. split; [|done].
    exists l. apply elem_of_app. left. apply elem_of_app. right. apply list_elem_of_here.
  - intros editing Hedit o [l Hrun]%run_error. simpl in Hrun.
    unfold BlogsPage.handleSubmit, try_catch, mbind, M_bind, bind, BlogsPage.get.
    rewrite Hedit, Hrun.
    unfold failure_handled, console_error, alert, modify. simpl.
    split; [done|]. split; [|done].
    exists l. apply elem_of_app. left. apply elem_of_app. right. apply list_elem_of_here.
  - intros id H.
    apply (caught_and_alerted env (Ctx.DeleteBlog id) w e "Error deleting blog:" _ H).
  - intros label message course H.
    apply (caught_and_alerted env (Ctx.AddCourse course) w e label message H).
  - intros label message id course H.
    apply (caught_and_alerted env (Ctx.UpdateCourse id course) w e label message H).
  - intros label message id H.
    apply (caught_and_alerted env (Ctx.DeleteCourse id) w e label message H).
Qed.

Lemma backend_errors_caught_logged_alerted_witness :
  failure_handled (Failure "Failed to fetch") "Error saving blog. Please try again."
    (InsertBlog (BlogsPage.blogData (w_formData Sample.world))) Sample.world
    (BlogsPage.handleSubmit Sample.offline Sample.world) ∧
  failure_handled (Failure "Failed to fetch") "Error deleting course. Please try again."
    (DeleteCourseById (Course.id Sample.course1)) Sample.world
    (CoursesPage.handleDelete "Error deleting course:"
       "Error deleting course. Please try again."
       Sample.offline (Course.id Sample.course1) Sample.world).
Proof.
  destruct (backend_errors_caught_logged_alerted Sample.offline Sample.world
              (Failure "Failed to fetch")) as (Hadd & _ & _ & _ & _ & Hdel).
  split.
  - apply Hadd; reflexivity.
  - apply Hdel; reflexivity.
Defined.

(** What the user and the console see after a failed save. *)
Example failed_save_sample :
  let r := BlogsPage.handleSubmit Sample.offline Sample.world in
  r.1 = Return () ∧
  w_console r.2 = [("Error adding blog:", Failure "Failed to fetch");
                   ("Error saving blog:", Failure "Failed to fetch")] ∧
  w_alerts r.2 = ["Error saving blog. Please try again."] ∧
  length (w_requests r.2) = 1 ∧
  w_showModal r.2 = w_showModal Sample.world.
Proof. vm_compute. done. Qed.

(* ===================================================================== *)
(** * Search and tag filter of the blogs page *)
(* ===================================================================== *)

Section Strings.

Lemma append_nil (b : string) : "" +:+ b = b.
Proof. reflexivity. Qed.

Lemma append_cons c (a b : string) : String c a +:+ b = String c (a +:+ b).
Proof. reflexivity. Qed.

End Strings.

Section Texts.

(** [starts_with] finds exactly the texts that stand at the start. *)
Lemma starts_with_spec (s n : Js.text) :
  Js.starts_with s n = true ↔ ∃ post, s = n ++ post.
Proof.
  revert s. induction n as [|c n IH]; intros [|d s]; simpl.
  - split; [intros _; by exists [] | done].
  - split; [intros _; by exists (d :: s) | done].
  - split; [done | by intros [? ?]].
  - rewrite andb_true_iff, bool_decide_eq_true, IH. split.
    + intros [-> [post ->]]. by exists post.
    + intros [post H]. simplify_eq. split; [done | by exists post].
Qed.

(** [includes] finds exactly the needles that sit somewhere in the text. *)
Lemma includes_spec (s n : Js.text) :
  Js.includes s n = true ↔ ∃ pre post, s = pre ++ n ++ post.
Proof.
  induction s as [|c s IH].
  - change (Js.includes [] n) with (Js.starts_with [] n || false).
    rewrite orb_false_r, starts_with_spec. split.
    + intros [post H]. by exists [], post.
    + intros (pre & post & H). destruct pre; [by exists post | done].
  - change (Js.includes (c :: s) n)
      with (Js.starts_with (c :: s) n || Js.includes s n).
    rewrite orb_true_iff, starts_with_spec, IH. split.
    + intros [[post H]|(pre & post & H)].
      * by exists [], post.
      * exists (c :: pre), post. by rewrite H.
    + intros (pre & post & H). destruct pre as [|d pre].
      * left. by exists post.
      * right. exists pre, post. simpl in H. congruence.
Qed.

(** Equal code units have equal values, and the other way round. *)
Lemma code_inj (u v : Js.code_unit) : Js.code u = Js.code v → u = v.
Proof.
  assert (∀ c, (N_of_ascii c < 256)%N) as Hlt.
  { intros c. apply N_ascii_bounded. }
  destruct u as [c| | |], v as [d| | |]; simpl; intros H; try done;
    try (specialize (Hlt c); lia); try (specialize (Hlt d); lia).
  f_equal. by rewrite <- (ascii_N_embedding c), <- (ascii_N_embedding d), H.
Qed.

(** No character of the repertoire is both cased and case-ignorable, so
    the two ways of reading the condition Final_Sigma, skipping the
    case-ignorable characters first or matching them after the cased
    letter, agree. *)
Lemma cased_not_ignorable (u : Js.code_unit) :
  Js.case_ignorable u = true → Js.cased u = false.
Proof.
  destruct u as [c| | |]; [|done..].
  unfold Js.case_ignorable, Js.cased. generalize (nat_of_ascii c). intros n.
  rewrite !orb_true_iff, !Nat.eqb_eq. intros H.
  apply not_true_iff_false.
  rewrite !orb_true_iff, !andb_true_iff, !Nat.leb_le, !Nat.eqb_eq. lia.
Qed.

Lemma latin1_units (s : string) : latin1 (Js.units s).
Proof.
  unfold latin1, Js.units. apply Forall_fmap, Forall_forall.
  intros c _. by exists c.
Qed.

Lemma latin1_app (a b : Js.text) : latin1 (a ++ b) ↔ latin1 a ∧ latin1 b.
Proof. apply Forall_app. Qed.

(** Without a capital sigma the lower-case form is taken code unit by
    code unit, whatever stands in front. *)
Lemma lower_from_latin1 (before t : Js.text) :
  latin1 t → Js.lower_from before t = Js.lower_unit <$> t.
Proof.
  intros Ht. revert before. induction Ht as [|u t [c ->] _ IH]; intros before; [done|].
  simpl. by rewrite IH.
Qed.

Lemma toLowerCase_latin1 (t : Js.text) :
  latin1 t → Js.toLowerCase t = Js.lower_unit <$> t.
Proof. apply lower_from_latin1. Qed.

(** The test [lower_char] makes is the test for a capital. *)
Lemma capital_test (n : nat) :
  ((65 <=? n) && (n <=? 90)) || ((192 <=? n) && (n <=? 222) && negb (n =? 215)) = true
  ↔ capital n.
Proof.
  unfold capital.
  rewrite orb_true_iff, !andb_true_iff, negb_true_iff, !Nat.leb_le, Nat.eqb_neq. lia.
Qed.

(** The code of the lower-case form. *)
Lemma code_lower_char (c : ascii) :
  (capital (nat_of_ascii c) ∧ nat_of_ascii (Js.lower_char c) = nat_of_ascii c + 32) ∨
  (¬ capital (nat_of_ascii c) ∧ nat_of_ascii (Js.lower_char c) = nat_of_ascii c).
Proof.
  unfold Js.lower_char. cbv zeta.
  destruct (_ || _) eqn:H.
  - apply capital_test in H. left. split; [done|].
    apply nat_ascii_embedding. unfold capital in H. lia.
  - right. split; [|done]. intros Hc%capital_test. congruence.
Qed.

(** Two code units below 256 have the same lower-case form exactly when
    they are the same letter up to case. *)
Lemma lower_char_same (a b : ascii) :
  Js.lower_char a = Js.lower_char b ↔ same_letter a b.
Proof.
  transitivity (nat_of_ascii (Js.lower_char a) = nat_of_ascii (Js.lower_char b)).
  { split; [by intros -> |]. intros H.
    by rewrite <- (ascii_nat_embedding (Js.lower_char a)),
               <- (ascii_nat_embedding (Js.lower_char b)), H. }
  unfold same_letter.
  destruct (code_lower_char a) as [[Ha ->]|[Ha ->]],
           (code_lower_char b) as [[Hb ->]|[Hb ->]];
    unfold capital in *; lia.
Qed.

Lemma lower_unit_same (u v : Js.code_unit) :
  (∃ c, u = Js.Latin1 c) → (∃ c, v = Js.Latin1 c) →
  Js.lower_unit u = Js.lower_unit v ↔ same_unit u v.
Proof.
  intros [a ->] [b ->]. simpl. rewrite <- lower_char_same.
  split; [by intros [= ->] | by intros ->].
Qed.

(** For Latin-1 texts, equal lower-case forms are equality up to case. *)
Lemma lower_same_ci (a b : Js.text) :
  latin1 a → latin1 b →
  Js.lower_unit <$> a = Js.lower_unit <$> b ↔ same_ci a b.
Proof.
  intros Ha. revert b. induction Ha as [|u a Hu _ IH]; intros b Hb.
  - destruct b; split; [constructor | done | done | inversion 1].
  - destruct Hb as [|v b Hv Hb]; [split; [done | inversion 1]|].
    rewrite !fmap_cons. split.
    + intros [= Huv Hab]. constructor; [by apply lower_unit_same | by apply IH].
    + inversion 1 as [|? ? ? ? Huv Hab]; subst.
      f_equal; [by apply lower_unit_same | by apply IH].
Qed.

(** On Latin-1 texts the test of the page is containment up to case. *)
Lemma contains_ci_includes (text s : Js.text) :
  latin1 text → latin1 s →
  Js.includes (Js.toLowerCase text) (Js.toLowerCase s) = true ↔ contains_ci text s.
Proof.
  intros Ht Hs. rewrite includes_spec, !toLowerCase_latin1 by done.
  unfold contains_ci. split.
  - intros (pre & post & H).
    apply fmap_app_inv in H as (before & rest & -> & H & ->).
    symmetry in H. apply fmap_app_inv in H as (part & after & Hpart & -> & ->).
    apply latin1_app in Ht as [_ Ht]. apply latin1_app in Ht as [Ht _].
    exists before, part, after. split; [done|]. by apply lower_same_ci.
  - intros (before & part & after & -> & H).
    apply latin1_app in Ht as [_ Ht]. apply latin1_app in Ht as [Ht _].
    exists (Js.lower_unit <$> before), (Js.lower_unit <$> after).
    rewrite !fmap_app. do 2 f_equal. by apply lower_same_ci.
Qed.

Lemma contains_ci_empty (text : Js.text) : contains_ci text [].
Proof. exists [], [], text. split; [done | constructor]. Qed.

End Texts.

(** What [toLowerCase] makes of a capital sigma depends on what stands
    around it. *)
Example toLowerCase_samples :
  Js.toLowerCase (Js.units "Hello, World") = Js.units "hello, world" ∧
  Js.toLowerCase [Js.CapitalSigma] = [Js.SmallSigma] ∧
  Js.toLowerCase [Js.Latin1 "A"; Js.CapitalSigma] = [Js.Latin1 "a"; Js.FinalSigma] ∧
  Js.toLowerCase [Js.Latin1 "A"; Js.CapitalSigma; Js.Latin1 "B"]
    = [Js.Latin1 "a"; Js.SmallSigma; Js.Latin1 "b"] ∧
  Js.toLowerCase [Js.Latin1 "A"; Js.Latin1 "."; Js.CapitalSigma]
    = [Js.Latin1 "a"; Js.Latin1 "."; Js.FinalSigma] ∧
  Js.toLowerCase [Js.Latin1 "A"; Js.CapitalSigma; Js.Latin1 " "; Js.Latin1 "B"]
    = [Js.Latin1 "a"; Js.FinalSigma; Js.Latin1 " "; Js.Latin1 "b"] ∧
  Js.toLowerCase [Js.Latin1 "1"; Js.CapitalSigma] = [Js.Latin1 "1"; Js.SmallSigma] ∧
  Js.toLowerCase [Js.CapitalSigma; Js.CapitalSigma] = [Js.SmallSigma; Js.FinalSigma].
Proof. vm_compute. done. Qed.

(** On Latin-1 texts the test the page makes is the one the specification
    asks for. *)
Lemma matches_wanted searchTerm selectedTag blog :
  latin1 searchTerm → latin1_blog blog →
  BlogsPage.matchesSearch searchTerm blog && BlogsPage.matchesTag selectedTag blog = true ↔
  wanted searchTerm selectedTag blog.
Proof.
  intros Hs [Ht Hn].
  unfold wanted, BlogsPage.matchesSearch, BlogsPage.matchesTag,
    Js.not_string, Js.array_includes.
  rewrite andb_true_iff, !orb_true_iff, !contains_ci_includes, !bool_decide_eq_true by done.
  done.
Qed.

(** C10 (as the code has it).  For a search term, titles and snippets made
    of code units below 256 (Basic Latin and Latin-1), the filtered list
    of the blogs page holds exactly the blogs whose title or snippet
    contains the search term when case is ignored and whose tags include
    the selected tag when one is selected: the list is walked in order
    and a blog is kept if and only if it is wanted.  An empty search term
    matches every blog, whatever its text. *)
Theorem filteredBlogs_exact searchTerm selectedTag :
  latin1 searchTerm →
  BlogsPage.filteredBlogs [] searchTerm selectedTag = [] ∧
  (∀ blog blogs,
     latin1_blog blog →
     wanted searchTerm selectedTag blog →
     BlogsPage.filteredBlogs (blog :: blogs) searchTerm selectedTag
       = blog :: BlogsPage.filteredBlogs blogs searchTerm selectedTag) ∧
  (∀ blog blogs,
     latin1_blog blog →
     ¬ wanted searchTerm selectedTag blog →
     BlogsPage.filteredBlogs (blog :: blogs) searchTerm selectedTag
       = BlogsPage.filteredBlogs blogs searchTerm selectedTag) ∧
  (∀ blogs blog,
     Forall latin1_blog blogs →
     blog ∈ BlogsPage.filteredBlogs blogs searchTerm selectedTag ↔
     blog ∈ blogs ∧ wanted searchTerm selectedTag blog) ∧
  (∀ blogs, BlogsPage.filteredBlogs blogs searchTerm selectedTag `sublist_of` blogs) ∧
  (∀ blog, wanted [] selectedTag blog ↔ (selectedTag = "" ∨ selectedTag ∈ Blog.tags blog)) ∧
  (∀ blog blogs,
     BlogsPage.filteredBlogs (blog :: blogs) [] selectedTag
     = if decide (selectedTag = "" ∨ selectedTag ∈ Blog.tags blog)
       then blog :: BlogsPage.filteredBlogs blogs [] selectedTag
       else BlogsPage.filteredBlogs blogs [] selectedTag).
Proof.
  intros Hs. unfold BlogsPage.filteredBlogs.
  split; [done|]. split; [|split; [|split; [|split; [|split]]]].
  - intros blog blogs Hb Hw. apply matches_wanted in Hw; [|done..].
    rewrite filter_cons_True; [done | by apply Is_true_true].
  - intros blog blogs Hb Hw. apply filter_cons_False.
    intros H%Is_true_true. by apply Hw, matches_wanted.
  - intros blogs blog Hall. rewrite list_elem_of_filter, Is_true_true. split.
    + intros [Hm Hin]. split; [done|].
      apply matches_wanted; [done| |done]. by eapply (proj1 (Forall_forall _ _) Hall).
    + intros [Hin Hw]. split; [|done].
      apply matches_wanted; [done| |done]. by eapply (proj1 (Forall_forall _ _) Hall).
  - intros blogs. apply sublist_filter.
  - intros blog. split; [by intros [_ ?]|].
    intros H. split; [|done]. left. apply contains_ci_empty.
  - intros blog blogs.
    assert (BlogsPage.matchesSearch [] blog = true) as Hany.
    { unfold BlogsPage.matchesSearch. apply orb_true_intro. left.
      apply includes_spec. by exists [], (Js.toLowerCase (Blog.title blog)). }
    assert (BlogsPage.matchesTag selectedTag blog = true ↔
            selectedTag = "" ∨ selectedTag ∈ Blog.tags blog) as Htag.
    { unfold BlogsPage.matchesTag, Js.not_string, Js.array_includes.
      by rewrite orb_true_iff, !bool_decide_eq_true. }
    destruct (decide _) as [Hyes|Hno].
    + rewrite filter_cons_True; [done|]. apply Is_true_true.
      rewrite Hany. by apply Htag.
    + apply filter_cons_False. intros H%Is_true_true.
      rewrite Hany in H. by apply Hno, Htag.
Qed.

Lemma filteredBlogs_exact_witness :
  BlogsPage.filteredBlogs [Sample.blog2; Sample.blog1] (Js.units "ROS") ""
  = Sample.blog2 :: BlogsPage.filteredBlogs [Sample.blog1] (Js.units "ROS") "".
Proof.
  destruct (filteredBlogs_exact (Js.units "ROS") "" (latin1_units "ROS"))
    as (_ & Hkeep & _).
  apply Hkeep.
  - split; apply latin1_units.
  - split; [|by left].
    right. exists (Js.units "Flying robots and "), (Js.units "ros"), [].
    split; [reflexivity|].
    apply lower_same_ci; [apply latin1_units.. | reflexivity].
Defined.

(** C10, a blog the page does not find although its title contains the
    search term, letter for letter: the title ends in a capital sigma,
    which [toLowerCase] turns into a final sigma there and into a small
    sigma in the search term, where it stands alone. *)
Lemma capital_sigma_not_found :
  Blog.title Cases.sigma_blog = [Js.Latin1 "A"] ++ [Js.CapitalSigma] ++ [] ∧
  wanted [Js.CapitalSigma] "" Cases.sigma_blog ∧
  (Cases.sigma_blog ∉ BlogsPage.filteredBlogs [Cases.sigma_blog] [Js.CapitalSigma] "") ∧
  BlogsPage.filteredBlogs [Cases.sigma_blog] [Js.CapitalSigma] "" = [].
Proof.
  split; [reflexivity|]. split; [|split; [|reflexivity]].
  - split; [|by left]. left. exists [Js.Latin1 "A"], [Js.CapitalSigma], [].
    split; [reflexivity|]. by repeat constructor.
  - change (BlogsPage.filteredBlogs [Cases.sigma_blog] [Js.CapitalSigma] "") with (@nil Blog.t).
    apply not_elem_of_nil.
Qed.

Example filteredBlogs_samples :
  BlogsPage.filteredBlogs [Sample.blog2; Sample.blog1] (Js.units "ros") ""
    = [Sample.blog2; Sample.blog1] ∧
  BlogsPage.filteredBlogs [Sample.blog2; Sample.blog1] (Js.units "ros") "Drones"
    = [Sample.blog2] ∧
  BlogsPage.filteredBlogs [Sample.blog2; Sample.blog1] (Js.units "STARTED") ""
    = [Sample.blog1] ∧
  BlogsPage.filteredBlogs [Sample.blog2; Sample.blog1] [] "Beginner" = [Sample.blog1] ∧
  BlogsPage.filteredBlogs [Sample.blog2; Sample.blog1] (Js.units "lidar") "" = [].
Proof. vm_compute. done. Qed.

(* ===================================================================== *)
(** * The admin secret of the sign-up page *)
(* ===================================================================== *)

Lemma validation_total s : ∃ v, validation s v.
Proof.
  destruct (decide (Signup.password (Signup.formData s)
                    = Signup.confirmPassword (Signup.formData s))) as [Heq|Hne];
    [|eexists; by apply passwords_differ].
  destruct (decide (String.length (Signup.password (Signup.formData s)) < 6)) as [Hlt|Hge];
    [eexists; by apply password_short|].
  destruct (decide (Signup.role (Signup.formData s) = Signup.admin)) as [Hadm|Hnadm];
    [|eexists; apply all_valid; [done | lia | by left]].
  destruct (decide (Signup.adminSecretKey s = Signup.ADMIN_SECRET)) as [Hkey|Hnkey].
  - eexists; apply all_valid; [done | lia | by right].
  - eexists; apply secret_wrong; [done | lia | done..].
Qed.

(** A failed validation sets its message and sends nothing; a passed one
    sends the sign-up request first. *)
Lemma handleSubmit_validation answers s v :
  validation s v →
  match v with
  | Some message =>
      Signup.error (Signup.handleSubmit answers s) = Some message ∧
      Signup.requests (Signup.handleSubmit answers s) = Signup.requests s ∧
      Signup.loading (Signup.handleSubmit answers s) = false
  | None =>
      ∃ rest,
        Signup.requests (Signup.handleSubmit answers s) =
        Signup.requests s ++
          Signup.SignUp (Signup.email (Signup.formData s))
            (Signup.password (Signup.formData s))
            (Signup.fullName (Signup.formData s))
            (Signup.role (Signup.formData s)) :: rest
  end.
Proof.
  unfold Signup.handleSubmit.
  destruct 1 as [Hne|Heq Hlt|Heq Hge Hadm Hkey|Heq Hge Hok].
  - rewrite bool_decide_eq_false_2 by done. done.
  - rewrite bool_decide_eq_true_2 by done. simpl.
    apply Nat.ltb_lt in Hlt. rewrite Hlt. done.
  - rewrite bool_decide_eq_true_2 by done. simpl.
    apply Nat.ltb_ge in Hge. rewrite Hge.
    rewrite (bool_decide_eq_true_2 _ Hadm), (bool_decide_eq_false_2 _ Hkey). done.
  - rewrite bool_decide_eq_true_2 by done. simpl.
    apply Nat.ltb_ge in Hge. rewrite Hge.
    assert (bool_decide (Signup.role (Signup.formData s) = Signup.admin) &&
            negb (bool_decide (Signup.adminSecretKey s = Signup.ADMIN_SECRET)) = false) as ->.
    { destruct Hok as [Hr|Hk].
      - by rewrite (bool_decide_eq_false_2 _ Hr).
      - rewrite (bool_decide_eq_true_2 _ Hk). apply andb_false_r. }
    destruct (Signup.signUp_answer answers) as [[[u|] session]|message]; simpl.
    + unfold Signup.after_signUp.
      destruct (Signup.profile_error answers), session; simpl;
        rewrite <- app_assoc; by eexists.
    + by exists [].
    + by exists [].
Qed.

(** C9 (as the code has it).  On a sign-up submission with role admin and a
    secret key other than the fixed string, the handler sends no sign-up and
    no profile request and ends with the message of the first validation
    that fails: 'Passwords do not match' when password and confirmation
    differ, else 'Password must be at least 6 characters long' when the
    password is shorter than that, else 'Invalid admin secret key'.
    Whenever a submission sends a request, the role is not admin or the key
    is the fixed string. *)
Theorem admin_signup_requires_secret answers s :
  (Signup.role (Signup.formData s) = Signup.admin →
   Signup.adminSecretKey s ≠ "robostaan_admin_2024" →
   Signup.requests (Signup.handleSubmit answers s) = Signup.requests s ∧
   is_Some (Signup.error (Signup.handleSubmit answers s)) ∧
   (Signup.password (Signup.formData s) ≠ Signup.confirmPassword (Signup.formData s) →
    Signup.error (Signup.handleSubmit answers s) = Some "Passwords do not match") ∧
   (Signup.password (Signup.formData s) = Signup.confirmPassword (Signup.formData s) →
    String.length (Signup.password (Signup.formData s)) < 6 →
    Signup.error (Signup.handleSubmit answers s)
      = Some "Password must be at least 6 characters long") ∧
   (Signup.password (Signup.formData s) = Signup.confirmPassword (Signup.formData s) →
    6 ≤ String.length (Signup.password (Signup.formData s)) →
    Signup.error (Signup.handleSubmit answers s) = Some "Invalid admin secret key")) ∧
  (Signup.requests (Signup.handleSubmit answers s) ≠ Signup.requests s →
   Signup.role (Signup.formData s) ≠ Signup.admin ∨
   Signup.adminSecretKey s = "robostaan_admin_2024").
Proof.
  destruct (validation_total s) as [v Hv].
  pose proof (handleSubmit_validation answers s v Hv) as H.
  split.
  - intros Hadm Hkey.
    destruct Hv as [Hne|Heq Hlt|Heq Hge _ _|Heq Hge [Hr|Hk]];
      try done; destruct H as (He & Hreq & _); rewrite He, Hreq.
    + split; [done|]. split; [by eexists|].
      split; [done|]. split; intros; done.
    + split; [done|]. split; [by eexists|].
      split; [done|]. split; [done|]. intros; lia.
    + split; [done|]. split; [by eexists|].
      split; [done|]. split; [|done]. intros; lia.
  - intros Hsent.
    destruct Hv as [Hne|Heq Hlt|Heq Hge _ _|Heq Hge Hok];
      try (destruct H as (_ & Hreq & _); done).
    done.
Qed.

(** C9, a submission with role admin and a wrong key that does not end
    with the secret-key message: the confirmation is mistyped, and the
    handler stops at the first validation. *)
Lemma wrong_key_other_message :
  Signup.role (Signup.formData Sample.intruder_typo) = Signup.admin ∧
  Signup.adminSecretKey Sample.intruder_typo ≠ "robostaan_admin_2024" ∧
  Signup.error (Signup.handleSubmit Sample.signed_up Sample.intruder_typo)
    = Some "Passwords do not match" ∧
  Signup.error (Signup.handleSubmit Sample.signed_up Sample.intruder_typo)
    ≠ Some "Invalid admin secret key".
Proof. vm_compute. done. Qed.

Lemma admin_signup_requires_secret_witness :
  Signup.requests (Signup.handleSubmit Sample.signed_up Sample.intruder) = [] ∧
  Signup.error (Signup.handleSubmit Sample.signed_up Sample.intruder)
    = Some "Invalid admin secret key" ∧
  Signup.requests (Signup.handleSubmit Sample.signed_up Sample.intruder_typo) = [] ∧
  Signup.error (Signup.handleSubmit Sample.signed_up Sample.intruder_typo)
    = Some "Passwords do not match".
Proof.
  destruct (proj1 (admin_signup_requires_secret Sample.signed_up Sample.intruder))
    as (Hreq & _ & _ & _ & Hkey); [reflexivity | vm_compute; discriminate |].
  destruct (proj1 (admin_signup_requires_secret Sample.signed_up Sample.intruder_typo))
    as (Hreq' & _ & Hdiffer & _); [reflexivity | vm_compute; discriminate |].
  split; [exact Hreq|]. split; [apply Hkey; [reflexivity | vm_compute; lia]|].
  split; [exact Hreq'|]. apply Hdiffer. vm_compute. discriminate.
Defined.

(** A well-formed sign-up of an ordinary user sends both requests. *)
Example signup_sample :
  Signup.requests (Signup.handleSubmit Sample.signed_up Sample.newcomer)
  = [ Signup.SignUp "bob@example.org" "hunter22" "Bob" Signup.user;
      Signup.InsertProfile "b0b00000-0000-4000-8000-000000000001" "bob@example.org"
        "Bob" Signup.user ] ∧
  Signup.error (Signup.handleSubmit Sample.signed_up Sample.newcomer) = None.
Proof. vm_compute. done. Qed.

(* ===================================================================== *)
(** * Admin-only controls *)
(* ===================================================================== *)

Section Trees.
Import Ui.

Lemma any_Elem p tag props children :
  any p (Elem tag props children) =
  p (Elem tag props children) || existsb (any p) children.
Proof. reflexivity. Qed.

Lemma existsb_cons_false {A} (f : A → bool) x l :
  f x = false → existsb f l = false → existsb f (x :: l) = false.
Proof. intros Hx Hl. simpl. by rewrite Hx, Hl. Qed.

Lemma existsb_fmap_false {A B} (f : B → bool) (g : A → B) (l : list A) :
  (∀ x, f (g x) = false) → existsb f (g <$> l) = false.
Proof.
  intros H. induction l as [|a l IH]; [done|].
  rewrite fmap_cons. by apply existsb_cons_false.
Qed.

End Trees.

(** Walks a tree whose shape is known and shows that no node satisfies the
    predicate; lists of children produced by a map are handled element by
    element, conditionals by cases. *)
Ltac no_node :=
  lazymatch goal with
  | |- Ui.any _ (Ui.Elem _ _ _) = false =>
      rewrite any_Elem; apply orb_false_intro; [vm_compute; reflexivity | no_nodes]
  | |- Ui.any _ Ui.Nothing = false => reflexivity
  | |- Ui.any _ (Ui.Text _) = false => reflexivity
  | |- Ui.any _ (Ui.when false _) = false => reflexivity
  | |- Ui.any _ (Ui.when ?b _) = false => destruct b; unfold Ui.when; no_node
  | |- Ui.any _ (if ?b then _ else _) = false => destruct b; no_node
  | |- Ui.any _ (match ?x with _ => _ end) = false => destruct x; no_node
  end
with no_nodes :=
  lazymatch goal with
  | |- existsb _ [] = false => reflexivity
  | |- existsb _ (_ :: _) = false => apply existsb_cons_false; [no_node | no_nodes]
  | |- existsb _ (_ <$> _) = false =>
      apply existsb_fmap_false; intros; cbv beta; no_node
  end.

(** The flag is the comparison of the role with 'admin'. *)
Lemma isAdmin_role auth :
  Auth.isAdmin auth = true ↔ ∃ p, Auth.profile auth = Some p ∧ Auth.role p = "admin".
Proof.
  unfold Auth.isAdmin. destruct (Auth.profile auth) as [p|].
  - rewrite bool_decide_eq_true. split; [by exists p | by intros (? & [= <-] & ?)].
  - split; [done | by intros (? & ? & _)].
Qed.

(** With the flag off, the blogs page has no Add Blog button. *)
Lemma blogs_page_without_flag auth w :
  Auth.isAdmin auth = false →
  BlogsPage.shows_add_blog (BlogsPage.render auth w) = false.
Proof.
  intros Hflag.
  unfold BlogsPage.shows_add_blog, BlogsPage.render, Ui.has_handler, Ui.has_labelled.
  rewrite Hflag.
  unfold BlogsPage.modal, BlogsPage.empty_state, BlogsPage.card, BlogsPage.labelled,
    BlogsPage.text_input.
  destruct (bool_decide (is_Some (w_editingBlog w)));
    apply orb_false_intro; no_node.
Qed.

(** With the flag off, a course card has no edit and no delete button. *)
Lemma course_card_without_flag auth course :
  Auth.isAdmin auth = false →
  CourseCard.shows_admin_controls (CourseCard.render auth course) = false.
Proof.
  intros Hflag.
  unfold CourseCard.shows_admin_controls, CourseCard.render,
    Ui.has_handler, Ui.has_tag.
  rewrite Hflag.
  apply orb_false_intro; [apply orb_false_intro|]; no_node.
Qed.

(** With the flag off, the profile menu has no Admin Panel link. *)
Lemma profile_menu_without_flag auth isOpen :
  Auth.isAdmin auth = false →
  UserProfile.shows_admin_link (UserProfile.render auth isOpen) = false.
Proof.
  intros Hflag.
  unfold UserProfile.shows_admin_link, UserProfile.render, Ui.has_link, Ui.has_labelled.
  rewrite Hflag.
  unfold UserProfile.menu_link, UserProfile.avatar.
  destruct (Auth.user auth), (Auth.profile auth);
    apply orb_false_intro; try reflexivity; no_node.
Qed.

(** C1.  In a state where the role of the authenticated profile is not
    'admin' (or there is no profile), the admin flag is off and no render
    produces an admin-only control: the blogs page has no Add Blog button,
    a course card has no edit and no delete button, and the profile menu
    has no Admin Panel link.  The flag is one comparison of the role
    string. *)
Theorem admin_controls_hidden auth :
  (∀ p, Auth.profile auth = Some p → Auth.role p ≠ "admin") →
  Auth.isAdmin auth = false ∧
  (∀ w, BlogsPage.shows_add_blog (BlogsPage.render auth w) = false) ∧
  (∀ course, CourseCard.shows_admin_controls (CourseCard.render auth course) = false) ∧
  (∀ isOpen, UserProfile.shows_admin_link (UserProfile.render auth isOpen) = false).
Proof.
  intros Hrole.
  assert (Auth.isAdmin auth = false) as Hflag.
  { unfold Auth.isAdmin. destruct (Auth.profile auth) as [p|]; [|done].
    apply bool_decide_eq_false_2. by apply Hrole. }
  split; [done|]. split; [|split].
  - intros w. by apply blogs_page_without_flag.
  - intros course. by apply course_card_without_flag.
  - intros isOpen. by apply profile_menu_without_flag.
Qed.

Lemma admin_controls_hidden_witness :
  Auth.isAdmin Sample.member = false ∧
  (∀ w, BlogsPage.shows_add_blog (BlogsPage.render Sample.member w) = false) ∧
  (∀ course,
     CourseCard.shows_admin_controls (CourseCard.render Sample.member course) = false) ∧
  (∀ isOpen,
     UserProfile.shows_admin_link (UserProfile.render Sample.member isOpen) = false).
Proof.
  apply (admin_controls_hidden Sample.member).
  intros p Hp. vm_compute in Hp. injection Hp as <-. vm_compute. discriminate.
Defined.

(** The controls are there for an administrator: the gates hide them, the
    predicates do see them. *)
Example admin_controls_shown :
  BlogsPage.shows_add_blog (BlogsPage.render Sample.administrator Sample.world) = true ∧
  CourseCard.shows_admin_controls
    (CourseCard.render Sample.administrator Sample.course1) = true ∧
  UserProfile.shows_admin_link (UserProfile.render Sample.administrator true) = true ∧
  UserProfile.shows_admin_link (UserProfile.render Sample.administrator false) = false.
Proof. vm_compute. done. Qed.

(** A tag or a name that reads like a control is no control. *)
Example lookalike_text_is_no_control :
  let blog := Blog.mk "b" (Js.units "Add Blog") "" (Js.units "Add Blog") "" ["Add Blog"] ""
                false 0%Z 0%Z in
  let w := mkWorld [blog] [] false [] "" false None BlogForm.empty [] [] [] Sample.db in
  Ui.has_text "Add Blog" (BlogsPage.render Sample.member w) = true ∧
  BlogsPage.shows_add_blog (BlogsPage.render Sample.member w) = false.
Proof. vm_compute. done. Qed.

(* ===================================================================== *)
(** * The tags of the blog form *)
(* ===================================================================== *)

Section Tags.

Lemma chars_cons c s : chars (String c s) = c :: chars s.
Proof. reflexivity. Qed.

Lemma chars_app a b : chars (a +:+ b) = chars a ++ chars b.
Proof.
  induction a as [|c a IH]; [done|].
  rewrite append_cons, !chars_cons, IH. done.
Qed.

(** No piece of a split contains the separator. *)
Lemma split_no_separator sep s p : p ∈ Js.split sep s → sep ∉ chars p.
Proof.
  revert p. induction s as [|c s IH]; intros p; simpl.
  - intros ->%list_elem_of_singleton. apply not_elem_of_nil.
  - destruct (decide (c = sep)) as [->|Hne].
    + intros [->|Hp]%elem_of_cons; [apply not_elem_of_nil | by apply IH].
    + destruct (Js.split sep s) as [|w ws] eqn:Hs.
      * intros ->%list_elem_of_singleton. rewrite chars_cons.
        intros [?|?%not_elem_of_nil]%elem_of_cons; [congruence | done].
      * intros [->|Hp]%elem_of_cons.
        -- rewrite chars_cons. intros [?|Hin]%elem_of_cons; [congruence|].
           revert Hin. apply IH. left.
        -- apply IH. by right.
Qed.

Lemma trimStart_chars s c : c ∈ chars (Js.trimStart s) → c ∈ chars s.
Proof.
  induction s as [|d s IH]; simpl; [done|].
  destruct (Js.is_space d); [|done].
  intros H. rewrite chars_cons. right. by apply IH.
Qed.

Lemma trimEnd_chars s c : c ∈ chars (Js.trimEnd s) → c ∈ chars s.
Proof.
  revert c. induction s as [|d s IH]; intros c; simpl; [done|].
  destruct (Js.trimEnd s) as [|e r] eqn:Hr.
  - destruct (Js.is_space d); [by intros ?%not_elem_of_nil|].
    rewrite !chars_cons. intros [->|?%not_elem_of_nil]%elem_of_cons; [left | done].
  - rewrite !chars_cons. intros [->|H]%elem_of_cons; [left|].
    right. apply IH. by rewrite chars_cons.
Qed.

Lemma trim_chars s c : c ∈ chars (Js.trim s) → c ∈ chars s.
Proof. unfold Js.trim. intros H%trimEnd_chars. by apply trimStart_chars. Qed.

Lemma trimStart_head s c : head (chars (Js.trimStart s)) = Some c → Js.is_space c = false.
Proof.
  induction s as [|d s IH]; simpl; [done|].
  destruct (Js.is_space d) eqn:Hd; [done|].
  rewrite chars_cons. simpl. congruence.
Qed.

(** What [trimEnd] keeps starts as the string does. *)
Lemma trimEnd_head s c : head (chars (Js.trimEnd s)) = Some c → head (chars s) = Some c.
Proof.
  destruct s as [|d s]; simpl; [done|].
  destruct (Js.trimEnd s); [destruct (Js.is_space d)|]; done.
Qed.

Lemma trimEnd_last s c : last (chars (Js.trimEnd s)) = Some c → Js.is_space c = false.
Proof.
  induction s as [|d s IH]; simpl; [done|].
  destruct (Js.trimEnd s) as [|e r] eqn:Hr.
  - destruct (Js.is_space d) eqn:Hd; [done|].
    rewrite chars_cons. simpl. congruence.
  - rewrite chars_cons. rewrite chars_cons in IH.
    change (last (d :: e :: chars r)) with (last (e :: chars r)). done.
Qed.

Lemma trimStart_id s :
  (∀ c, head (chars s) = Some c → Js.is_space c = false) → Js.trimStart s = s.
Proof.
  destruct s as [|d s]; [done|]. intros H. simpl.
  by rewrite (H d).
Qed.

Lemma trimEnd_id s :
  (∀ c, last (chars s) = Some c → Js.is_space c = false) → Js.trimEnd s = s.
Proof.
  induction s as [|d s IH]; [done|]. intros H. simpl.
  destruct s as [|e s].
  - simpl. by rewrite (H d).
  - rewrite IH; [done|]. intros c Hc. apply H.
    by rewrite !chars_cons in *.
Qed.

Lemma clean_tag_trim t : clean_tag t → Js.trim t = t.
Proof.
  intros (_ & _ & Hh & Hl). unfold Js.trim.
  rewrite trimStart_id by done. by apply trimEnd_id.
Qed.

(** X1.  Whatever is typed into the tags field of the blog form, every tag
    [handleSubmit] sends is not empty, holds no comma and has no white
    space at either end. *)
Theorem parse_tags_clean text :
  Forall clean_tag (BlogsPage.parse_tags text).
Proof.
  apply Forall_forall. intros t Ht. unfold BlogsPage.parse_tags in Ht.
  apply list_elem_of_filter in Ht as [Hne Ht].
  apply list_elem_of_fmap in Ht as (p & -> & Hp).
  split; [|split; [|split]].
  - intros H. rewrite H in Hne. done.
  - intros Hc%trim_chars. by apply split_no_separator in Hp.
  - intros c Hc. unfold Js.trim in Hc.
    apply trimEnd_head in Hc. by apply trimStart_head in Hc.
  - intros c Hc. by apply trimEnd_last in Hc.
Qed.

(** A piece without separator is not split. *)
Lemma split_whole sep s : sep ∉ chars s → Js.split sep s = [s].
Proof.
  induction s as [|c s IH]; [done|]. rewrite chars_cons. intros H.
  apply not_elem_of_cons in H as [Hc Hs]. simpl.
  rewrite decide_False by done. by rewrite IH.
Qed.

Lemma split_cons_other sep c s :
  c ≠ sep →
  Js.split sep (String c s) =
  match Js.split sep s with
  | [] => [String c EmptyString]
  | w :: ws => String c w :: ws
  end.
Proof. intros H. simpl. by rewrite decide_False. Qed.

(** Splitting goes piece by piece. *)
Lemma split_app sep a b :
  sep ∉ chars a → Js.split sep (a +:+ String sep b) = a :: Js.split sep b.
Proof.
  induction a as [|c a IH]; intros H.
  - rewrite append_nil. simpl. by rewrite decide_True.
  - rewrite chars_cons in H. apply not_elem_of_cons in H as [Hc Ha].
    rewrite append_cons, split_cons_other, IH by done. done.
Qed.

Lemma split_join t rest :
  Forall clean_tag (t :: rest) →
  Js.split comma (BlogsPage.join_tags (t :: rest)) = t :: ((λ u, " " +:+ u) <$> rest).
Proof.
  revert t. induction rest as [|u rest IH]; intros t Hall.
  - apply Forall_cons in Hall as [(_ & Hc & _) _]. by apply split_whole.
  - apply Forall_cons in Hall as [(_ & Hc & _) Hrest].
    change (BlogsPage.join_tags (t :: u :: rest))
      with (t +:+ String comma (String " " (BlogsPage.join_tags (u :: rest)))).
    rewrite split_app, split_cons_other, IH by done. done.
Qed.

Lemma trim_space_clean u : clean_tag u → Js.trim (" " +:+ u) = u.
Proof. intros H. unfold Js.trim. simpl. by apply clean_tag_trim. Qed.

(** Joining and splitting again gives tags of that shape back. *)
Lemma join_then_parse tags :
  Forall clean_tag tags → BlogsPage.parse_tags (BlogsPage.join_tags tags) = tags.
Proof.
  destruct tags as [|t rest]; [done|]. intros Hall.
  unfold BlogsPage.parse_tags.
  change (Js.split ",") with (Js.split comma). rewrite split_join by done.
  apply Forall_cons in Hall as [Ht Hrest].
  rewrite fmap_cons, clean_tag_trim by done.
  rewrite filter_cons_True.
  2:{ destruct Ht as [Hne _]. unfold Js.not_string.
      rewrite bool_decide_eq_false_2 by done. done. }
  f_equal.
  induction Hrest as [|u rest Hu Hrest IH]; [done|].
  rewrite !fmap_cons. rewrite trim_space_clean by done.
  rewrite filter_cons_True, IH; [done|].
  destruct Hu as [Hne _]. unfold Js.not_string.
  rewrite bool_decide_eq_false_2 by done. done.
Qed.

(** X2.  Tags of that shape survive the editor: joined as [handleEdit]
    fills the form and split again as [handleSubmit] reads it, the list
    comes back as it was. *)
Theorem parse_join_tags tags :
  Forall clean_tag tags → BlogsPage.parse_tags (BlogsPage.join_tags tags) = tags.
Proof. exact (join_then_parse tags). Qed.

End Tags.

(** A tag passes when the four tests on its characters do. *)
Lemma clean_tag_by_test t :
  t ≠ "" → bool_decide (comma ∉ chars t) = true →
  (match head (chars t) with Some c => Js.is_space c | None => false end) = false →
  (match last (chars t) with Some c => Js.is_space c | None => false end) = false →
  clean_tag t.
Proof.
  intros Hne Hc Hh Hl. split; [done|]. split; [by apply bool_decide_eq_true in Hc|].
  split; intros c Hc'; [by rewrite Hc' in Hh | by rewrite Hc' in Hl].
Qed.

(** The tags of the first sample blog have that shape. *)
Lemma sample_tags_clean : Forall clean_tag (Blog.tags Sample.blog1).
Proof.
  apply Forall_cons; split; [by apply clean_tag_by_test|].
  apply Forall_cons; split; [by apply clean_tag_by_test|].
  apply Forall_nil_2.
Qed.

Lemma parse_join_tags_witness :
  BlogsPage.parse_tags (BlogsPage.join_tags (Blog.tags Sample.blog1))
  = Blog.tags Sample.blog1.
Proof.
  apply (parse_join_tags (Blog.tags Sample.blog1)). apply sample_tags_clean.
Defined.

(** A tag with a comma inside, or with blanks around it, does not survive
    the editor. *)
Example edit_splits_comma_tag :
  BlogsPage.parse_tags (BlogsPage.join_tags ["ROS, Gazebo"; " AI "]) = ["ROS"; "Gazebo"; "AI"].
Proof. reflexivity. Qed.

(* ===================================================================== *)
(** * The tag filter of the blogs page *)
(* ===================================================================== *)

(** What [unique_from] keeps: every element once, those already seen left
    out. *)
Lemma unique_from_spec xs : ∀ seen,
  NoDup (BlogsPage.unique_from seen xs) ∧
  ∀ x, x ∈ BlogsPage.unique_from seen xs ↔ x ∈ xs ∧ x ∉ seen.
Proof.
  induction xs as [|a xs IH]; intros seen; simpl.
  - split; [constructor|]. intros x. split; [by intros ?%not_elem_of_nil|].
    by intros [?%not_elem_of_nil _].
  - destruct (decide (a ∈ seen)) as [Ha|Ha].
    + destruct (IH seen) as [Hnd Hin]. split; [done|].
      intros x. rewrite Hin, elem_of_cons. split; [tauto|].
      intros [[->|Hx] Hs]; [done | tauto].
    + destruct (IH (a :: seen)) as [Hnd Hin]. split.
      * apply NoDup_cons. split; [|done]. rewrite Hin, elem_of_cons. tauto.
      * intros x. rewrite !elem_of_cons, Hin, elem_of_cons.
        split; [intros [->|[Hx Hs]]; [tauto|] | intros [[->|Hx] Hs]].
        -- split; [by right|]. tauto.
        -- by left.
        -- destruct (decide (x = a)) as [->|Hne]; [by left | right; tauto].
Qed.

(** X3.  The tags offered by the filter of the blogs page ([allTags]) are
    pairwise distinct, and a tag is offered exactly when some loaded blog
    carries it. *)
Theorem allTags_distinct_and_complete blogs :
  NoDup (BlogsPage.allTags blogs) ∧
  ∀ tag, tag ∈ BlogsPage.allTags blogs ↔ ∃ blog, blog ∈ blogs ∧ tag ∈ Blog.tags blog.
Proof.
  unfold BlogsPage.allTags.
  destruct (unique_from_spec (mjoin (Blog.tags <$> blogs)) []) as [Hnd Hin].
  split; [done|]. intros tag. rewrite Hin, list_elem_of_join. split.
  - intros [(l & Htag & (b & -> & Hb)%list_elem_of_fmap) _]. by exists b.
  - intros (b & Hb & Htag). split; [|apply not_elem_of_nil].
    exists (Blog.tags b). split; [done|]. apply list_elem_of_fmap. by exists b.
Qed.

(* ===================================================================== *)
(** * The handlers of the blogs page *)
(* ===================================================================== *)

(** The context ends as the backend answers, and leaves the page alone. *)
Lemma run_outcome env o w :
  (Ctx.run env o w).1 =
  match Ctx.backend_error env o w with Some e => Throw e | None => Return () end.
Proof.
  destruct (Ctx.backend_error env o w) as [e|] eqn:H.
  - apply run_error in H as [l ->]. done.
  - revert H. unfold Ctx.backend_error.
    destruct o; simpl; unfold status; unfold_ctx;
      match goal with
      | |- context [(?call env ?a (w_db w)).1] =>
          destruct (call env a (w_db w)) as [[data|e'] db'] eqn:Hcall
      | |- context [(?call env ?a ?b (w_db w)).1] =>
          destruct (call env a b (w_db w)) as [[data|e'] db'] eqn:Hcall
      end; simpl; intros; simplify_eq; done.
Qed.

Lemma run_frame env o w :
  let w' := (Ctx.run env o w).2 in
  w_loading w' = w_loading w ∧ w_searchTerm w' = w_searchTerm w ∧
  w_selectedTag w' = w_selectedTag w ∧ page_state w' = page_state w ∧
  w_alerts w' = w_alerts w ∧
  w_requests w' = w_requests w ++ [Ctx.request env o] ∧
  w_db w' = (exec env (Ctx.request env o) (w_db w)).2.
Proof.
  destruct o; simpl; unfold status; unfold_ctx;
    match goal with
    | |- context [(?call env ?a (w_db w)).1] =>
        destruct (call env a (w_db w)) as [[data|e'] db'] eqn:Hcall
    | |- context [(?call env ?a ?b (w_db w)).1] =>
        destruct (call env a b (w_db w)) as [[data|e'] db'] eqn:Hcall
    end; simpl; done.
Qed.

(** What [handleSubmit] does, by the answer of the backend. *)
Lemma handleSubmit_runs env w :
  let r := BlogsPage.handleSubmit env w in
  r.1 = Return () ∧
  w_requests r.2 = w_requests w ++ [Ctx.request env (submitted w)] ∧
  match Ctx.backend_error env (submitted w) w with
  | None =>
      page_state r.2 = (false, None, BlogForm.empty) ∧
      w_blogs r.2 = w_blogs (Ctx.run env (submitted w) w).2 ∧
      w_alerts r.2 = w_alerts w ∧ w_console r.2 = w_console w
  | Some e =>
      page_state r.2 = page_state w ∧
      w_blogs r.2 = w_blogs w ∧
      w_alerts r.2 = w_alerts w ++ ["Error saving blog. Please try again."]
  end.
Proof.
  pose proof (run_outcome env (submitted w) w) as Hout.
  pose proof (run_frame env (submitted w) w) as (_ & _ & _ & Hpage & Hal & Hreq & _).
  assert (BlogsPage.handleSubmit env w =
          match Ctx.run env (submitted w) w with
          | (Return _, w1) =>
              (Return (),
               mkWorld (w_blogs w1) (w_courses w1) (w_loading w1) (w_searchTerm w1)
                 (w_selectedTag w1) false None BlogForm.empty
                 (w_console w1) (w_alerts w1) (w_requests w1) (w_db w1))
          | (Throw e, w1) =>
              (Return (),
               mkWorld (w_blogs w1) (w_courses w1) (w_loading w1) (w_searchTerm w1)
                 (w_selectedTag w1) (w_showModal w1) (w_editingBlog w1) (w_formData w1)
                 (w_console w1 ++ [("Error saving blog:", e)])
                 (w_alerts w1 ++ ["Error saving blog. Please try again."])
                 (w_requests w1) (w_db w1))
          end) as ->.
  { unfold BlogsPage.handleSubmit, submitted, try_catch, mbind, M_bind, bind, BlogsPage.get.
    destruct (w_editingBlog w) as [editing|]; cbv beta iota.
    - change (Ctx.run env (Ctx.UpdateBlog ?a ?b) w) with (Ctx.updateBlog env a b w).
      destruct (Ctx.updateBlog env _ _ w) as [[[]|e] w1]; reflexivity.
    - change (Ctx.run env (Ctx.AddBlog ?b) w) with (Ctx.addBlog env b w).
      destruct (Ctx.addBlog env _ w) as [[[]|e] w1]; reflexivity. }
  destruct (Ctx.backend_error env (submitted w) w) as [e|] eqn:Hbk.
  - destruct (run_error _ _ _ _ Hbk) as [l Hrun]. rewrite Hrun. simpl. done.
  - destruct (Ctx.run env (submitted w) w) as [[[]|e] w1] eqn:Hrun; simpl in *; [|done].
    apply run_ok_frame in Hrun as (_ & _ & Hreq' & Hcon & Hal').
    unfold page_state in *. simpl. rewrite Hreq', Hcon, Hal'. done.
Qed.

(** X4.  [handleSubmit] of the blogs page never throws and sends exactly one
    request: an update of the blog being edited, else an insert.  When the
    backend accepts it the modal closes, the edited blog is forgotten and
    the form is emptied, with no alert; when it fails, modal, edited blog,
    form and list stay as they were and the user gets one alert. *)
Theorem handleSubmit_outcome env w :
  let r := BlogsPage.handleSubmit env w in
  r.1 = Return () ∧
  w_requests r.2 = w_requests w ++ [Ctx.request env (submitted w)] ∧
  match Ctx.backend_error env (submitted w) w with
  | None =>
      page_state r.2 = (false, None, BlogForm.empty) ∧
      w_blogs r.2 = w_blogs (Ctx.run env (submitted w) w).2 ∧
      w_alerts r.2 = w_alerts w ∧ w_console r.2 = w_console w
  | Some e =>
      page_state r.2 = page_state w ∧
      w_blogs r.2 = w_blogs w ∧
      w_alerts r.2 = w_alerts w ++ ["Error saving blog. Please try again."]
  end.
Proof. exact (handleSubmit_runs env w). Qed.

(** X5.  [handleDelete] of the blogs page never throws.  Without the user's
    confirmation it changes nothing and sends nothing; with it, it sends
    exactly one delete request, and the blog leaves the list exactly when
    the backend reported no error, an alert being shown otherwise. *)
Theorem handleDelete_outcome env confirmed id w :
  let r := BlogsPage.handleDelete env confirmed id w in
  r.1 = Return () ∧
  (confirmed = false → r.2 = w) ∧
  (confirmed = true →
   w_requests r.2 = w_requests w ++ [DeleteBlogById id] ∧
   match Ctx.backend_error env (Ctx.DeleteBlog id) w with
   | None =>
       w_blogs r.2 = filter (λ blog, Blog.id blog ≠ id) (w_blogs w) ∧
       w_alerts r.2 = w_alerts w
   | Some e =>
       w_blogs r.2 = w_blogs w ∧
       w_alerts r.2 = w_alerts w ++ ["Error deleting blog. Please try again."]
   end).
Proof.
  cbv zeta. destruct confirmed.
  - change (BlogsPage.handleDelete env true id w)
      with (try_catch (Ctx.run env (Ctx.DeleteBlog id))
              (λ error, console_error "Error deleting blog:" error;;
                        alert "Error deleting blog. Please try again.") w).
    destruct (Ctx.backend_error env (Ctx.DeleteBlog id) w) as [e|] eqn:Hbk.
    + destruct (run_error _ _ _ _ Hbk) as [l Hrun].
      unfold try_catch. rewrite Hrun. simpl. done.
    + revert Hbk. unfold Ctx.backend_error, try_catch. simpl. unfold status. unfold_ctx.
      unfold blogs_delete. destruct (fault env); simpl; done.
  - done.
Qed.

(** X6.  Opening a blog in the editor and saving without a change sends one
    update of that blog whose payload, applied to the blog, changes
    nothing but [updated_at], which becomes the browser's clock; this
    needs the blog's tags to be of the shape the form produces. *)
Theorem edit_then_save_unchanged env blog w :
  Forall clean_tag (Blog.tags blog) →
  let opened := (BlogsPage.handleEdit blog w).2 in
  w_showModal opened = true ∧ w_editingBlog opened = Some blog ∧
  ∃ payload,
    w_requests (BlogsPage.handleSubmit env opened).2
      = w_requests w ++ [UpdateBlogById (Blog.id blog) payload] ∧
    set_blog payload blog = touch (date_now env) blog.
Proof.
  intros Hclean opened.
  assert (opened =
          mkWorld (w_blogs w) (w_courses w) (w_loading w) (w_searchTerm w)
            (w_selectedTag w) true (Some blog)
            (BlogForm.mk (Blog.title blog) (Blog.content blog) (Blog.snippet blog)
               (Blog.image blog) (BlogsPage.join_tags (Blog.tags blog))
               (Blog.author blog) (Blog.featured blog))
            (w_console w) (w_alerts w) (w_requests w) (w_db w)) as Hopened by done.
  split; [by rewrite Hopened|]. split; [by rewrite Hopened|].
  destruct (handleSubmit_runs env opened) as (_ & Hreq & _).
  rewrite Hreq, Hopened. unfold submitted. simpl.
  eexists. split; [reflexivity|].
  unfold set_blog, touch, BlogsPage.blogData. simpl.
  by rewrite join_then_parse.
Qed.

Lemma edit_then_save_unchanged_witness :
  ∃ payload,
    w_requests (BlogsPage.handleSubmit (Sample.env "")
                  (BlogsPage.handleEdit Sample.blog1 Sample.world).2).2
      = [UpdateBlogById (Blog.id Sample.blog1) payload] ∧
    set_blog payload Sample.blog1 = touch 4000%Z Sample.blog1.
Proof.
  destruct (edit_then_save_unchanged (Sample.env "") Sample.blog1 Sample.world
              sample_tags_clean) as (_ & _ & H).
  exact H.
Defined.

Lemma replace_absent {A K} `{EqDecision K} (key : A → K) (id : K) (data : A) (l : list A) :
  id ∉ key <$> l → (λ b, if decide (key b = id) then data else b) <$> l = l.
Proof.
  induction l as [|b l IH]; [done|]. rewrite fmap_cons.
  intros [Hb Hl]%not_elem_of_cons.
  rewrite fmap_cons, IH by done. by rewrite decide_False.
Qed.

Lemma filter_absent {A K} `{EqDecision K} (key : A → K) (id : K) (l : list A) :
  id ∉ key <$> l → filter (λ b, key b ≠ id) l = l.
Proof.
  induction l as [|b l IH]; [done|]. rewrite fmap_cons.
  intros [Hb Hl]%not_elem_of_cons.
  rewrite filter_cons_True by done. by rewrite IH.
Qed.

(** X7.  When [updateBlog] (or [updateCourse]) returns, the list has the row
    the backend returned at the place of every entry with that id and is
    otherwise untouched: same length, same order, and no change at all if
    no entry has the id; the other list is not touched. *)
Theorem update_replaces_in_place :
  (∀ env id p w w',
     Ctx.updateBlog env id p w = (Return (), w') →
     ∃ data,
       data ∈ blogs (w_db w') ∧
       w_blogs w' = (λ b, if decide (Blog.id b = id) then data else b) <$> w_blogs w ∧
       length (w_blogs w') = length (w_blogs w) ∧
       (id ∉ Blog.id <$> w_blogs w → w_blogs w' = w_blogs w) ∧
       w_courses w' = w_courses w) ∧
  (∀ env id p w w',
     Ctx.updateCourse env id p w = (Return (), w') →
     ∃ data,
       data ∈ courses (w_db w') ∧
       w_courses w' = (λ c, if decide (Course.id c = id) then data else c) <$> w_courses w ∧
       length (w_courses w') = length (w_courses w) ∧
       (id ∉ Course.id <$> w_courses w → w_courses w' = w_courses w) ∧
       w_blogs w' = w_blogs w).
Proof.
  split.
  - intros env id p w w' Hrun.
    pose proof (updateBlog_returns _ _ _ _ _ Hrun) as (old & _ & _ & Hnew & Hlist & _).
    eexists. split; [exact Hnew|]. split; [exact Hlist|].
    rewrite Hlist. split; [by rewrite length_fmap|]. split.
    + apply replace_absent.
    + revert Hrun. unfold_ctx. unfold blogs_update.
      destruct (first_error _); simpl; [intros; simplify_eq|].
      destruct (_ <$> filter _ _) as [|row [|? ?]]; simpl; intros; simplify_eq. done.
  - intros env id p w w' Hrun.
    pose proof (updateCourse_returns _ _ _ _ _ Hrun) as (old & _ & _ & Hnew & Hlist & _).
    eexists. split; [exact Hnew|]. split; [exact Hlist|].
    rewrite Hlist. split; [by rewrite length_fmap|]. split.
    + apply replace_absent.
    + revert Hrun. unfold_ctx. unfold courses_update.
      destruct (first_error _); simpl; [intros; simplify_eq|].
      destruct (_ <$> filter _ _) as [|row [|? ?]]; simpl; intros; simplify_eq. done.
Qed.

Lemma update_replaces_in_place_witness :
  ∃ data,
    data ∈ blogs (w_db Cases.after_update) ∧
    w_blogs Cases.after_update
      = (λ b, if decide (Blog.id b = Blog.id Sample.blog1) then data else b)
          <$> w_blogs Sample.world ∧
    length (w_blogs Cases.after_update) = length (w_blogs Sample.world) ∧
    (Blog.id Sample.blog1 ∉ Blog.id <$> w_blogs Sample.world →
     w_blogs Cases.after_update = w_blogs Sample.world) ∧
    w_courses Cases.after_update = w_courses Sample.world.
Proof.
  apply (proj1 update_replaces_in_place (Sample.env "") (Blog.id Sample.blog1)
           Cases.retitled Sample.world Cases.after_update).
  reflexivity.
Defined.

(** X8.  When [deleteBlog] returns, no blog of the list has the id, every
    other blog is still there in the same order, a list without the id is
    unchanged, and the courses are not touched. *)
Theorem deleteBlog_then_unlisted env id w w' :
  Ctx.deleteBlog env id w = (Return (), w') →
  (∀ b, b ∈ w_blogs w' → Blog.id b ≠ id) ∧
  (∀ b, Blog.id b ≠ id → b ∈ w_blogs w → b ∈ w_blogs w') ∧
  w_blogs w' `sublist_of` w_blogs w ∧
  (id ∉ Blog.id <$> w_blogs w → w_blogs w' = w_blogs w) ∧
  w_courses w' = w_courses w.
Proof.
  unfold_ctx. unfold blogs_delete.
  destruct (fault env); simpl; intros; simplify_eq. simpl.
  split; [|split; [|split; [|split]]].
  - intros b Hb. by apply list_elem_of_filter in Hb as [? _].
  - intros b Hne Hb. by apply list_elem_of_filter.
  - apply sublist_filter.
  - apply filter_absent.
  - done.
Qed.

Lemma deleteBlog_then_unlisted_witness :
  (∀ b, b ∈ w_blogs Cases.after_delete → Blog.id b ≠ Blog.id Sample.blog1) ∧
  (∀ b, Blog.id b ≠ Blog.id Sample.blog1 → b ∈ w_blogs Sample.world →
        b ∈ w_blogs Cases.after_delete) ∧
  w_blogs Cases.after_delete `sublist_of` w_blogs Sample.world ∧
  (Blog.id Sample.blog1 ∉ Blog.id <$> w_blogs Sample.world →
   w_blogs Cases.after_delete = w_blogs Sample.world) ∧
  w_courses Cases.after_delete = w_courses Sample.world.
Proof.
  apply (deleteBlog_then_unlisted (Sample.env "") (Blog.id Sample.blog1) Sample.world).
  reflexivity.
Defined.

(** X9.  When [addCourse] returns, the course the insert returned, with the
    id the database generated, is the first of the list, followed by the
    previous list; it is a row of the table, and the blogs are not
    touched. *)
Theorem addCourse_then_listed env course w w' :
  Ctx.addCourse env course w = (Return (), w') →
  ∃ data,
    (courses_insert env course (w_db w)).1 = Ok data ∧
    Course.id data = gen_random_uuid env ∧
    w_courses w' = data :: w_courses w ∧
    data ∈ courses (w_db w') ∧
    w_blogs w' = w_blogs w.
Proof.
  unfold_ctx. unfold courses_insert.
  destruct (first_error _); simpl; intros; simplify_eq. simpl.
  eexists. split; [done|]. split; [done|]. split; [done|]. split; [|done].
  apply elem_of_app. right. apply list_elem_of_here.
Qed.

(** A course sent without materials is listed with the empty array the
    column defaults to. *)
Example addCourse_default_materials :
  Course.i_materials Sample.new_course = None ∧
  Course.materials <$> w_courses Cases.after_add_course
    = [Some []; Course.materials Sample.course2; Course.materials Sample.course1].
Proof. split; reflexivity. Qed.

Lemma addCourse_then_listed_witness :
  ∃ data,
    (courses_insert (Sample.env "c3") Sample.new_course (w_db Sample.world)).1 = Ok data ∧
    Course.id data = "c3" ∧
    w_courses Cases.after_add_course = data :: w_courses Sample.world ∧
    data ∈ courses (w_db Cases.after_add_course) ∧
    w_blogs Cases.after_add_course = w_blogs Sample.world.
Proof.
  apply (addCourse_then_listed (Sample.env "c3") Sample.new_course Sample.world).
  reflexivity.
Defined.

(* ===================================================================== *)
(** * Who sees the admin controls, and the featured entries *)
(* ===================================================================== *)

Section Found.
Import Ui.

Lemma any_self p v : p v = true → any p v = true.
Proof. intros H. destruct v; simpl; rewrite H; done. Qed.

Lemma any_children p tag props children :
  existsb (any p) children = true → any p (Elem tag props children) = true.
Proof. intros H. rewrite any_Elem, H. apply orb_true_r. Qed.

Lemma existsb_here {A} (f : A → bool) x l : f x = true → existsb f (x :: l) = true.
Proof. intros H. simpl. by rewrite H. Qed.

Lemma existsb_further {A} (f : A → bool) x l :
  existsb f l = true → existsb f (x :: l) = true.
Proof. intros H. simpl. rewrite H. apply orb_true_r. Qed.

End Found.

(** Searches a tree whose shape is known for a node that satisfies the
    predicate. *)
Ltac found :=
  solve [ apply any_self; vm_compute; reflexivity
        | apply any_children; found_in ]
with found_in :=
  solve [ apply existsb_here; found
        | apply existsb_further; found_in ].

(** X10.  The three gates are exact.  The blogs page shows its add button
    exactly when the flag is on and the page is not loading; a course
    card shows its edit and delete buttons exactly when the flag is on;
    the profile menu shows the link to the admin panel exactly when the
    flag is on, the menu is open and a user is signed in. *)
Theorem admin_controls_exactly_for_admins auth :
  (∀ w, BlogsPage.shows_add_blog (BlogsPage.render auth w)
        = Auth.isAdmin auth && negb (w_loading w)) ∧
  (∀ course, CourseCard.shows_admin_controls (CourseCard.render auth course)
             = Auth.isAdmin auth) ∧
  (∀ isOpen, UserProfile.shows_admin_link (UserProfile.render auth isOpen)
             = Auth.isAdmin auth && isOpen && bool_decide (is_Some (Auth.user auth))).
Proof.
  destruct (Auth.isAdmin auth) eqn:Hflag.
  - split; [|split].
    + intros w. unfold BlogsPage.shows_add_blog, BlogsPage.render. rewrite Hflag.
      destruct (w_loading w); [reflexivity|].
      apply orb_true_intro. left. unfold Ui.has_handler, Ui.when. found.
    + intros course. unfold CourseCard.shows_admin_controls, CourseCard.render.
      rewrite Hflag. apply orb_true_intro. left. apply orb_true_intro. left.
      unfold Ui.has_handler, Ui.when. found.
    + intros isOpen. unfold UserProfile.shows_admin_link, UserProfile.render.
      rewrite Hflag. unfold Auth.isAdmin in Hflag.
      destruct (Auth.profile auth) as [p|]; [|done].
      destruct (Auth.user auth) as [u|]; [|by destruct isOpen].
      destruct isOpen.
      2:{ unfold Ui.has_link, Ui.has_labelled, UserProfile.menu_link, UserProfile.avatar.
          apply orb_false_intro; no_node. }
      apply orb_true_intro. left. unfold Ui.has_link, Ui.when, UserProfile.menu_link. found.
  - split; [|split].
    + intros w. by apply blogs_page_without_flag.
    + intros course. by apply course_card_without_flag.
    + intros isOpen. by apply profile_menu_without_flag.
Qed.

(** The first three of the entries that pass a test. *)
Lemma first_three_of {A} (P : A → bool) (l : list A) :
  let shown := take 3 (filter (λ x, P x) l) in
  length shown = min 3 (length (filter (λ x, P x) l)) ∧
  shown `sublist_of` l ∧
  (∀ x, x ∈ shown → P x = true ∧ x ∈ l) ∧
  (length (filter (λ x, P x) l) ≤ 3 → ∀ x, x ∈ l → P x = true → x ∈ shown) ∧
  (∃ rest, filter (λ x, P x) l = shown ++ rest).
Proof.
  cbv zeta. split; [apply length_take|]. split.
  { etrans; [apply sublist_take | apply sublist_filter]. }
  split.
  { intros x Hx. eapply elem_of_sublist in Hx; [|apply sublist_take].
    apply list_elem_of_filter in Hx as [Hf Hin]. split; [by apply Is_true_true | done]. }
  split.
  { intros Hlen x Hx Hf. rewrite take_ge by done.
    apply list_elem_of_filter. split; [by apply Is_true_true | done]. }
  eexists. symmetry. apply take_drop.
Qed.

(** X11.  The home page features at most three blogs and three courses:
    the first three featured ones in the order of the list, all of them
    when there are no more than three, and never an entry that is not
    featured. *)
Theorem featured_first_three blogs courses :
  (length (Home.featuredBlogs blogs)
     = min 3 (length (filter (λ b, Blog.featured b) blogs)) ∧
   Home.featuredBlogs blogs `sublist_of` blogs ∧
   (∀ b, b ∈ Home.featuredBlogs blogs → Blog.featured b = true ∧ b ∈ blogs) ∧
   (length (filter (λ b, Blog.featured b) blogs) ≤ 3 →
    ∀ b, b ∈ blogs → Blog.featured b = true → b ∈ Home.featuredBlogs blogs) ∧
   (∃ rest, filter (λ b, Blog.featured b) blogs = Home.featuredBlogs blogs ++ rest)) ∧
  (length (Home.featuredCourses courses)
     = min 3 (length (filter (λ c, Course.featured c) courses)) ∧
   Home.featuredCourses courses `sublist_of` courses ∧
   (∀ c, c ∈ Home.featuredCourses courses → Course.featured c = true ∧ c ∈ courses) ∧
   (length (filter (λ c, Course.featured c) courses) ≤ 3 →
    ∀ c, c ∈ courses → Course.featured c = true → c ∈ Home.featuredCourses courses) ∧
   (∃ rest,
      filter (λ c, Course.featured c) courses = Home.featuredCourses courses ++ rest)).
Proof.
  split.
  - apply (first_three_of Blog.featured blogs).
  - apply (first_three_of Course.featured courses).
Qed.

(* ===================================================================== *)
(** * Loading the lists, and the colour scheme *)
(* ===================================================================== *)

#[local] Instance blog_first_total : Total Fetch.blog_first.
Proof. intros a b. unfold Fetch.blog_first, Fetch.not_older. lia. Qed.

#[local] Instance blog_first_trans : Transitive Fetch.blog_first.
Proof. intros a b c. unfold Fetch.blog_first, Fetch.not_older. lia. Qed.

#[local] Instance course_first_total : Total Fetch.course_first.
Proof. intros a b. unfold Fetch.course_first, Fetch.not_older. lia. Qed.

#[local] Instance course_first_trans : Transitive Fetch.course_first.
Proof. intros a b c. unfold Fetch.course_first, Fetch.not_older. lia. Qed.

(** Unfolds the loading of the lists down to the two queries. *)
Ltac unfold_fetch :=
  unfold Fetch.refreshData, Fetch.fetchData, Fetch.query, Fetch.setLoading,
    Fetch.select_blogs, Fetch.select_courses,
    try_catch, mbind, M_bind, bind, throw, setBlogs, setCourses, console_error, modify.

(** What [fetchData] does, by the answers to its two queries. *)
Lemma fetchData_runs env_blogs env_courses w :
  let r := Fetch.fetchData env_blogs env_courses w in
  r.1 = Return () ∧ w_loading r.2 = false ∧
  w_db r.2 = w_db w ∧ w_alerts r.2 = w_alerts w ∧ page_state r.2 = page_state w ∧
  match fault env_blogs, fault env_courses with
  | None, None =>
      w_blogs r.2 ≡ₚ blogs (w_db w) ∧ StronglySorted Fetch.blog_first (w_blogs r.2) ∧
      w_courses r.2 ≡ₚ courses (w_db w) ∧ StronglySorted Fetch.course_first (w_courses r.2) ∧
      w_console r.2 = w_console w
  | Some e, _ | None, Some e =>
      w_blogs r.2 = w_blogs w ∧ w_courses r.2 = w_courses w ∧
      w_console r.2 = w_console w ++ [("Error fetching data:", e)]
  end.
Proof.
  unfold_fetch. simpl.
  destruct (fault env_blogs) as [e|]; simpl; [done|].
  destruct (fault env_courses) as [e|]; simpl; [done|].
  repeat (split; [done|]).
  split; [apply merge_sort_Permutation|].
  split; [apply StronglySorted_merge_sort; apply _|].
  split; [apply merge_sort_Permutation|].
  split; [apply StronglySorted_merge_sort; apply _ | done].
Qed.

(** X12.  [fetchData] never throws, always ends with the loading flag off
    and writes nothing to the database.  If both queries succeed, both
    lists hold exactly the rows of their tables, newest first; if either
    fails, neither list changes (also when the blogs had been fetched
    already) and the error is logged, without an alert. *)
Theorem fetchData_all_or_nothing env_blogs env_courses w :
  let r := Fetch.fetchData env_blogs env_courses w in
  r.1 = Return () ∧ w_loading r.2 = false ∧
  w_db r.2 = w_db w ∧ w_alerts r.2 = w_alerts w ∧ page_state r.2 = page_state w ∧
  match fault env_blogs, fault env_courses with
  | None, None =>
      w_blogs r.2 ≡ₚ blogs (w_db w) ∧ StronglySorted Fetch.blog_first (w_blogs r.2) ∧
      w_courses r.2 ≡ₚ courses (w_db w) ∧ StronglySorted Fetch.course_first (w_courses r.2) ∧
      w_console r.2 = w_console w
  | Some e, _ | None, Some e =>
      w_blogs r.2 = w_blogs w ∧ w_courses r.2 = w_courses w ∧
      w_console r.2 = w_console w ++ [("Error fetching data:", e)]
  end.
Proof. exact (fetchData_runs env_blogs env_courses w). Qed.

(** X13.  A blog added through [addBlog] survives [refreshData]: after a
    successful refresh the list holds the new row and every row the table
    had before, and nothing else. *)
Theorem addBlog_survives_refresh env blog env_blogs env_courses w w1 :
  Ctx.addBlog env blog w = (Return (), w1) →
  fault env_blogs = None → fault env_courses = None →
  let w2 := (Fetch.refreshData env_blogs env_courses w1).2 in
  new_blog env blog ∈ w_blogs w2 ∧
  (∀ b, b ∈ blogs (w_db w) → b ∈ w_blogs w2) ∧
  length (w_blogs w2) = S (length (blogs (w_db w))).
Proof.
  intros (_ & _ & _ & Htbl)%addBlog_returns Hb Hc w2.
  pose proof (fetchData_runs env_blogs env_courses w1) as H.
  cbv zeta in H. rewrite Hb, Hc in H.
  destruct H as (_ & _ & _ & _ & _ & Hperm & _).
  fold (Fetch.refreshData env_blogs env_courses) in Hperm. fold w2 in Hperm.
  rewrite Htbl in Hperm.
  split; [|split].
  - rewrite Hperm. apply elem_of_app. right. apply list_elem_of_here.
  - intros b Hin. rewrite Hperm. apply elem_of_app. by left.
  - rewrite Hperm, length_app. simpl. lia.
Qed.

Lemma addBlog_survives_refresh_witness :
  new_blog (Sample.env "b3") (BlogsPage.blogData Sample.form)
    ∈ w_blogs (Cases.refreshed Cases.after_add_blog) ∧
  (∀ b, b ∈ blogs (w_db Sample.world) → b ∈ w_blogs (Cases.refreshed Cases.after_add_blog)) ∧
  length (w_blogs (Cases.refreshed Cases.after_add_blog)) = 3.
Proof.
  apply (addBlog_survives_refresh (Sample.env "b3") (BlogsPage.blogData Sample.form)
           (Sample.env "") (Sample.env "") Sample.world Cases.after_add_blog);
    reflexivity.
Defined.

(** X14.  Without a session, [deleteBlog] still returns and takes the blog
    off the page, although the row-level policy let the statement delete
    no row: the table is unchanged, and the next successful refresh
    brings every blog back. *)
Theorem anonymous_delete_comes_back env id env_blogs env_courses w :
  role env = Anon → fault env = None →
  fault env_blogs = None → fault env_courses = None →
  let r := Ctx.deleteBlog env id w in
  let w2 := (Fetch.refreshData env_blogs env_courses r.2).2 in
  r.1 = Return () ∧
  (∀ b, b ∈ w_blogs r.2 → Blog.id b ≠ id) ∧
  blogs (w_db r.2) = blogs (w_db w) ∧
  (∀ b, b ∈ blogs (w_db w) → b ∈ w_blogs w2).
Proof.
  intros Hrole Hfault Hb Hc r w2.
  assert (r = (Return (),
               mkWorld (filter (λ blog, Blog.id blog ≠ id) (w_blogs w)) (w_courses w)
                 (w_loading w) (w_searchTerm w) (w_selectedTag w) (w_showModal w)
                 (w_editingBlog w) (w_formData w) (w_console w) (w_alerts w)
                 (w_requests w ++ [DeleteBlogById id])
                 (blogs_delete env id (w_db w)).2)) as Hr.
  { unfold r. unfold_ctx. unfold blogs_delete. rewrite Hfault. done. }
  assert (blogs (blogs_delete env id (w_db w)).2 = blogs (w_db w)) as Hsame.
  { unfold blogs_delete. rewrite Hfault, Hrole. simpl.
    induction (blogs (w_db w)) as [|b l IH]; [done|].
    rewrite filter_cons_True by done. by rewrite IH. }
  pose proof (fetchData_runs env_blogs env_courses r.2) as H.
  cbv zeta in H. rewrite Hb, Hc in H.
  destruct H as (_ & _ & _ & _ & _ & Hperm & _).
  fold (Fetch.refreshData env_blogs env_courses) in Hperm. fold w2 in Hperm.
  rewrite Hr in *. simpl in *. rewrite Hsame in Hperm.
  split; [done|]. split; [|split; [done|]].
  - intros b Hin. by apply list_elem_of_filter in Hin as [? _].
  - intros b Hin. by rewrite Hperm.
Qed.

Lemma anonymous_delete_comes_back_witness :
  (Sample.blog1 ∉ w_blogs Cases.after_visitor_delete) ∧
  (Sample.blog1 ∈ w_blogs (Cases.refreshed Cases.after_visitor_delete)).
Proof.
  destruct (anonymous_delete_comes_back Cases.visitor (Blog.id Sample.blog1)
              (Sample.env "") (Sample.env "") Sample.world
              eq_refl eq_refl eq_refl eq_refl) as (_ & Hgone & _ & Hback).
  split.
  - intros Hin. exact (Hgone _ Hin eq_refl).
  - apply Hback. apply list_elem_of_here.
Defined.

(** X15.  The colour scheme survives a reload: what the effect stored under
    [darkMode] is read back on mount as the same state, whatever the
    class of the document was.  A toggle flips the flag, stores the new
    value and sets the class accordingly; two toggles give the state
    back. *)
Theorem dark_mode_survives_reload s dark_class0 :
  Theme.mount (Theme.storage (Theme.persist s)) dark_class0 = Some (Theme.persist s) ∧
  Theme.toggleDarkMode (Theme.toggleDarkMode s) = Theme.persist s ∧
  Theme.darkMode (Theme.toggleDarkMode s) = negb (Theme.darkMode s) ∧
  Theme.storage (Theme.toggleDarkMode s) !! "darkMode"
    = Some (Theme.stringify (negb (Theme.darkMode s))) ∧
  Theme.dark_class (Theme.toggleDarkMode s) = negb (Theme.darkMode s).
Proof.
  split; [|split; [|split; [done|split; [|done]]]].
  3:{ unfold Theme.toggleDarkMode, Theme.persist. simpl. apply lookup_insert_eq. }
  - unfold Theme.mount, Theme.persist. simpl. rewrite lookup_insert_eq.
    destruct (Theme.darkMode s); simpl; rewrite !insert_insert_eq; done.
  - unfold Theme.toggleDarkMode, Theme.persist. simpl.
    rewrite negb_involutive, insert_insert_eq. done.
Qed.

(** With nothing stored the page starts light, and stores that. *)
Example first_visit_is_light dark_class0 :
  Theme.mount ∅ dark_class0 = Some (Theme.mk false {["darkMode" := "false"]} false).
Proof. reflexivity. Qed.

(* ===================================================================== *)
(** * Signing up and logging in *)
(* ===================================================================== *)

(** X16.  Whatever the form holds and whatever the services answer, the
    sign-up handler ends with the loading flag off, never with both an
    error and a success message, and sends at most two requests, after
    those already sent. *)
Theorem signup_always_settles answers s :
  let s' := Signup.handleSubmit answers s in
  Signup.loading s' = false ∧
  ¬ (is_Some (Signup.error s') ∧ is_Some (Signup.success s')) ∧
  Signup.requests s `prefix_of` Signup.requests s' ∧
  length (Signup.requests s') ≤ length (Signup.requests s) + 2.
Proof.
  unfold Signup.handleSubmit.
  destruct (negb (bool_decide _)); simpl.
  { split; [done|]. split; [by intros [_ [? ?]]|]. split; [done | lia]. }
  destruct (_ <? 6); simpl.
  { split; [done|]. split; [by intros [_ [? ?]]|]. split; [done | lia]. }
  destruct (_ && _); simpl.
  { split; [done|]. split; [by intros [_ [? ?]]|]. split; [done | lia]. }
  destruct (Signup.signUp_answer answers) as [[[u|] session]|message]; simpl.
  - unfold Signup.after_signUp.
    destruct (Signup.profile_error answers), session; simpl;
      (split; [done|]; split; [by intros [[? ?] _]|]; split;
       [rewrite <- app_assoc; by apply prefix_app_r | rewrite !length_app; simpl; lia]).
  - split; [done|]. split; [by intros [[? ?] _]|]. split;
      [by apply prefix_app_r | rewrite length_app; simpl; lia].
  - split; [done|]. split; [by intros [_ [? ?]]|]. split;
      [by apply prefix_app_r | rewrite length_app; simpl; lia].
Qed.

(** X17.  A valid sign-up that the authentication service accepts with a
    user sends the sign-up and then the insert of the profile, with the
    user's id and e-mail and the name and role of the form.  It ends with
    a success message and no error, empties the form and the key, and
    starts one redirect: to the home page after 2 s with a session, to
    the login page after 3 s without.  A failed insert of the profile is
    only logged. *)
Theorem signup_accepted answers s u session :
  validation s None →
  Signup.signUp_answer answers = inl (Signup.mkData (Some u) session) →
  let s' := Signup.handleSubmit answers s in
  Signup.requests s' =
    Signup.requests s ++
      [ signUp_request s;
        Signup.InsertProfile (Signup.id u) (Signup.user_email u)
          (Signup.fullName (Signup.formData s)) (Signup.role (Signup.formData s)) ] ∧
  Signup.error s' = None ∧ is_Some (Signup.success s') ∧
  Signup.formData s' = Signup.mkForm "" "" "" "" Signup.user ∧
  Signup.adminSecretKey s' = "" ∧
  Signup.timers s' =
    Signup.timers s ++ [if session then Signup.mkTimer "/" 2000
                        else Signup.mkTimer "/login" 3000] ∧
  Signup.console s' =
    Signup.console s ++ (if Signup.profile_error answers
                         then ["Profile creation error:"] else []).
Proof.
  intros Hv Hans. inversion Hv as [| | |Heq Hge Hok]. unfold Signup.handleSubmit.
  rewrite bool_decide_eq_true_2 by done. simpl.
  apply Nat.ltb_ge in Hge. rewrite Hge.
  assert (bool_decide (Signup.role (Signup.formData s) = Signup.admin) &&
          negb (bool_decide (Signup.adminSecretKey s = Signup.ADMIN_SECRET)) = false) as ->.
  { destruct Hok as [Hr|Hk].
    - by rewrite (bool_decide_eq_false_2 _ Hr).
    - rewrite (bool_decide_eq_true_2 _ Hk). apply andb_false_r. }
  rewrite Hans. simpl. unfold Signup.after_signUp, signUp_request.
  destruct (Signup.profile_error answers), session; simpl;
    rewrite <- ?app_assoc, ?app_nil_r; repeat split; by eauto.
Qed.

(** The sample newcomer passes the three validations. *)
Lemma newcomer_valid : validation Sample.newcomer None.
Proof. apply all_valid; [reflexivity | simpl; lia | left; discriminate]. Qed.

Lemma signup_accepted_witness :
  Signup.requests (Signup.handleSubmit Sample.signed_up Sample.newcomer) =
    [ signUp_request Sample.newcomer;
      Signup.InsertProfile "b0b00000-0000-4000-8000-000000000001" "bob@example.org"
        "Bob" Signup.user ] ∧
  Signup.error (Signup.handleSubmit Sample.signed_up Sample.newcomer) = None ∧
  is_Some (Signup.success (Signup.handleSubmit Sample.signed_up Sample.newcomer)) ∧
  Signup.formData (Signup.handleSubmit Sample.signed_up Sample.newcomer)
    = Signup.mkForm "" "" "" "" Signup.user ∧
  Signup.adminSecretKey (Signup.handleSubmit Sample.signed_up Sample.newcomer) = "" ∧
  Signup.timers (Signup.handleSubmit Sample.signed_up Sample.newcomer)
    = [Signup.mkTimer "/" 2000] ∧
  Signup.console (Signup.handleSubmit Sample.signed_up Sample.newcomer) = [].
Proof.
  apply (signup_accepted Sample.signed_up Sample.newcomer
           (Signup.mkUser "b0b00000-0000-4000-8000-000000000001" "bob@example.org") true
           newcomer_valid eq_refl).
Defined.

(** X18.  A valid sign-up that the authentication service refuses sends the
    sign-up request and nothing else; the error shown is the service's
    message, or a fixed text when that is empty; no success message, no
    redirect, and the form and the key keep what was typed. *)
Theorem signup_refused answers s message :
  validation s None →
  Signup.signUp_answer answers = inr message →
  let s' := Signup.handleSubmit answers s in
  Signup.requests s' = Signup.requests s ++ [signUp_request s] ∧
  Signup.error s' =
    Some (if decide (message = "") then "An error occurred during signup" else message) ∧
  Signup.success s' = None ∧
  Signup.formData s' = Signup.formData s ∧
  Signup.adminSecretKey s' = Signup.adminSecretKey s ∧
  Signup.timers s' = Signup.timers s.
Proof.
  intros Hv Hans. inversion Hv as [| | |Heq Hge Hok]. unfold Signup.handleSubmit.
  rewrite bool_decide_eq_true_2 by done. simpl.
  apply Nat.ltb_ge in Hge. rewrite Hge.
  assert (bool_decide (Signup.role (Signup.formData s) = Signup.admin) &&
          negb (bool_decide (Signup.adminSecretKey s = Signup.ADMIN_SECRET)) = false) as ->.
  { destruct Hok as [Hr|Hk].
    - by rewrite (bool_decide_eq_false_2 _ Hr).
    - rewrite (bool_decide_eq_true_2 _ Hk). apply andb_false_r. }
  rewrite Hans. simpl. unfold Js.not_string.
  repeat split. by destruct (decide (message = "")); [rewrite bool_decide_eq_true_2
                                                      | rewrite bool_decide_eq_false_2].
Qed.

Lemma signup_refused_witness :
  Signup.requests (Signup.handleSubmit Cases.taken Sample.newcomer)
    = [signUp_request Sample.newcomer] ∧
  Signup.error (Signup.handleSubmit Cases.taken Sample.newcomer)
    = Some "User already registered" ∧
  Signup.success (Signup.handleSubmit Cases.taken Sample.newcomer) = None ∧
  Signup.formData (Signup.handleSubmit Cases.taken Sample.newcomer)
    = Signup.formData Sample.newcomer ∧
  Signup.adminSecretKey (Signup.handleSubmit Cases.taken Sample.newcomer) = "" ∧
  Signup.timers (Signup.handleSubmit Cases.taken Sample.newcomer) = [].
Proof.
  apply (signup_refused Cases.taken Sample.newcomer "User already registered"
           newcomer_valid eq_refl).
Defined.

(** What the login handler does, by the answers of the backend. *)
Lemma login_runs answers s :
  let s' := Login.handleSubmit answers s in
  Login.loading s' = false ∧ Login.email s' = Login.email s ∧
  match Login.signIn_answer answers with
  | inr message =>
      Login.requests s' = Login.requests s ++ [Login.SignIn (Login.email s) (Login.password s)] ∧
      Login.error s' = Some (Login.message_or message "An error occurred during login") ∧
      Login.navigations s' = Login.navigations s ∧ Login.refreshes s' = Login.refreshes s
  | inl None =>
      Login.requests s' = Login.requests s ++ [Login.SignIn (Login.email s) (Login.password s)] ∧
      Login.error s' = None ∧
      Login.navigations s' = Login.navigations s ∧ Login.refreshes s' = Login.refreshes s
  | inl (Some u) =>
      Login.requests s' =
        Login.requests s ++
          Login.SignIn (Login.email s) (Login.password s) :: Login.SelectProfile (Login.id u) ::
          (if Login.existing_profile answers then []
           else [Login.InsertProfile (Login.id u) (Login.user_email u)
                   (default "" (Login.meta_full_name u))
                   (Login.role_of_email (Login.email s))]) ∧
      Login.refreshes s' = S (Login.refreshes s) ∧
      match Login.refresh_error answers with
      | None =>
          Login.error s' = None ∧ Login.navigations s' = Login.navigations s ++ ["/"]
      | Some message =>
          Login.error s' = Some (Login.message_or message "An error occurred during login") ∧
          Login.navigations s' = Login.navigations s
      end
  end.
Proof.
  unfold Login.handleSubmit.
  destruct (Login.signIn_answer answers) as [[u|]|message]; simpl; [|done..].
  unfold Login.after_signIn, Login.enter.
  destruct (Login.existing_profile answers); simpl.
  - destruct (Login.refresh_error answers); simpl; rewrite <- ?app_assoc; done.
  - destruct (Login.profile_error answers), (Login.refresh_error answers); simpl;
      rewrite <- ?app_assoc; destruct (Login.meta_full_name u); done.
Qed.

(** X19.  The login handler always ends with the loading flag off and keeps
    the typed e-mail.  A refused sign-in sends one request and shows the
    service's message (a fixed text when it is empty), without a
    redirect.  An accepted one looks the profile up, creates it only when
    there is none and calls [refreshProfile] once; it then goes to the
    home page, unless [refreshProfile] threw, whose message is then shown
    without a redirect.  A sign-in that returns neither error nor user
    does nothing more. *)
Theorem login_outcome answers s :
  let s' := Login.handleSubmit answers s in
  Login.loading s' = false ∧ Login.email s' = Login.email s ∧
  match Login.signIn_answer answers with
  | inr message =>
      Login.requests s' = Login.requests s ++ [Login.SignIn (Login.email s) (Login.password s)] ∧
      Login.error s' = Some (Login.message_or message "An error occurred during login") ∧
      Login.navigations s' = Login.navigations s ∧ Login.refreshes s' = Login.refreshes s
  | inl None =>
      Login.requests s' = Login.requests s ++ [Login.SignIn (Login.email s) (Login.password s)] ∧
      Login.error s' = None ∧
      Login.navigations s' = Login.navigations s ∧ Login.refreshes s' = Login.refreshes s
  | inl (Some u) =>
      Login.requests s' =
        Login.requests s ++
          Login.SignIn (Login.email s) (Login.password s) :: Login.SelectProfile (Login.id u) ::
          (if Login.existing_profile answers then []
           else [Login.InsertProfile (Login.id u) (Login.user_email u)
                   (default "" (Login.meta_full_name u))
                   (Login.role_of_email (Login.email s))]) ∧
      Login.refreshes s' = S (Login.refreshes s) ∧
      match Login.refresh_error answers with
      | None =>
          Login.error s' = None ∧ Login.navigations s' = Login.navigations s ++ ["/"]
      | Some message =>
          Login.error s' = Some (Login.message_or message "An error occurred during login") ∧
          Login.navigations s' = Login.navigations s
      end
  end.
Proof. exact (login_runs answers s). Qed.

(** X20.  The role of a profile created at first login comes from the e-mail
    typed into the form alone: [admin] exactly for admin@robostaan.com,
    [instructor] exactly for instructor@robostaan.com, compared letter
    for letter.  Every profile insert the login handler sends carries that
    role; the demo login sends the sign-in with the given credentials and
    no other request. *)
Theorem login_roles_by_typed_email answers cred_email cred_password s :
  (∀ email, Login.role_of_email email = Signup.admin ↔ email = "admin@robostaan.com") ∧
  (∀ email, Login.role_of_email email = Signup.instructor ↔ email = "instructor@robostaan.com") ∧
  (∀ r, r ∈ Login.requests (Login.handleSubmit answers s) →
        r ∈ Login.requests s ∨
        match r with
        | Login.InsertProfile _ _ _ role => role = Login.role_of_email (Login.email s)
        | _ => True
        end) ∧
  Login.requests (Login.handleDemoLogin answers cred_email cred_password s)
    = Login.requests s ++ [Login.SignIn cred_email cred_password].
Proof.
  split; [|split; [|split]].
  - intros email. unfold Login.role_of_email. repeat case_decide; split; done.
  - intros email. unfold Login.role_of_email. repeat case_decide; split; try done.
    intros ->. done.
  - intros r. pose proof (login_runs answers s) as (_ & _ & H). cbv zeta in H.
    destruct (Login.signIn_answer answers) as [[u|]|message];
      destruct H as [Hreq _]; rewrite Hreq, elem_of_app.
    + intros [?|Hr]; [by left | right].
      apply elem_of_cons in Hr as [->|Hr]; [done|].
      apply elem_of_cons in Hr as [->|Hr]; [done|].
      destruct (Login.existing_profile answers); [by apply not_elem_of_nil in Hr|].
      apply list_elem_of_singleton in Hr as ->. done.
    + intros [?| ->%list_elem_of_singleton]; [by left | by right].
    + intros [?| ->%list_elem_of_singleton]; [by left | by right].
  - unfold Login.handleDemoLogin, Login.enter.
    destruct (Login.signIn_answer answers) as [[u|]|message]; [|done..].
    by destruct (Login.refresh_error answers).
Qed.

(* ===================================================================== *)
(** * Keys of the tables *)
(* ===================================================================== *)

Lemma omap_sublist {A B} (f : A → option B) (l1 l2 : list A) :
  l1 `sublist_of` l2 → omap f l1 `sublist_of` omap f l2.
Proof.
  induction 1 as [|x l1 l2 _ IH|x l1 l2 _ IH]; simpl.
  - constructor.
  - destruct (f x); [by constructor | done].
  - destruct (f x); [by constructor | done].
Qed.

Lemma cascade_replies_sublist rounds : ∀ gone tbl,
  cascade_replies rounds gone tbl `sublist_of` tbl.
Proof.
  induction rounds as [|n IH]; intros gone tbl; simpl; [done|].
  etrans; [apply IH | apply sublist_filter].
Qed.

Lemma remove_comments_sublist hit tbl : remove_comments hit tbl `sublist_of` tbl.
Proof.
  unfold remove_comments. etrans; [apply cascade_replies_sublist | apply sublist_filter].
Qed.

(** Whatever the statement, [course_enrollments] afterwards is a part of
    what it was, or went through the uniqueness checks. *)
Lemma exec_enrollments_table env s db :
  course_enrollments (exec env s db).2 `sublist_of` course_enrollments db ∨
  (unique_ids (Enrollment.id <$> course_enrollments (exec env s db).2) = true ∧
   unique_enrollment_keys (course_enrollments (exec env s db).2) = true).
Proof.
  destruct s; simpl; unfold status; simpl.
  - unfold blogs_insert. destruct (first_error _); simpl; auto.
  - unfold blogs_update. destruct (first_error _); simpl; auto.
    destruct (_ <$> _) as [|? [|? ?]]; simpl; auto.
  - unfold blogs_delete. destruct (fault env); simpl; auto.
  - unfold courses_insert. destruct (first_error _); simpl; auto.
  - unfold courses_update. destruct (first_error _); simpl; auto.
    destruct (_ <$> _) as [|? [|? ?]]; simpl; auto.
  - unfold courses_delete. destruct (fault env); simpl; auto.
    left. apply sublist_filter.
  - unfold insert_enrollment.
    destruct (first_error _) eqn:Hall; simpl; auto. right.
    split_checks Hall. apply first_error_None in Hchk1.
    repeat (apply Forall_cons in Hchk1 as [? Hchk1]).
    split; eapply (proj1 (require_None _ UniqueViolation)); eassumption.
  - unfold update_enrollments.
    destruct (first_error _) eqn:Hall; simpl; auto. right.
    split_checks Hall. apply first_error_None in Hchk1.
    repeat (apply Forall_cons in Hchk1 as [? Hchk1]).
    split; eapply (proj1 (require_None _ UniqueViolation)); eassumption.
  - unfold delete_enrollments. destruct (fault env); simpl; auto.
    left. apply sublist_filter.
  - unfold insert_comment. destruct (first_error _); simpl; auto.
  - unfold update_comments. destruct (first_error _); simpl; auto.
  - unfold delete_comments. destruct (fault env); simpl; auto.
  - unfold create_user. destruct (first_error _); simpl; auto.
  - unfold delete_user. destruct (fault env); simpl; auto.
    left. apply sublist_filter.
Qed.

(** X21.  In every database the application can reach, the ids of
    [course_enrollments] are pairwise distinct and no user is enrolled
    twice in the same course: two rows with the same user and the same
    course are the same row. *)
Theorem enrolled_at_most_once db :
  reachable db →
  NoDup (Enrollment.id <$> course_enrollments db) ∧
  ∀ i j e1 e2 u c,
    course_enrollments db !! i = Some e1 → course_enrollments db !! j = Some e2 →
    Enrollment.user_id e1 = Some u → Enrollment.user_id e2 = Some u →
    Enrollment.course_id e1 = Some c → Enrollment.course_id e2 = Some c →
    i = j.
Proof.
  intros Hdb.
  assert (NoDup (Enrollment.id <$> course_enrollments db) ∧
          NoDup (omap enrollment_key (course_enrollments db))) as [Hid Hkey].
  { induction Hdb as [db Hnone _|env s db _ [IHid IHkey]].
    - rewrite Hnone. split; constructor.
    - destruct (exec_enrollments_table env s db) as [Hsub|[Hi Hk]].
      + split.
        * eapply sublist_NoDup; [exact IHid | by apply fmap_sublist].
        * eapply sublist_NoDup; [exact IHkey | by apply omap_sublist].
      + split; [by apply bool_decide_eq_true in Hi | by apply bool_decide_eq_true in Hk]. }
  split; [done|].
  intros i j e1 e2 u c H1 H2 Hu1 Hu2 Hc1 Hc2.
  destruct (decide (i = j)) as [|Hne]; [done|]. exfalso.
  clear Hid Hdb. revert i j H1 H2 Hne Hkey.
  induction (course_enrollments db) as [|e l IH]; intros i j H1 H2 Hne Hkey; [done|].
  assert (∀ e', e' ∈ l → Enrollment.user_id e' = Some u → Enrollment.course_id e' = Some c →
                (u, c) ∈ omap enrollment_key l) as Hin.
  { intros e' He' Hu' Hc'. apply list_elem_of_omap. exists e'. split; [done|].
    unfold enrollment_key. by rewrite Hu', Hc'. }
  simpl in Hkey. destruct (enrollment_key e) as [k|] eqn:Hk.
  - apply NoDup_cons in Hkey as [Hnotin Hkey].
    destruct i as [|i], j as [|j]; simpl in *; simplify_eq.
    + apply Hnotin. unfold enrollment_key in Hk. rewrite Hu1, Hc1 in Hk. simplify_eq.
      eapply Hin; [by eapply list_elem_of_lookup_2|done..].
    + apply Hnotin. unfold enrollment_key in Hk. rewrite Hu2, Hc2 in Hk. simplify_eq.
      eapply Hin; [by eapply list_elem_of_lookup_2|done..].
    + eapply (IH i j); eauto.
  - destruct i as [|i], j as [|j]; simpl in *; simplify_eq.
    + unfold enrollment_key in Hk. by rewrite Hu1, Hc1 in Hk.
    + unfold enrollment_key in Hk. by rewrite Hu2, Hc2 in Hk.
    + eapply (IH i j); eauto.
Qed.

Lemma enrolled_at_most_once_witness :
  NoDup (Enrollment.id <$> course_enrollments Cases.enrolled) ∧
  ∀ i j e1 e2 u c,
    course_enrollments Cases.enrolled !! i = Some e1 →
    course_enrollments Cases.enrolled !! j = Some e2 →
    Enrollment.user_id e1 = Some u → Enrollment.user_id e2 = Some u →
    Enrollment.course_id e1 = Some c → Enrollment.course_id e2 = Some c →
    i = j.
Proof.
  apply (enrolled_at_most_once Cases.enrolled).
  apply reachable_exec, reachable_migrated; reflexivity.
Defined.

Section Keys.

Lemma references_mono key ids ids' :
  (∀ k, k ∈ ids → k ∈ ids') → references key ids = true → references key ids' = true.
Proof.
  destruct key as [k|]; simpl; [|done].
  rewrite !bool_decide_eq_true. auto.
Qed.

(** A key that did not vanish is still there. *)
Lemma references_not_vanished key old new :
  references key old = true → refers_to key (vanished old new) = false →
  references key new = true.
Proof.
  destruct key as [k|]; simpl; [|done].
  rewrite !bool_decide_eq_true, bool_decide_eq_false. unfold vanished.
  intros Hold Hgone. destruct (decide (k ∈ new)) as [|Hnew]; [done|].
  destruct Hgone. by apply list_elem_of_filter.
Qed.

(** A key that was not deleted is still there. *)
Lemma references_not_deleted {A} (key_of : A → uuid) (hit : A → bool) (tbl : list A) key :
  references key (key_of <$> tbl) = true →
  refers_to key (key_of <$> filter (λ r, hit r) tbl) = false →
  references key (key_of <$> filter (λ r, negb (hit r)) tbl) = true.
Proof.
  destruct key as [k|]; simpl; [|done].
  rewrite !bool_decide_eq_true, bool_decide_eq_false.
  intros (r & -> & Hr)%list_elem_of_fmap Hgone.
  apply list_elem_of_fmap. exists r. split; [done|].
  apply list_elem_of_filter. split; [|done].
  destruct (hit r) eqn:Hhit; [|done]. destruct Hgone.
  apply list_elem_of_fmap. exists r. split; [done|].
  apply list_elem_of_filter. by rewrite Hhit.
Qed.

Lemma forallb_elem {A} (f : A → bool) (l : list A) x :
  forallb f l = true → x ∈ l → f x = true.
Proof.
  intros H Hx. apply list_elem_of_In in Hx.
  by apply (proj1 (forallb_forall f l) H).
Qed.

(** The cascade leaves no reply behind: if every parent was in the table or
    among the rows just removed, every parent is in what remains. *)
Lemma cascade_replies_closed rounds : ∀ gone tbl,
  length tbl ≤ rounds →
  (∀ c, c ∈ tbl → references (Comment.parent_id c) ((Comment.id <$> tbl) ++ gone) = true) →
  ∀ c, c ∈ cascade_replies rounds gone tbl →
       references (Comment.parent_id c)
         (Comment.id <$> cascade_replies rounds gone tbl) = true.
Proof.
  assert (∀ gone tbl,
            (∀ c, c ∈ tbl →
                  references (Comment.parent_id c) ((Comment.id <$> tbl) ++ gone) = true) →
            ∀ c, c ∈ filter (λ c, negb (refers_to (Comment.parent_id c) gone)) tbl →
                 references (Comment.parent_id c)
                   ((Comment.id <$> filter (λ c, negb (refers_to (Comment.parent_id c) gone)) tbl)
                    ++ (Comment.id <$> filter (λ c, refers_to (Comment.parent_id c) gone) tbl))
                 = true) as Hstep.
  { intros gone tbl Hall c [Hkeep Hc]%list_elem_of_filter.
    specialize (Hall c Hc). destruct (Comment.parent_id c) as [p|]; simpl in *; [|done].
    apply bool_decide_eq_true. apply bool_decide_eq_true in Hall.
    apply negb_prop_elim in Hkeep. rewrite bool_decide_spec in Hkeep.
    apply elem_of_app in Hall as [(r & -> & Hr)%list_elem_of_fmap|?]; [|done].
    apply elem_of_app.
    destruct (refers_to (Comment.parent_id r) gone) eqn:Hrg.
    - right. apply list_elem_of_fmap. exists r. split; [done|].
      apply list_elem_of_filter. by rewrite Hrg.
    - left. apply list_elem_of_fmap. exists r. split; [done|].
      apply list_elem_of_filter. by rewrite Hrg. }
  induction rounds as [|n IH]; intros gone tbl Hlen Hall.
  - destruct tbl; [|simpl in Hlen; lia]. intros c Hc. by apply not_elem_of_nil in Hc.
  - change (cascade_replies (S n) gone tbl)
      with (cascade_replies n
              (Comment.id <$> filter (λ c, refers_to (Comment.parent_id c) gone) tbl)
              (filter (λ c, negb (refers_to (Comment.parent_id c) gone)) tbl)).
    specialize (Hstep gone tbl Hall).
    destruct (filter (λ c, refers_to (Comment.parent_id c) gone) tbl) as [|d dead] eqn:Hdead.
    + rewrite cascade_replies_none. intros c Hc. specialize (Hstep c Hc).
      by rewrite app_nil_r in Hstep.
    + apply IH; [|done].
      assert (d ∈ filter (λ c, refers_to (Comment.parent_id c) gone) tbl)
        as [Hd Hin]%list_elem_of_filter by (rewrite Hdead; apply list_elem_of_here).
      pose proof (length_filter_lt (λ c, negb (refers_to (Comment.parent_id c) gone)) tbl d Hin)
        as Hlt.
      simpl in Hlt.
      destruct (refers_to (Comment.parent_id d) gone); [|done].
      specialize (Hlt (λ H, H)). lia.
Qed.

Lemma remove_comments_closed hit tbl :
  (∀ c, c ∈ tbl → references (Comment.parent_id c) (Comment.id <$> tbl) = true) →
  ∀ c, c ∈ remove_comments hit tbl →
       references (Comment.parent_id c) (Comment.id <$> remove_comments hit tbl) = true.
Proof.
  intros Hall. unfold remove_comments. apply cascade_replies_closed; [done|].
  intros c [Hkeep Hc]%list_elem_of_filter.
  specialize (Hall c Hc). destruct (Comment.parent_id c) as [p|]; simpl in *; [|done].
  apply bool_decide_eq_true. apply bool_decide_eq_true in Hall.
  apply list_elem_of_fmap in Hall as (r & -> & Hr).
  apply elem_of_app. destruct (hit r) eqn:Hhit.
  - right. apply list_elem_of_fmap. exists r. split; [done|].
    apply list_elem_of_filter. by rewrite Hhit.
  - left. apply list_elem_of_fmap. exists r. split; [done|].
    apply list_elem_of_filter. by rewrite Hhit.
Qed.

(** What [remove_comments] keeps was not selected. *)
Lemma remove_comments_unhit hit tbl c :
  c ∈ remove_comments hit tbl → hit c = false ∧ c ∈ tbl.
Proof.
  unfold remove_comments. intros H%cascade_replies_subset.
  apply list_elem_of_filter in H as [Hkeep Hc]. split; [|done].
  by destruct (hit c).
Qed.

End Keys.

Lemma references_user_kept key users uid :
  references key users = true → refers_to key [uid] = false →
  references key (filter (λ u, u ≠ uid) users) = true.
Proof.
  destruct key as [k|]; simpl; [|done].
  rewrite !bool_decide_eq_true, bool_decide_eq_false.
  intros Hk Hne. apply list_elem_of_filter. split; [|done].
  intros ->. apply Hne. apply list_elem_of_here.
Qed.

Lemma negb_true_false b : negb b = true → b = false.
Proof. by destruct b. Qed.

(** Turns the passed checks in [H] into facts. *)
(** Reads the checks off a list of checks that passed. *)
Ltac passed H :=
  apply first_error_None in H;
  repeat match type of H with
         | Forall _ (_ :: _) =>
             let H1 := fresh "Hok" in
             apply Forall_cons in H as [H1 H]; try apply require_None in H1
         end.

(** Reduces the projections of a database that a statement built. *)
(** Projects the tables out of a database that was just built. *)
Ltac proj_db :=
  cbn [snd fst set_blogs set_courses set_comments set_enrollments
       users blogs courses course_enrollments comments].

Lemma consistent_blogs_insert env b db :
  consistent db → consistent (blogs_insert env b db).2.
Proof.
  intros [HE HC]. unfold blogs_insert, consistent. destruct (first_error _); [done|]. proj_db.
  split; [done|]. intros c Hc. destruct (HC c Hc) as (Hu & Hb & Hco & Hp).
  repeat split; try done.
  eapply references_mono; [|exact Hb]. intros k Hk. rewrite fmap_app.
  apply elem_of_app. by left.
Qed.

Lemma consistent_blogs_update env id p db :
  consistent db → consistent (blogs_update env id p db).2.
Proof.
  intros [HE HC]. unfold blogs_update, consistent.
  destruct (first_error _) eqn:Hall; [done|].
  destruct (_ <$> filter _ _) as [|row [|? ?]]; [done| |done]. proj_db.
  split; [done|]. intros c Hc. destruct (HC c Hc) as (Hu & Hb & Hco & Hp).
  repeat split; try done.
  passed Hall. eapply references_not_vanished; [exact Hb|].
  apply negb_true_false. by apply (forallb_elem _ _ c) in Hok1.
Qed.

Lemma consistent_blogs_delete env id db :
  consistent db → consistent (blogs_delete env id db).2.
Proof.
  intros [HE HC]. unfold blogs_delete, consistent. destruct (fault env); [done|]. proj_db.
  split; [done|]. intros c Hc.
  assert (∀ c, c ∈ comments db →
               references (Comment.parent_id c) (Comment.id <$> comments db) = true) as Hpar
    by (intros c' Hc'; by apply HC).
  pose proof (remove_comments_closed _ _ Hpar c Hc) as Hp.
  apply remove_comments_unhit in Hc as [Hhit Hc].
  destruct (HC c Hc) as (Hu & Hb & Hco & _).
  repeat split; try done.
  by apply references_not_deleted.
Qed.

Lemma consistent_courses_insert env c db :
  consistent db → consistent (courses_insert env c db).2.
Proof.
  intros [HE HC]. unfold courses_insert, consistent. destruct (first_error _); [done|]. proj_db.
  assert (∀ key, references key (Course.id <$> courses db) = true →
                 references key (Course.id <$> courses db ++ [new_course env c]) = true) as Hmono.
  { intros key. apply references_mono. intros k Hk. rewrite fmap_app.
    apply elem_of_app. by left. }
  split.
  - intros e He. destruct (HE e He) as [Hu Hco]. split; [done | by apply Hmono].
  - intros r Hr. destruct (HC r Hr) as (Hu & Hb & Hco & Hp).
    repeat split; try done. by apply Hmono.
Qed.

Lemma consistent_courses_update env id p db :
  consistent db → consistent (courses_update env id p db).2.
Proof.
  intros [HE HC]. unfold courses_update, consistent.
  destruct (first_error _) eqn:Hall; [done|].
  destruct (_ <$> filter _ _) as [|row [|? ?]]; [done| |done]. proj_db.
  passed Hall. split.
  - intros e He. destruct (HE e He) as [Hu Hco]. split; [done|].
    eapply references_not_vanished; [exact Hco|].
    apply negb_true_false. by apply (forallb_elem _ _ e) in Hok1.
  - intros c Hc. destruct (HC c Hc) as (Hu & Hb & Hco & Hp).
    repeat split; try done.
    eapply references_not_vanished; [exact Hco|].
    apply negb_true_false. by apply (forallb_elem _ _ c) in Hok2.
Qed.

Lemma consistent_courses_delete env id db :
  consistent db → consistent (courses_delete env id db).2.
Proof.
  intros [HE HC]. unfold courses_delete, consistent. destruct (fault env); [done|]. proj_db.
  split.
  - intros e [Hkeep He]%list_elem_of_filter. destruct (HE e He) as [Hu Hco].
    split; [done|]. apply references_not_deleted; [done|].
    by destruct (refers_to (Enrollment.course_id e) _).
  - intros c Hc.
    assert (∀ c, c ∈ comments db →
                 references (Comment.parent_id c) (Comment.id <$> comments db) = true) as Hpar
      by (intros c' Hc'; by apply HC).
    pose proof (remove_comments_closed _ _ Hpar c Hc) as Hp.
    apply remove_comments_unhit in Hc as [Hhit Hc].
    destruct (HC c Hc) as (Hu & Hb & Hco & _).
    repeat split; try done.
    by apply references_not_deleted.
Qed.

Lemma consistent_insert_enrollment env c db :
  consistent db → consistent (insert_enrollment env c db).2.
Proof.
  intros [HE HC]. unfold insert_enrollment, consistent.
  destruct (first_error _) eqn:Hall; [done|]. proj_db.
  split; [|done].
  intros e [He| ->%list_elem_of_singleton]%elem_of_app; [by apply HE|].
  split_checks Hall. unfold enrollment_fk_checks in Hall. passed Hall. done.
Qed.

Lemma consistent_update_enrollments env w c db :
  consistent db → consistent (update_enrollments env w c db).2.
Proof.
  intros [HE HC]. unfold update_enrollments, consistent.
  destruct (first_error _) eqn:Hall; [done|]. proj_db.
  split; [|done].
  intros e [He|He]%elem_of_updated; [by apply HE|].
  split_checks Hall.
  pose proof (proj1 (first_error_join_None _ _) Hall e He) as Hrow.
  unfold enrollment_fk_checks in Hrow. passed Hrow. done.
Qed.

Lemma consistent_delete_enrollments env w db :
  consistent db → consistent (delete_enrollments env w db).2.
Proof.
  intros [HE HC]. unfold delete_enrollments, consistent. destruct (fault env); [done|]. proj_db.
  split; [|done]. intros e [_ He]%list_elem_of_filter. by apply HE.
Qed.

Lemma consistent_insert_comment env c db :
  consistent db → consistent (insert_comment env c db).2.
Proof.
  intros [HE HC]. unfold insert_comment, consistent.
  destruct (first_error _) eqn:Hall; [done|]. proj_db.
  split; [done|].
  intros r [Hr| ->%list_elem_of_singleton]%elem_of_app.
  - destruct (HC r Hr) as (Hu & Hb & Hco & Hp). repeat split; try done.
    eapply references_mono; [|exact Hp]. intros k Hk. rewrite fmap_app.
    apply elem_of_app. by left.
  - split_checks Hall. unfold comment_fk_checks in Hall. passed Hall. done.
Qed.

Lemma consistent_update_comments env w c db :
  consistent db → consistent (update_comments env w c db).2.
Proof.
  intros [HE HC]. unfold update_comments, consistent.
  destruct (first_error _) eqn:Hall; [done|]. proj_db.
  split; [done|]. split_checks Hall. passed Hall.
  intros r Hr. destruct (elem_of_updated _ _ _ _ Hr) as [Hold|Hnew].
  - destruct (HC r Hold) as (Hu & Hb & Hco & Hp). repeat split; try done.
    eapply references_not_vanished; [exact Hp|].
    apply negb_true_false. by apply (forallb_elem _ _ r) in Hok.
  - pose proof (proj1 (first_error_join_None _ _) Hchk2 r Hnew) as Hrow.
    unfold comment_fk_checks in Hrow. passed Hrow. done.
Qed.

Lemma consistent_delete_comments env w db :
  consistent db → consistent (delete_comments env w db).2.
Proof.
  intros [HE HC]. unfold delete_comments, consistent. destruct (fault env); [done|]. proj_db.
  split; [done|]. intros c Hc.
  assert (∀ c, c ∈ comments db →
               references (Comment.parent_id c) (Comment.id <$> comments db) = true) as Hpar
    by (intros c' Hc'; by apply HC).
  pose proof (remove_comments_closed _ _ Hpar c Hc) as Hp.
  apply remove_comments_unhit in Hc as [Hhit Hc].
  destruct (HC c Hc) as (Hu & Hb & Hco & _). done.
Qed.

Lemma consistent_create_user env uid db :
  consistent db → consistent (create_user env uid db).2.
Proof.
  intros [HE HC]. unfold create_user, consistent. destruct (first_error _); [done|]. proj_db.
  assert (∀ key, references key (users db) = true →
                 references key (users db ++ [uid]) = true) as Hmono.
  { intros key. apply references_mono. intros k Hk. apply elem_of_app. by left. }
  split.
  - intros e He. destruct (HE e He) as [Hu Hco]. split; [by apply Hmono | done].
  - intros r Hr. destruct (HC r Hr) as (Hu & Hb & Hco & Hp).
    repeat split; try done. by apply Hmono.
Qed.

Lemma consistent_delete_user env uid db :
  consistent db → consistent (delete_user env uid db).2.
Proof.
  intros [HE HC]. unfold delete_user, consistent. destruct (fault env); [done|]. proj_db.
  split.
  - intros e [Hkeep He]%list_elem_of_filter. destruct (HE e He) as [Hu Hco].
    split; [|done]. apply references_user_kept; [done|].
    by destruct (refers_to (Enrollment.user_id e) _).
  - intros c Hc.
    assert (∀ c, c ∈ comments db →
                 references (Comment.parent_id c) (Comment.id <$> comments db) = true) as Hpar
      by (intros c' Hc'; by apply HC).
    pose proof (remove_comments_closed _ _ Hpar c Hc) as Hp.
    apply remove_comments_unhit in Hc as [Hhit Hc].
    destruct (HC c Hc) as (Hu & Hb & Hco & _).
    repeat split; try done.
    by apply references_user_kept.
Qed.

(** X22.  In every database the application can reach, every foreign key of
    [course_enrollments] and [comments] that is not NULL points to a row
    that is there: the user, the course, the blog and the parent comment.
    No insert, update, delete or cascade leaves a dangling reference. *)
Theorem foreign_keys_always_resolve db :
  reachable db → consistent db.
Proof.
  induction 1 as [db He Hc|env s db _ IH].
  - split; intros r Hr; [rewrite He in Hr | rewrite Hc in Hr];
      by apply not_elem_of_nil in Hr.
  - destruct s; simpl; unfold status; simpl;
      eauto using consistent_blogs_insert, consistent_blogs_update, consistent_blogs_delete,
        consistent_courses_insert, consistent_courses_update, consistent_courses_delete,
        consistent_insert_enrollment, consistent_update_enrollments,
        consistent_delete_enrollments, consistent_insert_comment, consistent_update_comments,
        consistent_delete_comments, consistent_create_user, consistent_delete_user.
Qed.

Lemma foreign_keys_always_resolve_witness : consistent Cases.enrolled.
Proof.
  apply (foreign_keys_always_resolve Cases.enrolled).
  apply reachable_exec, reachable_migrated; reflexivity.
Defined.

(* ===================================================================== *)
(** * Deleting content, and who may write it *)
(* ===================================================================== *)

(** X23.  A delete by a signed-in user that reaches the database removes the
    course (the blog) with that id and, when there was one, takes along
    every enrollment and every comment that refers to it. *)
Theorem delete_takes_dependents_along env id db :
  fault env = None → content_writer (role env) = true →
  (let db' := (courses_delete env id db).2 in
   (∀ c, c ∈ courses db' → Course.id c ≠ id) ∧
   (id ∈ Course.id <$> courses db →
    (∀ e, e ∈ course_enrollments db' → Enrollment.course_id e ≠ Some id) ∧
    (∀ c, c ∈ comments db' → Comment.course_id c ≠ Some id))) ∧
  (let db' := (blogs_delete env id db).2 in
   (∀ b, b ∈ blogs db' → Blog.id b ≠ id) ∧
   (id ∈ Blog.id <$> blogs db →
    ∀ c, c ∈ comments db' → Comment.blog_id c ≠ Some id)).
Proof.
  intros Hfault Hrole. split.
  - unfold courses_delete. rewrite Hfault, Hrole. proj_db. split.
    + intros c [Hkeep _]%list_elem_of_filter Hid.
      rewrite andb_true_l in Hkeep. apply negb_prop_elim in Hkeep.
      apply Hkeep. by apply bool_decide_pack.
    + intros (c0 & -> & Hc0)%list_elem_of_fmap.
      assert (Course.id c0 ∈
              Course.id <$> filter (λ c, true && bool_decide (Course.id c = Course.id c0))
                              (courses db)) as Hgone.
      { apply list_elem_of_fmap. exists c0. split; [done|].
        apply list_elem_of_filter. split; [|done]. simpl. by apply bool_decide_pack. }
      split.
      * intros e [Hkeep _]%list_elem_of_filter He. rewrite He in Hkeep. simpl in Hkeep.
        apply negb_prop_elim in Hkeep. apply Hkeep. by apply bool_decide_pack.
      * intros c [Hhit _]%remove_comments_unhit Hc. rewrite Hc in Hhit. simpl in Hhit.
        apply bool_decide_eq_false in Hhit. done.
  - unfold blogs_delete. rewrite Hfault, Hrole. proj_db. split.
    + intros b [Hkeep _]%list_elem_of_filter Hid.
      rewrite andb_true_l in Hkeep. apply negb_prop_elim in Hkeep.
      apply Hkeep. by apply bool_decide_pack.
    + intros (b0 & -> & Hb0)%list_elem_of_fmap.
      assert (Blog.id b0 ∈
              Blog.id <$> filter (λ b, true && bool_decide (Blog.id b = Blog.id b0))
                            (blogs db)) as Hgone.
      { apply list_elem_of_fmap. exists b0. split; [done|].
        apply list_elem_of_filter. split; [|done]. simpl. by apply bool_decide_pack. }
      intros c [Hhit _]%remove_comments_unhit Hc. rewrite Hc in Hhit. simpl in Hhit.
      apply bool_decide_eq_false in Hhit. done.
Qed.

Lemma delete_takes_dependents_along_witness :
  (∀ c, c ∈ courses (courses_delete (Sample.env "") (Course.id Sample.course1)
                       Cases.enrolled).2 →
        Course.id c ≠ Course.id Sample.course1) ∧
  (∀ e, e ∈ course_enrollments
              (courses_delete (Sample.env "") (Course.id Sample.course1) Cases.enrolled).2 →
        Enrollment.course_id e ≠ Some (Course.id Sample.course1)).
Proof.
  destruct (delete_takes_dependents_along (Sample.env "") (Course.id Sample.course1)
              Cases.enrolled eq_refl eq_refl) as [[Hgone Hdep] _].
  split; [exact Hgone|].
  apply Hdep. vm_compute. apply list_elem_of_here.
Defined.

(** A delete that selects no comment leaves the comments alone. *)
Lemma remove_comments_nothing hit tbl :
  (∀ c, hit c = false) → remove_comments hit tbl = tbl.
Proof.
  intros H. unfold remove_comments.
  rewrite (filter_none hit) by done.
  rewrite (filter_all (λ c, negb (hit c))) by (intros c; by rewrite H).
  apply cascade_replies_none.
Qed.

(** X24.  Without a session nothing is written to [blogs] or [courses]:
    every insert and every update is refused and leaves the database as
    it was, and a delete removes no blog, course, enrollment or
    comment. *)
Theorem anonymous_cannot_change_content env db :
  role env = Anon →
  (∀ b, (blogs_insert env b db).2 = db ∧ is_err (blogs_insert env b db).1 = true) ∧
  (∀ id p, (blogs_update env id p db).2 = db ∧ is_err (blogs_update env id p db).1 = true) ∧
  (∀ id, blogs (blogs_delete env id db).2 = blogs db ∧
         comments (blogs_delete env id db).2 = comments db) ∧
  (∀ c, (courses_insert env c db).2 = db ∧ is_err (courses_insert env c db).1 = true) ∧
  (∀ id p, (courses_update env id p db).2 = db ∧ is_err (courses_update env id p db).1 = true) ∧
  (∀ id, courses (courses_delete env id db).2 = courses db ∧
         course_enrollments (courses_delete env id db).2 = course_enrollments db ∧
         comments (courses_delete env id db).2 = comments db).
Proof.
  intros Hrole. split; [|split; [|split; [|split; [|split]]]].
  - intros b. unfold blogs_insert. rewrite Hrole. simpl.
    by destruct (fault env).
  - intros id p. unfold blogs_update. rewrite Hrole.
    rewrite (filter_none (λ b, content_writer Anon && bool_decide (Blog.id b = id))) by (intros; reflexivity).
    by destruct (first_error _).
  - intros id. unfold blogs_delete. rewrite Hrole. destruct (fault env); [done|]. proj_db.
    rewrite (filter_none (λ b, content_writer Anon && bool_decide (Blog.id b = id))) by (intros; reflexivity).
    rewrite (filter_all (λ b, negb (content_writer Anon && bool_decide (Blog.id b = id))))
      by (intros; reflexivity).
    split; [done|]. apply remove_comments_nothing; intros r; apply refers_to_nil.
  - intros c. unfold courses_insert. rewrite Hrole. simpl.
    by destruct (fault env).
  - intros id p. unfold courses_update. rewrite Hrole.
    rewrite (filter_none (λ c, content_writer Anon && bool_decide (Course.id c = id))) by (intros; reflexivity).
    by destruct (first_error _).
  - intros id. unfold courses_delete. rewrite Hrole. destruct (fault env); [done|]. proj_db.
    rewrite (filter_none (λ c, content_writer Anon && bool_decide (Course.id c = id))) by (intros; reflexivity).
    rewrite (filter_all (λ c, negb (content_writer Anon && bool_decide (Course.id c = id))))
      by (intros; reflexivity).
    split; [done|]. split; [|apply remove_comments_nothing; intros r; apply refers_to_nil].
    apply (filter_all (λ e, negb (refers_to (Enrollment.course_id e) []))).
    intros e. by rewrite refers_to_nil.
Qed.

Lemma anonymous_cannot_change_content_witness :
  (∀ b, (blogs_insert Cases.visitor b Sample.db).2 = Sample.db ∧
        is_err (blogs_insert Cases.visitor b Sample.db).1 = true) ∧
  (∀ id, blogs (blogs_delete Cases.visitor id Sample.db).2 = blogs Sample.db ∧
         comments (blogs_delete Cases.visitor id Sample.db).2 = comments Sample.db).
Proof.
  destruct (anonymous_cannot_change_content Cases.visitor Sample.db eq_refl)
    as (Hins & _ & Hdel & _).
  split; [exact Hins | exact Hdel].
Defined.

(** X25.  The database asks for no role: any signed-in user, administrator
    or not, inserts a blog (given a fresh id) and deletes any blog; the
    insert stores the row with the server's defaults, the delete removes
    exactly the rows with the id. *)
Theorem any_signed_in_user_can_publish env uid blog db :
  role env = Authenticated uid → fault env = None →
  gen_random_uuid env ∉ Blog.id <$> blogs db → NoDup (Blog.id <$> blogs db) →
  blogs_insert env blog db
    = (Ok (new_blog env blog), set_blogs (blogs db ++ [new_blog env blog]) (comments db) db) ∧
  (∀ id,
     blogs (blogs_delete env id db).2 = filter (λ b, Blog.id b ≠ id) (blogs db) ∧
     (blogs_delete env id db).1 = Ok ()).
Proof.
  intros Hrole Hfault Hfresh Hnd. split.
  - unfold blogs_insert. rewrite Hrole, Hfault. unfold unique_ids.
    rewrite bool_decide_eq_true_2; [reflexivity|].
    rewrite fmap_app. apply NoDup_app. split; [done|]. split; [|apply NoDup_singleton].
    intros k Hk ->%list_elem_of_singleton. done.
  - intros id. unfold blogs_delete. rewrite Hrole, Hfault. proj_db. split; [|done].
    apply list_filter_iff. intros b. simpl. rewrite negb_True, bool_decide_spec. done.
Qed.

Lemma any_signed_in_user_can_publish_witness :
  blogs_insert (Sample.env "b3") (BlogsPage.blogData Sample.form) Sample.db
    = (Ok (new_blog (Sample.env "b3") (BlogsPage.blogData Sample.form)),
       set_blogs (blogs Sample.db ++ [new_blog (Sample.env "b3") (BlogsPage.blogData Sample.form)])
         (comments Sample.db) Sample.db) ∧
  (∀ id,
     blogs (blogs_delete (Sample.env "b3") id Sample.db).2
       = filter (λ b, Blog.id b ≠ id) (blogs Sample.db) ∧
     (blogs_delete (Sample.env "b3") id Sample.db).1 = Ok ()).
Proof.
  apply (any_signed_in_user_can_publish (Sample.env "b3") Sample.alice
           (BlogsPage.blogData Sample.form) Sample.db); try reflexivity.
  - apply (bool_decide_unpack _). vm_compute. exact I.
  - apply (bool_decide_unpack _). vm_compute. exact I.
Defined.

(* ===================================================================== *)
(** * The table [user_profiles] *)
(* ===================================================================== *)

(** The CHECK of [user_profiles] lets through NULL and the three labels. *)
Lemma check_role_sound role :
  Sql.check_passes (Profile.check_role role) = true ↔
  role = None ∨ ∃ r, role = Some (role_label r).
Proof.
  unfold Profile.check_role. destruct role as [r|]; simpl.
  - repeat case_bool_decide; simpl; subst; split; try done.
    + intros _. right. by exists Signup.user.
    + intros _. right. by exists Signup.admin.
    + intros _. right. by exists Signup.instructor.
    + intros [?|[[] [= ->]]]; done.
  - split; [by left | done].
Qed.

(** Whatever the statement, [user_profiles] afterwards is a part of what it
    was, or went through the checks. *)
Lemma exec_profile_table env s db :
  profiles (exec_profile env s db) `sublist_of` profiles db ∨
  (NoDup (Profile.id <$> profiles (exec_profile env s db)) ∧
   NoDup (Profile.email <$> profiles (exec_profile env s db))).
Proof.
  destruct s; simpl.
  - unfold insert_profile. destruct (first_error _) eqn:Hall; simpl; [by left|]. right.
    split_checks Hall. unfold profile_keys_unique in *. passed Hchk1.
    split; by eapply bool_decide_eq_true.
  - unfold update_profiles. destruct (first_error _) eqn:Hall; simpl; [by left|]. right.
    split_checks Hall. unfold profile_keys_unique in *. passed Hchk1.
    split; by eapply bool_decide_eq_true.
  - unfold delete_profiles. destruct (fault env); simpl; [by left|].
    left. apply sublist_filter.
  - unfold create_account. case_decide; by left.
  - left. apply sublist_filter.
Qed.

(** Every row afterwards was there before, or passed the CHECK. *)
Lemma exec_profile_rows env s db p :
  p ∈ profiles (exec_profile env s db) →
  p ∈ profiles db ∨ Sql.check_passes (Profile.check_role (Profile.role p)) = true.
Proof.
  destruct s; simpl.
  - unfold insert_profile. destruct (first_error _) eqn:Hall; simpl; [by left|].
    intros [H| ->%list_elem_of_singleton]%elem_of_app; [by left | right].
    split_checks Hall. unfold profile_row_checks in *. passed Hchk0. done.
  - unfold update_profiles. destruct (first_error _) eqn:Hall; simpl; [by left|].
    intros [H|H]%elem_of_updated; [by left | right].
    split_checks Hall.
    pose proof (proj1 (first_error_join_None _ _) Hchk0 p H) as Hrow.
    unfold profile_row_checks in Hrow. passed Hrow. done.
  - unfold delete_profiles. destruct (fault env); simpl; [by left|].
    intros [_ H]%list_elem_of_filter. by left.
  - unfold create_account. case_decide; by left.
  - intros [_ H]%list_elem_of_filter. by left.
Qed.

(** X26.  In every state of [user_profiles] the application can reach, the
    role of a profile is NULL or one of [user], [admin] and [instructor],
    and no two profiles share an e-mail address or an id. *)
Theorem profiles_keep_their_constraints db :
  reachable_profiles db →
  (∀ p, p ∈ profiles db →
        Profile.role p = None ∨ ∃ r, Profile.role p = Some (role_label r)) ∧
  NoDup (Profile.email <$> profiles db) ∧
  NoDup (Profile.id <$> profiles db).
Proof.
  induction 1 as [db Hnone|env s db _ (IHrole & IHmail & IHid)].
  - rewrite Hnone. split; [|split; constructor].
    intros p Hp. by apply not_elem_of_nil in Hp.
  - split.
    + intros p [Hp|Hp]%exec_profile_rows; [by apply IHrole | by apply check_role_sound].
    + destruct (exec_profile_table env s db) as [Hsub|[Hi Hm]]; [|done].
      split; (eapply sublist_NoDup; [| apply fmap_sublist; eassumption]; assumption).
Qed.

Lemma profiles_keep_their_constraints_witness :
  (∀ p, p ∈ profiles Cases.registered →
        Profile.role p = None ∨ ∃ r, Profile.role p = Some (role_label r)) ∧
  NoDup (Profile.email <$> profiles Cases.registered) ∧
  NoDup (Profile.id <$> profiles Cases.registered).
Proof.
  apply (profiles_keep_their_constraints Cases.registered).
  apply profiles_exec, profiles_migrated; reflexivity.
Defined.

(** X27.  The insert of a profile, as the sign-up and login pages send it,
    is refused without a session and for another account's id.  For
    one's own account it is accepted (given a fresh id and an unused
    e-mail address) with whatever role the request carries, [admin]
    included: the database does not restrict who becomes an
    administrator. *)
Theorem profile_creation_policy env db user_id email full_name r :
  fault env = None →
  (role env = Anon →
   insert_profile env (profile_payload user_id email full_name r) db = (Err RlsViolation, db)) ∧
  (∀ uid, role env = Authenticated uid → uid ≠ user_id →
   insert_profile env (profile_payload user_id email full_name r) db = (Err RlsViolation, db)) ∧
  (role env = Authenticated user_id →
   user_id ∈ accounts db →
   NoDup (Profile.id <$> profiles db) → gen_random_uuid env ∉ Profile.id <$> profiles db →
   NoDup (Profile.email <$> profiles db) → email ∉ Profile.email <$> profiles db →
   ∃ row db',
     insert_profile env (profile_payload user_id email full_name r) db = (Ok row, db') ∧
     row ∈ profiles db' ∧
     Profile.user_id row = Some user_id ∧ Profile.email row = email ∧
     Profile.role row = Some (role_label r)).
Proof.
  intros Hfault. split; [|split].
  - intros Hrole. unfold insert_profile. rewrite Hfault, Hrole. reflexivity.
  - intros uid Hrole Hne. unfold insert_profile. rewrite Hfault, Hrole.
    unfold profile_row_checks, profile_writable, own. simpl.
    rewrite bool_decide_eq_false_2 by done. reflexivity.
  - intros Hrole Hacc Hid Hfresh Hmail Hnew. unfold insert_profile.
    rewrite Hfault, Hrole.
    unfold profile_row_checks, profile_keys_unique, profile_writable, own, unique_ids. simpl.
    rewrite (bool_decide_eq_true_2 (user_id = user_id)) by done.
    assert (Sql.check_passes (Profile.check_role (Some (role_label r))) = true) as Hcheck
      by (by destruct r).
    cbn [Sql.holds Sql.of_bool require first_error app negb andb sets_null].
    rewrite Hcheck.
    rewrite (bool_decide_eq_true_2 (NoDup (Profile.id <$> _))).
    2:{ rewrite fmap_app. apply NoDup_app. split; [done|]. split; [|apply NoDup_singleton].
        intros k Hk ->%list_elem_of_singleton. done. }
    rewrite (bool_decide_eq_true_2 (NoDup (Profile.email <$> _))).
    2:{ rewrite fmap_app. apply NoDup_app. split; [done|]. split; [|apply NoDup_singleton].
        intros k Hk ->%list_elem_of_singleton. done. }
    rewrite (bool_decide_eq_true_2 (user_id ∈ accounts db)) by done.
    cbn [require first_error].
    eexists _, _. split; [reflexivity|]. simpl. split; [|done].
    apply elem_of_app. right. apply list_elem_of_here.
Qed.

Lemma profile_creation_policy_witness :
  ∃ row db',
    insert_profile (Sample.env "p1") Cases.own_profile Cases.accounts = (Ok row, db') ∧
    row ∈ profiles db' ∧
    Profile.user_id row = Some Sample.alice ∧ Profile.email row = "alice@example.org" ∧
    Profile.role row = Some "admin".
Proof.
  destruct (profile_creation_policy (Sample.env "p1") Cases.accounts Sample.alice
              "alice@example.org" "Alice" Signup.admin eq_refl) as (_ & _ & Hown).
  apply Hown.
  - reflexivity.
  - apply list_elem_of_here.
  - constructor.
  - apply not_elem_of_nil.
  - constructor.
  - apply not_elem_of_nil.
Defined.

